(** * LLM-Evaluation: the evaluation engine, its scorers and its providers

    A shallow embedding of [src/evaluation/engine.py],
    [src/agents/evaluator_agents.py], [src/llm_providers/*.py] and of the
    session configured in [src/database/database.py], followed by the
    properties of the specification that can be stated over it.

    Conventions of the embedding.
    - A Python [str] is a [string]: a sequence of code points below 256.
      [lower], [isspace] and [len] are the Python ones on that range.
    - A Python [float] is a rational of [Q]; equality of floats is [==].
      [float(s)] gives the binary64 number nearest to the numeral [s]; the
      constants and the arithmetic of the code ([x / 10], [x / 1000], sums,
      multiples of [0.25]) are read as the exact rationals.  There is no
      infinity: a numeral too large for binary64 is outside the embedding.
    - A Python [int] is a [Z]; a value that can be [None], in a nullable
      column or in the reply of a remote API, is an [option].
    - Code that can raise returns an [outcome]: [Return v] or [Raise e]. *)

From Stdlib Require Import ZArith QArith Qround Qpower String Ascii List Lia Lqa Bool.
From Stdlib Require Import DecimalString.
From stdpp Require Import gmap strings list.

Local Open Scope string_scope.
Local Open Scope list_scope.
Local Open Scope Z_scope.

(** ** Exceptions and outcomes *)

Inductive exn : Type :=
  | ValueError (msg : string)
  | ZeroDivisionError (msg : string)
  | AttributeError (msg : string)
  | TypeError (msg : string)
  | RuntimeError (msg : string).

(** [str(e)] *)
Definition str_exn (e : exn) : string :=
  match e with
  | ValueError m | ZeroDivisionError m | AttributeError m | TypeError m
  | RuntimeError m => m
  end.

Inductive outcome (A : Type) : Type :=
  | Return (a : A)
  | Raise (e : exn).
Arguments Return {A} a.
Arguments Raise {A} e.

#[global] Instance outcome_ret : MRet outcome := @Return.
#[global] Instance outcome_bind : MBind outcome := fun A B f x =>
  match x with
  | Return a => f a
  | Raise e => Raise e
  end.

(** ** Python text primitives *)

Module Text.

Definition in_range (lo hi n : N) : bool := ((lo <=? n) && (n <=? hi))%N.

(** [c.lower()] on one code point below 256. *)
Definition lower_char (c : ascii) : ascii :=
  let n := N_of_ascii c in
  if in_range 65 90 n || (in_range 192 222 n && negb (n =? 215)%N)
  then ascii_of_N (n + 32) else c.

(** [s.lower()] *)
Fixpoint lower (s : string) : string :=
  match s with
  | EmptyString => EmptyString
  | String c r => String (lower_char c) (lower r)
  end.

(** [c.isspace()], which is also the class [\s] of [re] on [str]. *)
Definition isspace (c : ascii) : bool :=
  let n := N_of_ascii c in
  in_range 9 13 n || in_range 28 32 n || (n =? 133)%N || (n =? 160)%N.

Definition isdigit (c : ascii) : bool := in_range 48 57 (N_of_ascii c).

(** [len(s)] *)
Definition len (s : string) : Z := Z.of_nat (String.length s).

(** [s.startswith(p)], returning what follows the prefix. *)
Fixpoint strip_prefix (p s : string) : option string :=
  match p, s with
  | EmptyString, _ => Some s
  | String a p', String b s' =>
      if Ascii.eqb a b then strip_prefix p' s' else None
  | String _ _, EmptyString => None
  end.

Definition startswith (p s : string) : bool :=
  match strip_prefix p s with Some _ => true | None => false end.

(** [p in s] *)
Fixpoint contains (p s : string) : bool :=
  startswith p s ||
  match s with
  | EmptyString => false
  | String _ s' => contains p s'
  end.

(** The longest prefix of [s] whose characters satisfy [p], and the rest. *)
Fixpoint span (p : ascii -> bool) (s : string) : string * string :=
  match s with
  | EmptyString => (EmptyString, EmptyString)
  | String c r =>
      if p c then let '(a, b) := span p r in (String c a, b)
      else (EmptyString, s)
  end.

Definition is_empty (s : string) : bool :=
  match s with EmptyString => true | _ => false end.

(** [s.split()]: the maximal runs of non-space characters, in order. *)
Fixpoint split_aux (cur : string) (s : string) : list string :=
  match s with
  | EmptyString => if is_empty cur then [] else [cur]
  | String c r =>
      if isspace c
      then (if is_empty cur then split_aux EmptyString r
            else cur :: split_aux EmptyString r)
      else split_aux (cur +:+ String c EmptyString) r
  end.

Definition split (s : string) : list string := split_aux EmptyString s.

(** [sum(1 for w in words if w in text)] *)
Definition count_in (words : list string) (text : string) : Z :=
  Z.of_nat (List.length (List.filter (fun w => contains w text) words)).

End Text.

(** ** The subset of [re] used by the score patterns *)

Module Re.
Import Text.

(** The class [[0-9.]]. *)
Definition isnum (c : ascii) : bool := isdigit c || Ascii.eqb c ".".

(** The class [[:\s]]. *)
Definition issep (c : ascii) : bool := Ascii.eqb c ":" || isspace c.

(** [kw[:\s]+([0-9.]+)] matched at the start of [s]; the result is group 1.
    The three parts draw on pairwise disjoint classes, so the greedy runs
    are the only way to match and no backtracking alternative exists. *)
Definition match_labelled (kw s : string) : option string :=
  match strip_prefix kw s with
  | None => None
  | Some r =>
      let '(seps, r1) := span issep r in
      if is_empty seps then None
      else let '(num, _) := span isnum r1 in
           if is_empty num then None else Some num
  end.

(** [([0-9.]+)\s*/\s*den] matched at the start of [s]; [den] is a string of
    digits.  Group 1 is the whole run of [[0-9.]]: a shorter run would have
    to be followed by a space or a slash. *)
Definition match_fraction (den s : string) : option string :=
  let '(num, r) := span isnum s in
  if is_empty num then None
  else let '(_, r1) := span isspace r in
       match r1 with
       | String c r2 =>
           if Ascii.eqb c "/"
           then let '(_, r3) := span isspace r2 in
                if startswith den r3 then Some num else None
           else None
       | EmptyString => None
       end.

(** [re.search]: the match at the leftmost position that has one. *)
Fixpoint search (m : string -> option string) (s : string) : option string :=
  match m s with
  | Some g => Some g
  | None =>
      match s with
      | EmptyString => None
      | String _ s' => search m s'
      end
  end.

End Re.

(** ** [float(...)] on a run of [[0-9.]] and the [.1f] format *)

Module Float.
Import Text.

Definition digit_val (c : ascii) : Z := Z.of_N (N_of_ascii c) - 48.

(** The value of a string of decimal digits, most significant first. *)
Fixpoint digits_val (acc : Z) (s : string) : Z :=
  match s with
  | EmptyString => acc
  | String c r => digits_val (10 * acc + digit_val c) r
  end.

Fixpoint all_digits (s : string) : bool :=
  match s with
  | EmptyString => true
  | String c r => isdigit c && all_digits r
  end.

(** The number written by a non-empty [s] over [[0-9.]]: digits with at
    most one point and at least one digit; anything else is no numeral. *)
Definition numeral (s : string) : option Q :=
  let '(ip, r) := span isdigit s in
  match r with
  | EmptyString => if is_empty ip then None else Some (inject_Z (digits_val 0 ip))
  | String _ fp =>
      if all_digits fp && negb (is_empty ip && is_empty fp)
      then Some (Qdiv (inject_Z (digits_val 0 (ip +:+ fp)))
                      (inject_Z (10 ^ Z.of_nat (String.length fp))))
      else None
  end.

(** Round to the nearest integer, ties to even. *)
Definition round_half_even (q : Q) : Z :=
  let f := Qfloor q in
  let d := (q - inject_Z f)%Q in
  match (d ?= 1 # 2)%Q with
  | Lt => f
  | Gt => f + 1
  | Eq => if Z.even f then f else f + 1
  end.

(** The exponent [e] of [q > 0]: [2^e <= q < 2^(e+1)]. *)
Definition exponent (q : Q) : Z :=
  let e := Z.log2 (Qnum q) - Z.log2 (Zpos (Qden q)) in
  if Qle_bool (2 ^ e) q then e else e - 1.

(** The binary64 number nearest to [q >= 0], ties to even: [q] is rounded to
    a multiple of [2^p], the weight of the last of the 53 bits of its
    significand, which is at least that of the subnormal numbers.  From
    [2^1024 - 2^970] on, where binary64 has its infinity, the value is
    rounded in the same way. *)
Definition binary64 (q : Q) : Q :=
  if Qle_bool q 0 then 0%Q
  else let p := Z.max (exponent q - 52) (-1074) in
       Qred (inject_Z (round_half_even (q / 2 ^ p)) * 2 ^ p).

(** [float(s)] for a non-empty [s] over [[0-9.]]: the conversion of CPython
    is correctly rounded; what is no numeral is a [ValueError]. *)
Definition parse (s : string) : option Q := binary64 <$> numeral s.

Definition float (s : string) : outcome Q :=
  match parse s with
  | Some q => Return q
  | None => Raise (ValueError ("could not convert string to float: '" +:+ s +:+ "'"))
  end.

Definition string_of_nonneg (z : Z) : string :=
  NilZero.string_of_uint (N.to_uint (Z.to_N z)).

(** [str(z)] for an [int]. *)
Definition string_of_int (z : Z) : string :=
  NilZero.string_of_int (Z.to_int z).

(** [f"{q:.1f}"] for [q >= 0]. *)
Definition format_1f (q : Q) : string :=
  let t := round_half_even (q * 10)%Q in
  string_of_nonneg (t / 10) +:+ "." +:+ string_of_nonneg (t mod 10).

End Float.

(** ** [EvaluatorAgent]: the shared score extraction *)

Module EvaluatorAgent.
Import Text Re Float.

Definition patterns : list (string -> option string) :=
  [ match_labelled "score";
    match_labelled "rating";
    match_fraction "10";
    match_fraction "100" ].

(** The loop over [patterns]: group 1 of the first pattern that matches. *)
Fixpoint first_match (ps : list (string -> option string)) (t : string)
  : option string :=
  match ps with
  | [] => None
  | p :: ps' =>
      match search p t with
      | Some g => Some g
      | None => first_match ps' t
      end
  end.

(** The scale normalisation applied to a matched number. *)
Definition normalize (t : string) (score : Q) : Q :=
  if contains "/10" t then (score / 10)%Q
  else if contains "/100" t then (score / 100)%Q
  else if Qle_bool score 1 then score
  else if Qle_bool score 10 then (score / 10)%Q
  else (score / 100)%Q.

Definition positive_keywords : list string :=
  ["good"; "excellent"; "accurate"; "correct"; "comprehensive"].
Definition negative_keywords : list string :=
  ["poor"; "incorrect"; "inaccurate"; "incomplete"; "wrong"].

(** The keyword fallback. *)
Definition keyword_score (text_lower : string) : Q :=
  let positive_count := count_in positive_keywords text_lower in
  let negative_count := count_in negative_keywords text_lower in
  if negative_count <? positive_count then 0.75%Q
  else if positive_count <? negative_count then 0.35%Q
  else 0.55%Q.

Definition _extract_score (evaluation_text : string) : outcome Q :=
  let t := lower evaluation_text in
  match first_match patterns t with
  | Some g => score ← float g; Return (normalize t score)
  | None => Return (keyword_score t)
  end.

End EvaluatorAgent.

(** ** The three scorers *)

(** The dictionary handed to [evaluate_response] by the engine. *)
Record test_case_dict : Type := {
  td_input_text : string;
  td_expected_output : option string;
  td_category : string;
  td_evaluation_criteria : option string
}.

(** The dictionary returned by [evaluate_response]; the keys ["category"]
    and ["evaluator"] are constants of each scorer and are not read by the
    engine. *)
Record evaluation : Type := {
  ev_score : Q;
  ev_feedback : string
}.

Definition nl : string := String (ascii_of_N 10) EmptyString.

(** [a / b] on two [int]s. *)
Definition true_div (a b : Z) : outcome Q :=
  if b =? 0 then Raise (ZeroDivisionError "division by zero")
  else Return (Qdiv (inject_Z a) (inject_Z b)).

(** [len(set(a) & set(b))] and [len(set(a))] for two lists of words. *)
Definition words_set (ws : list string) : gset string := list_to_set ws.
Definition set_len (s : gset string) : Z := Z.of_nat (size s).

Definition Qlt_bool (a b : Q) : bool := negb (Qle_bool b a).
Definition Qmin (a b : Q) : Q := if Qle_bool a b then a else b.

Module SummarizationEvaluator.
Import Text Float.

Definition _mock_evaluation (test_case : test_case_dict) (model_response : string)
  : outcome string :=
  let original_length := len (td_input_text test_case) in
  let summary_length := len model_response in
  compression_ratio ← true_div summary_length original_length;
  let '(score, feedback) :=
    if Qlt_bool compression_ratio 0.2 then
      (8.5%Q, "Excellent compression ratio. The summary effectively condenses the original text while maintaining key information.")
    else if Qlt_bool compression_ratio 0.4 then
      (7.5%Q, "Good summarization with appropriate length reduction. Most key points are captured.")
    else
      (6.0%Q, "Summary could be more concise. Consider reducing length while preserving essential information.") in
  let original_words := words_set (split (lower (td_input_text test_case))) in
  let summary_words := words_set (split (lower model_response)) in
  overlap ← true_div (set_len (original_words ∩ summary_words)) (set_len original_words);
  let '(score, feedback) :=
    if Qlt_bool 0.3 overlap
    then ((score + 1.0)%Q, feedback +:+ " Good preservation of key terminology.")
    else (score, feedback) in
  Return ("Score: " +:+ format_1f (Qmin score 10.0) +:+ nl +:+ "Feedback: " +:+ feedback).

Definition evaluate_response (test_case : test_case_dict) (model_response : string)
  : outcome evaluation :=
  ev ← _mock_evaluation test_case model_response;
  score ← EvaluatorAgent._extract_score ev;
  Return {| ev_score := score; ev_feedback := ev |}.

End SummarizationEvaluator.

Module QAEvaluator.
Import Text Float.

Definition _mock_evaluation (test_case : test_case_dict) (model_response : string)
  : outcome string :=
  expected ←
    match td_expected_output test_case with
    | Some e => Return (lower e)
    | None => Raise (AttributeError "'NoneType' object has no attribute 'lower'")
    end;
  let response := lower model_response in
  '(score, feedback) ←
    (if negb (is_empty expected) then
       let expected_words := words_set (split expected) in
       let response_words := words_set (split response) in
       overlap ← true_div (set_len (expected_words ∩ response_words))
                          (set_len expected_words);
       Return
         (if Qlt_bool 0.7 overlap then
            (9.0%Q, "Excellent accuracy. The answer closely matches expected content with high keyword overlap.")
          else if Qlt_bool 0.5 overlap then
            (7.5%Q, "Good accuracy. Most key information is present with reasonable alignment to expected answer.")
          else
            (6.0%Q, "Moderate accuracy. Some expected information is missing or incorrectly stated."))
     else
       Return
         (if (50 <? len response) && negb (contains "?" response) then
            (7.0%Q, "Reasonable response length and structure. Answer appears complete and relevant.")
          else
            (5.0%Q, "Response may be too brief or unclear. Consider providing more detailed information.")));
  Return ("Score: " +:+ format_1f score +:+ nl +:+ "Feedback: " +:+ feedback).

Definition evaluate_response (test_case : test_case_dict) (model_response : string)
  : outcome evaluation :=
  ev ← _mock_evaluation test_case model_response;
  score ← EvaluatorAgent._extract_score ev;
  Return {| ev_score := score; ev_feedback := ev |}.

End QAEvaluator.

Module ReasoningEvaluator.
Import Text Float.

Definition structure_indicators : list string :=
  ["step"; "first"; "second"; "therefore"; "because"; "since"; "conclusion"].
Definition logical_words : list string :=
  ["if"; "then"; "and"; "or"; "not"; "all"; "some"; "therefore"].

Definition _mock_evaluation (test_case : test_case_dict) (model_response : string)
  : string :=
  let response := lower model_response in
  let structure_count := count_in structure_indicators response in
  let logical_count := count_in logical_words response in
  let score := 5.0%Q in
  let '(score, feedback) :=
    if 3 <=? structure_count then
      ((score + 2.0)%Q, "Well-structured reasoning with clear step-by-step analysis.")
    else if 1 <=? structure_count then
      ((score + 1.0)%Q, "Some structure present in the reasoning process.")
    else
      (score, "Reasoning could benefit from more structured approach.") in
  let '(score, feedback) :=
    if 5 <=? logical_count then
      ((score + 2.0)%Q, feedback +:+ " Strong use of logical connectives and formal reasoning.")
    else if 2 <=? logical_count then
      ((score + 1.0)%Q, feedback +:+ " Adequate use of logical language.")
    else (score, feedback) in
  let '(score, feedback) :=
    if 200 <? len response
    then ((score + 1.0)%Q, feedback +:+ " Comprehensive explanation provided.")
    else (score, feedback) in
  "Score: " +:+ format_1f (Qmin score 10.0) +:+ nl +:+ "Feedback: " +:+ feedback.

Definition evaluate_response (test_case : test_case_dict) (model_response : string)
  : outcome evaluation :=
  let ev := _mock_evaluation test_case model_response in
  score ← EvaluatorAgent._extract_score ev;
  Return {| ev_score := score; ev_feedback := ev |}.

End ReasoningEvaluator.

(** ** Providers *)

(** [LLMResponse].  [content] is a [str], except in a response built from a
    remote reply that carries no text, where it is [None]. *)
Record LLMResponse : Type := {
  content : option string;
  tokens_used : Z;
  response_time_ms : Q;
  cost_usd : Q;
  model_name : string;
  error : option string
}.

(** The configuration dictionary.  It is read at five fixed keys only; a
    field is [None] when the key is absent.  The value at
    ["cost_per_1k_tokens"] is a number or [None]. *)
Record model_config : Type := {
  cfg_name : option string;
  cfg_provider : option string;
  cfg_model_id : option string;
  cfg_cost_per_1k_tokens : option (option Q);
  cfg_max_tokens : option Z
}.

Inductive provider_class : Type :=
  | ClsOpenAI
  | ClsAnthropic
  | ClsMock.

(** A provider instance, as set up by [BaseLLMProvider.__init__]. *)
Record provider : Type := {
  p_class : provider_class;
  p_name : string;
  p_model_id : string;
  p_cost_per_1k_tokens : option Q;
  p_max_tokens : Z
}.

(** What the outside world decides during one call of [generate_completion]:
    the environment variables, the remote API, the clock and [random]. *)
Record call_env : Type := {
  env_openai_key_is_dummy : bool;
  env_anthropic_key_is_dummy : bool;
  (** the remote call: the content of the reply, a text or [None], and its
      total token count; or what the call, or the reading of the reply,
      raised *)
  env_api : outcome (option string * Z);
  (** [(time.time() - start_time) * 1000] when the response is built *)
  env_elapsed_ms : Q;
  (** the draw of [random.uniform] *)
  env_uniform : Q;
  (** the index drawn by [random.choice] among three templates *)
  env_choice : nat
}.

(** Python truthiness of an optional string: [None] and the empty string
    are false. *)
Definition truthy (o : option string) : bool :=
  match o with
  | Some s => negb (Text.is_empty s)
  | None => false
  end.

Module BaseLLMProvider.

Definition __init__ (cls : provider_class) (model_config : model_config) : provider :=
  {| p_class := cls;
     p_name := default "unknown" (cfg_name model_config);
     p_model_id := default "unknown" (cfg_model_id model_config);
     p_cost_per_1k_tokens := default (Some 0.0%Q) (cfg_cost_per_1k_tokens model_config);
     p_max_tokens := default 4096 (cfg_max_tokens model_config) |}.

(** [(tokens_used / 1000) * self.cost_per_1k_tokens]; the argument is a
    number, given here as a rational.  The product of a float and [None] is
    a [TypeError]. *)
Definition calculate_cost (self : provider) (tokens_used : Q) : outcome Q :=
  match p_cost_per_1k_tokens self with
  | Some cost_per_1k_tokens => Return ((tokens_used / 1000) * cost_per_1k_tokens)%Q
  | None =>
      Raise (TypeError "unsupported operand type(s) for *: 'float' and 'NoneType'")
  end.

Definition _create_response (self : provider) (env : call_env)
    (content : option string) (tokens_used : Z) (error : option string)
  : outcome LLMResponse :=
  let response_time := env_elapsed_ms env in
  cost ← (if negb (truthy error)
          then calculate_cost self (inject_Z tokens_used) else Return 0.0%Q);
  Return {| content := content; tokens_used := tokens_used;
            response_time_ms := response_time; cost_usd := cost;
            model_name := p_name self; error := error |}.

End BaseLLMProvider.

Module OpenAIProvider.
Import Text BaseLLMProvider.

Definition _create_mock_response (self : provider) (env : call_env) (prompt : string)
  : outcome LLMResponse :=
  let content :=
    if contains "summarize" (lower prompt) || contains "summary" (lower prompt) then
      "This is a mock summary of the provided text. The key points include the main topics discussed and their relevance to the overall context."
    else if contains "?" prompt then
      "This is a mock answer to your question. The response addresses the key aspects of your inquiry with relevant information."
    else if contains "reasoning" (lower prompt) || contains "logic" (lower prompt) then
      "This is a mock reasoning response. Step 1: Analyze the premises. Step 2: Apply logical rules. Step 3: Draw conclusions based on the evidence."
    else
      "This is a mock response from " +:+ p_name self +:+ ". The input was processed and this is the generated output based on the prompt." in
  let tokens_used := len (prompt +:+ content) / 4 in
  let response_time := (env_elapsed_ms env + env_uniform env)%Q in
  cost ← calculate_cost self (inject_Z tokens_used);
  Return {| content := Some content; tokens_used := tokens_used;
            response_time_ms := response_time; cost_usd := cost;
            model_name := p_name self; error := None |}.

(** The body of [try] and the handler of [except Exception as e]. *)
Definition generate_completion (self : provider) (env : call_env) (prompt : string)
  : outcome LLMResponse :=
  let attempt :=
    if env_openai_key_is_dummy env then _create_mock_response self env prompt
    else '(content, tokens_used) ← env_api env;
         _create_response self env content tokens_used None in
  match attempt with
  | Return response => Return response
  | Raise e =>
      let error_msg := "OpenAI API error: " +:+ str_exn e in
      _create_response self env (Some "") 0 (Some error_msg)
  end.

(** [len(text) // 4] *)
Definition estimate_tokens (text : string) : Z := len text / 4.

End OpenAIProvider.

(** The character U+2022 of the Anthropic templates lies outside the range
    of [ascii]; it is written as the single character 149, which, like
    U+2022, is neither a space nor a digit nor a cased letter. *)
Definition bullet : string := String (ascii_of_N 149) EmptyString.

Module AnthropicProvider.
Import Text BaseLLMProvider.

Definition _create_mock_response (self : provider) (env : call_env) (prompt : string)
  : outcome LLMResponse :=
  let content :=
    if contains "summarize" (lower prompt) || contains "summary" (lower prompt) then
      "Here's a comprehensive summary of the provided text:" +:+ nl +:+ nl +:+
      "Key Points:" +:+ nl +:+
      bullet +:+ " Primary topic areas covered in the original content" +:+ nl +:+
      bullet +:+ " Significant developments and their implications" +:+ nl +:+
      bullet +:+ " Important relationships between different concepts" +:+ nl +:+ nl +:+
      "This summary maintains the essential information while condensing the content for clarity."
    else if contains "?" prompt then
      "I'll address your question systematically:" +:+ nl +:+ nl +:+
      "The answer involves several key considerations:" +:+ nl +:+
      "1. Direct response to your specific query" +:+ nl +:+
      "2. Relevant context and background information" +:+ nl +:+
      "3. Practical implications of this information" +:+ nl +:+ nl +:+
      "This approach ensures a thorough and helpful response to your inquiry."
    else if contains "reasoning" (lower prompt) || contains "logic" (lower prompt) then
      "Let me work through this logical problem step by step:" +:+ nl +:+ nl +:+
      "Analysis:" +:+ nl +:+
      "1. First, I'll identify the given premises" +:+ nl +:+
      "2. Then, I'll apply relevant logical principles" +:+ nl +:+
      "3. Finally, I'll draw valid conclusions" +:+ nl +:+ nl +:+
      "Reasoning process:" +:+ nl +:+
      "- Examining the logical structure" +:+ nl +:+
      "- Identifying valid inferences" +:+ nl +:+
      "- Ensuring sound conclusions" +:+ nl +:+ nl +:+
      "Therefore, based on this systematic analysis, the logical conclusion follows from the given premises."
    else
      "I understand you're looking for assistance with this request. Let me provide a thoughtful response:" +:+ nl +:+ nl +:+
      p_name self +:+ " is designed to offer helpful, harmless, and honest responses. Based on your input, I'll provide relevant information while maintaining accuracy and clarity." +:+ nl +:+ nl +:+
      "The response addresses your specific needs while following best practices for AI assistance." in
  (** [len(prompt + content) // 3.5], a float with an integral value *)
  let tokens_used := inject_Z (Qfloor (inject_Z (len (prompt +:+ content)) / 3.5)%Q) in
  let response_time := (env_elapsed_ms env + env_uniform env)%Q in
  cost ← calculate_cost self tokens_used;
  Return {| content := Some content; tokens_used := Qfloor tokens_used;
            response_time_ms := response_time; cost_usd := cost;
            model_name := p_name self; error := None |}.

(** The body of [try] and the handler of [except Exception as e]. *)
Definition generate_completion (self : provider) (env : call_env) (prompt : string)
  : outcome LLMResponse :=
  let attempt :=
    if env_anthropic_key_is_dummy env then _create_mock_response self env prompt
    else '(content, tokens_used) ← env_api env;
         _create_response self env content tokens_used None in
  match attempt with
  | Return response => Return response
  | Raise e =>
      let error_msg := "Anthropic API error: " +:+ str_exn e in
      _create_response self env (Some "") 0 (Some error_msg)
  end.

(** [int(len(text) // 3.5)] *)
Definition estimate_tokens (text : string) : Z :=
  Qfloor (inject_Z (Qfloor (inject_Z (len text) / 3.5)%Q)).

End AnthropicProvider.

Module MockProvider.
Import Text BaseLLMProvider.

(** [random.choice(templates)] with the drawn index. *)
Definition choice (env : call_env) (templates : list string) : string :=
  nth (env_choice env mod 3)%nat templates "".

Definition _mock_summarization_response (env : call_env) (prompt : string) : string :=
  choice env
    [ "The main points of the text include: key developments in the field, important trends and patterns, and significant implications for stakeholders.";
      "Summary: The content discusses several critical aspects including primary findings, methodological approaches, and practical applications.";
      "Key takeaways from the text: major themes, supporting evidence, and conclusions drawn from the analysis." ].

Definition _mock_qa_response (env : call_env) (prompt : string) : string :=
  choice env
    [ "Based on the available information, the answer addresses the specific question while providing relevant context and supporting details.";
      "The response to your question involves multiple factors that contribute to a comprehensive understanding of the topic.";
      "To answer your question: the key information indicates specific findings that directly relate to your inquiry." ].

Definition _mock_reasoning_response (prompt : string) : string :=
  "Following logical analysis:" +:+ nl +:+ nl +:+
  "Step 1: Examine the given premises and identify key relationships" +:+ nl +:+
  "Step 2: Apply relevant logical rules and principles" +:+ nl +:+
  "Step 3: Draw valid conclusions based on the established premises" +:+ nl +:+ nl +:+
  "Therefore, the logical conclusion follows from the systematic application of reasoning principles to the given information.".

Definition _mock_general_response (self : provider) (prompt : string) : string :=
  "This is a mock response from " +:+ p_name self +:+
  ". The system has processed your input and generated this sample output to demonstrate functionality. In a real implementation, this would contain the actual model response.".

Definition _generate_mock_content (self : provider) (env : call_env) (prompt : string)
  : string :=
  let prompt_lower := lower prompt in
  if existsb (fun word => contains word prompt_lower) ["summarize"; "summary"] then
    _mock_summarization_response env prompt
  else if contains "?" prompt then
    _mock_qa_response env prompt
  else if existsb (fun word => contains word prompt_lower)
            ["reasoning"; "logic"; "conclude"] then
    _mock_reasoning_response prompt
  else _mock_general_response self prompt.

Definition estimate_tokens (text : string) : Z := len text / 4.

Definition generate_completion (self : provider) (env : call_env) (prompt : string)
  : outcome LLMResponse :=
  let content := _generate_mock_content self env prompt in
  let tokens_used := estimate_tokens (prompt +:+ content) in
  _create_response self env (Some content) tokens_used None.

End MockProvider.

(** [provider.generate_completion(prompt)], dispatched on the class. *)
Definition generate_completion (self : provider) (env : call_env) (prompt : string)
  : outcome LLMResponse :=
  match p_class self with
  | ClsOpenAI => OpenAIProvider.generate_completion self env prompt
  | ClsAnthropic => AnthropicProvider.generate_completion self env prompt
  | ClsMock => MockProvider.generate_completion self env prompt
  end.

(** [provider.estimate_tokens(text)], dispatched on the class. *)
Definition estimate_tokens (self : provider) (text : string) : Z :=
  match p_class self with
  | ClsOpenAI => OpenAIProvider.estimate_tokens text
  | ClsAnthropic => AnthropicProvider.estimate_tokens text
  | ClsMock => MockProvider.estimate_tokens text
  end.

Module LLMProviderFactory.

(** The class attribute [_providers] as the module defines it. *)
Definition _providers : gmap string provider_class :=
  {[ "openai" := ClsOpenAI; "anthropic" := ClsAnthropic; "mock" := ClsMock ]}.

(** [register_provider]: [cls._providers[name] = provider_class]. *)
Definition register_provider (name : string) (cls : provider_class)
    (providers : gmap string provider_class) : gmap string provider_class :=
  <[ name := cls ]> providers.

(** [create_provider], with the current value of [_providers]. *)
Definition create_provider (providers : gmap string provider_class)
    (model_config : model_config) : outcome provider :=
  let provider_type := default "mock" (cfg_provider model_config) in
  match providers !! provider_type with
  | None => Raise (ValueError ("Unknown provider type: " +:+ provider_type))
  | Some cls => Return (BaseLLMProvider.__init__ cls model_config)
  end.

End LLMProviderFactory.

(** ** The database rows and the session *)

Record EvaluationRun : Type := {
  run_id : Z;
  run_name : string;
  run_description : string;
  run_status : string
}.

(** [cost_per_1k_tokens] is the one nullable column that the engine reads
    from a model and computes with. *)
Record LLMModel : Type := {
  m_id : Z;
  m_name : string;
  m_provider : string;
  m_model_id : string;
  m_cost_per_1k_tokens : option Q;
  m_max_tokens : Z;
  m_is_active : bool
}.

Record TestCase : Type := {
  tc_id : Z;
  tc_name : string;
  tc_category : string;
  tc_input_text : string;
  tc_expected_output : option string;
  tc_evaluation_criteria : option string
}.

Record EvaluationResult : Type := {
  r_evaluation_run_id : Z;
  r_model_id : Z;
  r_test_case_id : Z;
  r_model_output : option string;
  r_accuracy_score : Q;
  r_response_time_ms : Q;
  r_tokens_used : Z;
  r_cost_usd : Q;
  r_error_message : option string;
  r_agent_feedback : option string
}.

(** [overall_rank] first receives the weighted score, a float, and then the
    final position; it is a rational here. *)
Record PerformanceMetrics : Type := {
  pm_evaluation_run_id : Z;
  pm_model_id : Z;
  pm_category : string;
  pm_avg_accuracy : Q;
  pm_avg_response_time : Q;
  pm_total_cost : Q;
  pm_total_tokens : Z;
  pm_success_rate : Q;
  pm_accuracy_rank : option Z;
  pm_speed_rank : option Z;
  pm_cost_rank : option Z;
  pm_overall_rank : option Q
}.

(** A session of [SessionLocal = sessionmaker(autocommit=False,
    autoflush=False, bind=engine)].  The tables hold the rows that were
    flushed; [db.add] puts an object in the pending list, [db.commit]
    flushes the pending objects, and, [autoflush] being off, [db.query]
    reads the tables only.  [query(...).all()] returns the rows in the order
    of insertion, and a row returned by a query is identified by its
    position in its table. *)
Record Session : Type := {
  db_runs : list EvaluationRun;
  db_models : list LLMModel;
  db_test_cases : list TestCase;
  db_results : list EvaluationResult;
  db_metrics : list PerformanceMetrics;
  db_pending_results : list EvaluationResult;
  db_pending_metrics : list PerformanceMetrics
}.

Module Db.

Definition add_result (r : EvaluationResult) (db : Session) : Session :=
  {| db_runs := db_runs db; db_models := db_models db; db_test_cases := db_test_cases db;
     db_results := db_results db; db_metrics := db_metrics db;
     db_pending_results := db_pending_results db ++ [r];
     db_pending_metrics := db_pending_metrics db |}.

Definition add_metric (m : PerformanceMetrics) (db : Session) : Session :=
  {| db_runs := db_runs db; db_models := db_models db; db_test_cases := db_test_cases db;
     db_results := db_results db; db_metrics := db_metrics db;
     db_pending_results := db_pending_results db;
     db_pending_metrics := db_pending_metrics db ++ [m] |}.

Definition commit (db : Session) : Session :=
  {| db_runs := db_runs db; db_models := db_models db; db_test_cases := db_test_cases db;
     db_results := db_results db ++ db_pending_results db;
     db_metrics := db_metrics db ++ db_pending_metrics db;
     db_pending_results := []; db_pending_metrics := [] |}.

Definition set_runs (rs : list EvaluationRun) (db : Session) : Session :=
  {| db_runs := rs; db_models := db_models db; db_test_cases := db_test_cases db;
     db_results := db_results db; db_metrics := db_metrics db;
     db_pending_results := db_pending_results db;
     db_pending_metrics := db_pending_metrics db |}.

Definition set_metrics (ms : list PerformanceMetrics) (db : Session) : Session :=
  {| db_runs := db_runs db; db_models := db_models db; db_test_cases := db_test_cases db;
     db_results := db_results db; db_metrics := ms;
     db_pending_results := db_pending_results db;
     db_pending_metrics := db_pending_metrics db |}.

(** [SessionLocal()]: a new session on the tables, with nothing pending. *)
Definition SessionLocal (db : Session) : Session :=
  {| db_runs := db_runs db; db_models := db_models db; db_test_cases := db_test_cases db;
     db_results := db_results db; db_metrics := db_metrics db;
     db_pending_results := []; db_pending_metrics := [] |}.

(** The key given by the database to a new run: one more than the
    largest key in the table. *)
Definition next_run_id (db : Session) : Z :=
  1 + foldr Z.max 0 (run_id <$> db_runs db).

(** [eval_run.status = status], followed by [db.commit()]. *)
Definition set_run_status (id : Z) (status : string) (db : Session) : Session :=
  commit (set_runs
    ((fun r => if run_id r =? id
               then {| run_id := run_id r; run_name := run_name r;
                       run_description := run_description r;
                       run_status := status |}
               else r) <$> db_runs db) db).

(** [db.query(EvaluationResult).filter(evaluation_run_id == id).all()] *)
Definition query_results (id : Z) (db : Session) : list EvaluationResult :=
  List.filter (fun r => r_evaluation_run_id r =? id) (db_results db).

(** [db.query(PerformanceMetrics).filter(evaluation_run_id == id).all()],
    as positions in the table. *)
Definition query_metrics (id : Z) (db : Session) : list nat :=
  List.filter
    (fun i => match db_metrics db !! i with
              | Some m => pm_evaluation_run_id m =? id
              | None => false
              end)
    (seq 0 (length (db_metrics db))).

Definition in_ (x : Z) (l : list Z) : bool := existsb (Z.eqb x) l.
Definition in_str (x : string) (l : list string) : bool := existsb (String.eqb x) l.

(** [db.query(LLMModel).filter(LLMModel.id.in_(model_ids),
    LLMModel.is_active == True).all()] *)
Definition query_models (model_ids : list Z) (db : Session) : list LLMModel :=
  List.filter (fun m => in_ (m_id m) model_ids && m_is_active m) (db_models db).

(** The query on [TestCase], with the filters that were put on it. *)
Definition query_test_cases (test_case_ids : option (list Z))
    (categories : option (list string)) (db : Session) : list TestCase :=
  let query := db_test_cases db in
  let query := match test_case_ids with
               | Some ids => List.filter (fun tc => in_ (tc_id tc) ids) query
               | None => query
               end in
  match categories with
  | Some cs => List.filter (fun tc => in_str (tc_category tc) cs) query
  | None => query
  end.

(** [result.test_case]: the row of [test_cases] with the key. *)
Definition test_case_of (r : EvaluationResult) (db : Session) : option TestCase :=
  List.find (fun tc => tc_id tc =? r_test_case_id r) (db_test_cases db).

(** [result.model] and [metric.model]: the row of [llm_models] with the
    key. *)
Definition model_of (model_id : Z) (db : Session) : option LLMModel :=
  List.find (fun m => m_id m =? model_id) (db_models db).

(** [db.query(EvaluationRun).filter(EvaluationRun.id == id).first()] *)
Definition query_run (id : Z) (db : Session) : option EvaluationRun :=
  List.find (fun r => run_id r =? id) (db_runs db).

End Db.

(** ** The evaluation engine *)

(** Python [sorted] is stable and compares with [<] only.  [insert_by]
    places an element, which precedes the others in the input, in front of
    the first element that need not stay before it. *)
Section Sorted.
Context {A : Type} (stays_before : A -> A -> bool).

Fixpoint insert_by (x : A) (l : list A) : list A :=
  match l with
  | [] => [x]
  | y :: l' => if stays_before y x then y :: insert_by x l' else x :: l
  end.

Definition sort_by (l : list A) : list A := foldr insert_by [] l.
End Sorted.

(** [sorted(l, key=key)] and [sorted(l, key=key, reverse=True)] *)
Definition sorted {A} (key : A -> Q) (l : list A) : list A :=
  sort_by (fun y x => Qlt_bool (key y) (key x)) l.
Definition sorted_reverse {A} (key : A -> Q) (l : list A) : list A :=
  sort_by (fun y x => Qlt_bool (key x) (key y)) l.

(** [sum(l)] *)
Definition Qsum (l : list Q) : Q := foldl Qplus 0%Q l.
Definition Zsum (l : list Z) : Z := foldl Z.add 0 l.

(** The value of a [dict] that keeps the order of insertion. *)
Section Dict.
Context {K V : Type} (eqb : K -> K -> bool).

(** [if k not in d: d[k] = init] followed by [d[k] = f(d[k])] *)
Fixpoint dict_update (k : K) (init : V) (f : V -> V) (d : list (K * V))
  : list (K * V) :=
  match d with
  | [] => [(k, f init)]
  | (k', v) :: d' =>
      if eqb k k' then (k', f v) :: d'
      else (k', v) :: dict_update k init f d'
  end.

Fixpoint dict_get (k : K) (d : list (K * V)) : option V :=
  match d with
  | [] => None
  | (k', v) :: d' => if eqb k k' then Some v else dict_get k d'
  end.
End Dict.

Record stats : Type := {
  scores : list Q;
  response_times : list Q;
  costs : list Q;
  tokens : list Z;
  success_count : Z;
  total_count : Z
}.

Record summary : Type := {
  evaluation_id : Z;
  status : string;
  total_results : Z;
  models_evaluated : Z;
  test_cases_run : Z
}.

Inductive evaluator : Type :=
  | Summarization
  | QA
  | Reasoning.

(** The dictionaries returned by [get_evaluation_results]. *)
Record formatted_result : Type := {
  fr_model_name : string;
  fr_test_case_name : string;
  fr_category : string;
  fr_accuracy_score : Q;
  fr_response_time_ms : Q;
  fr_cost_usd : Q;
  fr_tokens_used : Z;
  fr_model_output : option string;
  fr_agent_feedback : option string;
  fr_error : option string
}.

Record formatted_metric : Type := {
  fm_model_name : string;
  fm_category : string;
  fm_avg_accuracy : Q;
  fm_avg_response_time : Q;
  fm_total_cost : Q;
  fm_success_rate : Q;
  fm_accuracy_rank : option Z;
  fm_speed_rank : option Z;
  fm_cost_rank : option Z;
  fm_overall_rank : option Q
}.

Record evaluation_run_dict : Type := {
  erd_id : Z;
  erd_name : string;
  erd_description : string;
  erd_status : string;
  erd_created_at : string
}.

(** The lists [list(set(...))] of the summary have no specified order;
    they are kept as sets. *)
Record results_summary : Type := {
  rs_total_results : Z;
  rs_successful_results : Z;
  rs_categories : gset string;
  rs_models : gset string
}.

Record evaluation_report : Type := {
  rep_evaluation_run : evaluation_run_dict;
  rep_results : list formatted_result;
  rep_metrics : list formatted_metric;
  rep_summary : results_summary
}.

Module EvaluationEngine.

(** [self.evaluators] *)
Definition evaluators : gmap string evaluator :=
  {[ "summarization" := Summarization; "qa" := QA; "reasoning" := Reasoning ]}.

(** [evaluator.evaluate_response(test_case, llm_response.content)].  The
    scorers are written for a [str].  Given [None], each raises at its first
    use of the response: [len(model_response)] in the summarization scorer,
    [model_response.lower()] in the two others; in the question scorer
    [expected_output.lower()] comes first and raises the same error. *)
Definition evaluate_response (ev : evaluator) (test_case : test_case_dict)
    (model_response : option string) : outcome evaluation :=
  match model_response, ev with
  | Some model_response, Summarization =>
      SummarizationEvaluator.evaluate_response test_case model_response
  | Some model_response, QA =>
      QAEvaluator.evaluate_response test_case model_response
  | Some model_response, Reasoning =>
      ReasoningEvaluator.evaluate_response test_case model_response
  | None, Summarization =>
      Raise (TypeError "object of type 'NoneType' has no len()")
  | None, (QA | Reasoning) =>
      Raise (AttributeError "'NoneType' object has no attribute 'lower'")
  end.

(** The part of [_evaluate_single_case] before the result is stored. *)
Definition evaluate_pair (providers : gmap string provider_class) (env : call_env)
    (eval_run_id : Z) (model : LLMModel) (test_case : TestCase)
  : outcome EvaluationResult :=
  let model_config :=
    {| cfg_name := Some (m_name model);
       cfg_provider := Some (m_provider model);
       cfg_model_id := Some (m_model_id model);
       cfg_cost_per_1k_tokens := Some (m_cost_per_1k_tokens model);
       cfg_max_tokens := Some (m_max_tokens model) |} in
  provider ← LLMProviderFactory.create_provider providers model_config;
  llm_response ← generate_completion provider env (tc_input_text test_case);
  evaluator ←
    match evaluators !! tc_category test_case with
    | Some ev => Return ev
    | None => Raise (ValueError ("No evaluator found for category: "
                                 +:+ tc_category test_case))
    end;
  evaluation ← evaluate_response evaluator
    {| td_input_text := tc_input_text test_case;
       td_expected_output := tc_expected_output test_case;
       td_category := tc_category test_case;
       td_evaluation_criteria := tc_evaluation_criteria test_case |}
    (content llm_response);
  Return
    {| r_evaluation_run_id := eval_run_id;
       r_model_id := m_id model;
       r_test_case_id := tc_id test_case;
       r_model_output := content llm_response;
       r_accuracy_score := ev_score evaluation;
       r_response_time_ms := response_time_ms llm_response;
       r_tokens_used := tokens_used llm_response;
       r_cost_usd := cost_usd llm_response;
       r_error_message := error llm_response;
       r_agent_feedback := Some (ev_feedback evaluation) |}.

(** [_evaluate_single_case]: the result is added and committed. *)
Definition _evaluate_single_case (providers : gmap string provider_class)
    (env : call_env) (eval_run_id : Z) (model : LLMModel) (test_case : TestCase)
    (db : Session) : Session * outcome EvaluationResult :=
  match evaluate_pair providers env eval_run_id model test_case with
  | Return result => (Db.commit (Db.add_result result db), Return result)
  | Raise e => (db, Raise e)
  end.

(** The row written by the [except] branch of the loop. *)
Definition error_result (eval_run_id : Z) (model : LLMModel) (test_case : TestCase)
    (e : exn) : EvaluationResult :=
  {| r_evaluation_run_id := eval_run_id;
     r_model_id := m_id model;
     r_test_case_id := tc_id test_case;
     r_model_output := Some "";
     r_accuracy_score := 0.0%Q;
     r_response_time_ms := 0.0%Q;
     r_tokens_used := 0;
     r_cost_usd := 0.0%Q;
     r_error_message := Some (str_exn e);
     r_agent_feedback := None |}.

(** The body of the two nested loops, for one pair. *)
Definition attempt (providers : gmap string provider_class)
    (world : Z -> Z -> call_env) (eval_run_id : Z) (model : LLMModel)
    (st : Session * list EvaluationResult) (test_case : TestCase)
  : Session * list EvaluationResult :=
  let '(db, all_results) := st in
  match _evaluate_single_case providers (world (m_id model) (tc_id test_case))
          eval_run_id model test_case db with
  | (db', Return result) => (db', all_results ++ [result])
  | (db', Raise e) =>
      let r := error_result eval_run_id model test_case e in
      (Db.add_result r db', all_results ++ [r])
  end.

Definition run_pairs (providers : gmap string provider_class)
    (world : Z -> Z -> call_env) (eval_run_id : Z)
    (models : list LLMModel) (test_cases : list TestCase)
    (st : Session * list EvaluationResult) : Session * list EvaluationResult :=
  foldl (fun st model => foldl (attempt providers world eval_run_id model) st test_cases)
        st models.

(** *** Aggregation *)

Definition empty_stats : stats :=
  {| scores := []; response_times := []; costs := []; tokens := [];
     success_count := 0; total_count := 0 |}.

Definition key_eqb (a b : Z * string) : bool :=
  (a.1 =? b.1) && String.eqb a.2 b.2.

(** The body of the grouping loop once [stats] is the entry of the key. *)
Definition record_result (result : EvaluationResult) (st : stats) : stats :=
  if negb (truthy (r_error_message result)) then
    {| scores := scores st ++ [r_accuracy_score result];
       response_times := response_times st ++ [r_response_time_ms result];
       costs := costs st ++ [r_cost_usd result];
       tokens := tokens st ++ [r_tokens_used result];
       success_count := success_count st + 1;
       total_count := total_count st + 1 |}
  else
    {| scores := scores st; response_times := response_times st;
       costs := costs st; tokens := tokens st;
       success_count := success_count st;
       total_count := total_count st + 1 |}.

(** The grouping loop; [result.test_case.category] raises when the
    relationship is empty. *)
Fixpoint group_results (db : Session) (results : list EvaluationResult)
    (model_category_stats : list ((Z * string) * stats))
  : outcome (list ((Z * string) * stats)) :=
  match results with
  | [] => Return model_category_stats
  | result :: rest =>
      match Db.test_case_of result db with
      | None => Raise (AttributeError "'NoneType' object has no attribute 'category'")
      | Some tc =>
          group_results db rest
            (dict_update key_eqb (r_model_id result, tc_category tc)
               empty_stats (record_result result) model_category_stats)
      end
  end.

Definition Zlen {A} (l : list A) : Z := Z.of_nat (length l).

Definition new_metric (eval_run_id model_id : Z) (category : string)
    (avg_accuracy avg_response_time total_cost : Q) (total_tokens : Z)
    (success_rate : Q) : PerformanceMetrics :=
  {| pm_evaluation_run_id := eval_run_id; pm_model_id := model_id;
     pm_category := category; pm_avg_accuracy := avg_accuracy;
     pm_avg_response_time := avg_response_time; pm_total_cost := total_cost;
     pm_total_tokens := total_tokens; pm_success_rate := success_rate;
     pm_accuracy_rank := None; pm_speed_rank := None; pm_cost_rank := None;
     pm_overall_rank := None |}.

(** The metric of one [(model_id, category)] group.  [total_count] is at
    least 1 in every entry, the entry being created by its first result. *)
Definition group_metric (eval_run_id : Z) (g : (Z * string) * stats)
  : PerformanceMetrics :=
  let '((model_id, category), st) := g in
  let '(avg_accuracy, avg_response_time, total_cost, total_tokens) :=
    match scores st with
    | _ :: _ =>
        ((Qsum (scores st) / inject_Z (Zlen (scores st)))%Q,
         (Qsum (response_times st) / inject_Z (Zlen (response_times st)))%Q,
         Qsum (costs st), Zsum (tokens st))
    | [] => (0.0%Q, 0.0%Q, 0.0%Q, 0)
    end in
  let success_rate := (inject_Z (success_count st) / inject_Z (total_count st))%Q in
  new_metric eval_run_id model_id category avg_accuracy avg_response_time
    total_cost total_tokens success_rate.

(** The [overall] metric of one model, when it has results. *)
Definition overall_metric (eval_run_id : Z) (results : list EvaluationResult)
    (model : LLMModel) : option PerformanceMetrics :=
  let model_results := List.filter (fun r => r_model_id r =? m_id model) results in
  match model_results with
  | [] => None
  | _ :: _ =>
      let successful_results :=
        List.filter (fun r => negb (truthy (r_error_message r))) model_results in
      let '(avg_accuracy, avg_response_time, total_cost, total_tokens) :=
        match successful_results with
        | _ :: _ =>
            ((Qsum (map r_accuracy_score successful_results)
              / inject_Z (Zlen successful_results))%Q,
             (Qsum (map r_response_time_ms successful_results)
              / inject_Z (Zlen successful_results))%Q,
             Qsum (map r_cost_usd successful_results),
             Zsum (map r_tokens_used successful_results))
        | [] => (0.0%Q, 0.0%Q, 0.0%Q, 0)
        end in
      let success_rate :=
        (inject_Z (Zlen successful_results) / inject_Z (Zlen model_results))%Q in
      Some (new_metric eval_run_id (m_id model) "overall" avg_accuracy
              avg_response_time total_cost total_tokens success_rate)
  end.

(** *** Ranking *)

Definition set_accuracy_rank (rank : Z) (m : PerformanceMetrics) : PerformanceMetrics :=
  {| pm_evaluation_run_id := pm_evaluation_run_id m; pm_model_id := pm_model_id m;
     pm_category := pm_category m; pm_avg_accuracy := pm_avg_accuracy m;
     pm_avg_response_time := pm_avg_response_time m; pm_total_cost := pm_total_cost m;
     pm_total_tokens := pm_total_tokens m; pm_success_rate := pm_success_rate m;
     pm_accuracy_rank := Some rank; pm_speed_rank := pm_speed_rank m;
     pm_cost_rank := pm_cost_rank m; pm_overall_rank := pm_overall_rank m |}.

Definition set_speed_rank (rank : Z) (m : PerformanceMetrics) : PerformanceMetrics :=
  {| pm_evaluation_run_id := pm_evaluation_run_id m; pm_model_id := pm_model_id m;
     pm_category := pm_category m; pm_avg_accuracy := pm_avg_accuracy m;
     pm_avg_response_time := pm_avg_response_time m; pm_total_cost := pm_total_cost m;
     pm_total_tokens := pm_total_tokens m; pm_success_rate := pm_success_rate m;
     pm_accuracy_rank := pm_accuracy_rank m; pm_speed_rank := Some rank;
     pm_cost_rank := pm_cost_rank m; pm_overall_rank := pm_overall_rank m |}.

Definition set_cost_rank (rank : Z) (m : PerformanceMetrics) : PerformanceMetrics :=
  {| pm_evaluation_run_id := pm_evaluation_run_id m; pm_model_id := pm_model_id m;
     pm_category := pm_category m; pm_avg_accuracy := pm_avg_accuracy m;
     pm_avg_response_time := pm_avg_response_time m; pm_total_cost := pm_total_cost m;
     pm_total_tokens := pm_total_tokens m; pm_success_rate := pm_success_rate m;
     pm_accuracy_rank := pm_accuracy_rank m; pm_speed_rank := pm_speed_rank m;
     pm_cost_rank := Some rank; pm_overall_rank := pm_overall_rank m |}.

Definition set_overall_rank (v : Q) (m : PerformanceMetrics) : PerformanceMetrics :=
  {| pm_evaluation_run_id := pm_evaluation_run_id m; pm_model_id := pm_model_id m;
     pm_category := pm_category m; pm_avg_accuracy := pm_avg_accuracy m;
     pm_avg_response_time := pm_avg_response_time m; pm_total_cost := pm_total_cost m;
     pm_total_tokens := pm_total_tokens m; pm_success_rate := pm_success_rate m;
     pm_accuracy_rank := pm_accuracy_rank m; pm_speed_rank := pm_speed_rank m;
     pm_cost_rank := pm_cost_rank m; pm_overall_rank := Some v |}.

(** [for rank, metric in enumerate(order, rank): metric.field = rank], on
    the table [store] and the positions [order]. *)
Fixpoint assign_ranks (set : Z -> PerformanceMetrics -> PerformanceMetrics)
    (rank : Z) (order : list nat) (store : list PerformanceMetrics)
  : list PerformanceMetrics :=
  match order with
  | [] => store
  | i :: rest => assign_ranks set (rank + 1) rest (alter (set rank) i store)
  end.

(** The weighted score of one metric of a group of [n]; [None] stands for
    the [TypeError] of arithmetic on a rank that is still [None]. *)
Definition overall_score (n : Z) (m : PerformanceMetrics) : option Q :=
  accuracy_rank ← pm_accuracy_rank m;
  speed_rank ← pm_speed_rank m;
  cost_rank ← pm_cost_rank m;
  Some (inject_Z (n - accuracy_rank + 1) * 0.5 +
        inject_Z (n - speed_rank + 1) * 0.25 +
        inject_Z (n - cost_rank + 1) * 0.25)%Q.

(** [for metric in cat_metrics: metric.overall_rank = overall_score] *)
Fixpoint assign_scores (n : Z) (cat_metrics : list nat)
    (store : list PerformanceMetrics) : option (list PerformanceMetrics) :=
  match cat_metrics with
  | [] => Some store
  | i :: rest =>
      m ← store !! i;
      v ← overall_score n m;
      assign_scores n rest (alter (set_overall_rank v) i store)
  end.

(** The keys [key(x)] of a sort, computed once for each object. *)
Definition decorate {K} (key : PerformanceMetrics -> option K)
    (store : list PerformanceMetrics) (cat_metrics : list nat)
  : option (list (K * nat)) :=
  mapM (fun i => m ← store !! i; k ← key m; Some (k, i)) cat_metrics.

(** The ranking of one category. *)
Definition rank_category (cat_metrics : list nat) (store : list PerformanceMetrics)
  : option (list PerformanceMetrics) :=
  let n := Zlen cat_metrics in
  by_accuracy ← decorate (fun m => Some (pm_avg_accuracy m)) store cat_metrics;
  let store := assign_ranks set_accuracy_rank 1 (sorted_reverse fst by_accuracy).*2 store in
  by_speed ← decorate (fun m => Some (pm_avg_response_time m)) store cat_metrics;
  let store := assign_ranks set_speed_rank 1 (sorted fst by_speed).*2 store in
  by_cost ← decorate (fun m => Some (pm_total_cost m)) store cat_metrics;
  let store := assign_ranks set_cost_rank 1 (sorted fst by_cost).*2 store in
  store ← assign_scores n cat_metrics store;
  by_overall ← decorate pm_overall_rank store cat_metrics;
  Some (assign_ranks (fun rank => set_overall_rank (inject_Z rank)) 1
          (sorted_reverse fst by_overall).*2 store).

(** The grouping of the queried metrics by category. *)
Fixpoint group_metrics (store : list PerformanceMetrics) (metrics : list nat)
    (category_metrics : list (string * list nat)) : list (string * list nat) :=
  match metrics with
  | [] => category_metrics
  | i :: rest =>
      match store !! i with
      | Some metric =>
          group_metrics store rest
            (dict_update String.eqb (pm_category metric) []
               (fun l => l ++ [i]) category_metrics)
      | None => group_metrics store rest category_metrics
      end
  end.

Fixpoint rank_categories (category_metrics : list (string * list nat))
    (store : list PerformanceMetrics) : option (list PerformanceMetrics) :=
  match category_metrics with
  | [] => Some store
  | (_, cat_metrics) :: rest =>
      store ← rank_category cat_metrics store;
      rank_categories rest store
  end.

Definition _calculate_rankings (eval_run_id : Z) (db : Session)
  : Session * outcome unit :=
  let metrics := Db.query_metrics eval_run_id db in
  let category_metrics := group_metrics (db_metrics db) metrics [] in
  match rank_categories category_metrics (db_metrics db) with
  | Some store => (Db.set_metrics store db, Return tt)
  | None => (db, Raise (TypeError "unsupported operand type(s) for -: 'int' and 'NoneType'"))
  end.

Definition _generate_performance_metrics (eval_run_id : Z) (models : list LLMModel)
    (db : Session) : Session * outcome unit :=
  let results := Db.query_results eval_run_id db in
  match group_results db results [] with
  | Raise e => (db, Raise e)
  | Return model_category_stats =>
      let db := foldl (fun db g => Db.add_metric (group_metric eval_run_id g) db)
                  db model_category_stats in
      let db := foldl (fun db model =>
                         match overall_metric eval_run_id results model with
                         | Some overall => Db.add_metric overall db
                         | None => db
                         end) db models in
      match _calculate_rankings eval_run_id db with
      | (db, Raise e) => (db, Raise e)
      | (db, Return _) => (Db.commit db, Return tt)
      end
  end.

(** *** The run *)

(** [if test_case_ids:] and [if categories:]: a list argument is used as
    a filter when it is given and not empty. *)
Definition given {A} (o : option (list A)) : option (list A) :=
  match o with
  | Some (x :: l) => Some (x :: l)
  | _ => None
  end.

(** [run_evaluation], on the tables of [db]; the outcome comes with the
    tables as the session leaves them.  Every path commits before
    [db.close()], which therefore drops nothing. *)
Definition run_evaluation (providers : gmap string provider_class)
    (world : Z -> Z -> call_env) (evaluation_name : string) (model_ids : list Z)
    (test_case_ids : option (list Z)) (categories : option (list string))
    (db : Session) : Session * outcome summary :=
  let db := Db.SessionLocal db in
  let id := Db.next_run_id db in
  let eval_run :=
    {| run_id := id; run_name := evaluation_name;
       run_description := "Evaluation of " +:+ Float.string_of_nonneg (Zlen model_ids)
                          +:+ " models";
       run_status := "running" |} in
  let db := Db.commit (Db.set_runs (db_runs db ++ [eval_run]) db) in
  let models := Db.query_models model_ids db in
  let test_cases := Db.query_test_cases (given test_case_ids) (given categories) db in
  match models, test_cases with
  | [], _ =>
      (Db.set_run_status id "failed" db,
       Raise (ValueError "No active models found for evaluation"))
  | _ :: _, [] =>
      (Db.set_run_status id "failed" db,
       Raise (ValueError "No test cases found for evaluation"))
  | _ :: _, _ :: _ =>
      let '(db, all_results) := run_pairs providers world id models test_cases (db, []) in
      match _generate_performance_metrics id models db with
      | (db, Raise e) => (Db.set_run_status id "failed" db, Raise e)
      | (db, Return _) =>
          (Db.set_run_status id "completed" db,
           Return {| evaluation_id := id; status := "completed";
                     total_results := Zlen all_results;
                     models_evaluated := Zlen models;
                     test_cases_run := Zlen test_cases |})
      end
  end.

(** *** The report of a run *)

(** [result.model] and [result.test_case], which the report dereferences. *)
Definition result_model (db : Session) (result : EvaluationResult) : outcome LLMModel :=
  match Db.model_of (r_model_id result) db with
  | Some model => Return model
  | None => Raise (AttributeError "'NoneType' object has no attribute 'name'")
  end.

Definition result_test_case (attr : string) (db : Session) (result : EvaluationResult)
  : outcome TestCase :=
  match Db.test_case_of result db with
  | Some test_case => Return test_case
  | None => Raise (AttributeError ("'NoneType' object has no attribute '" +:+ attr +:+ "'"))
  end.

Definition format_result (db : Session) (result : EvaluationResult)
  : outcome formatted_result :=
  model ← result_model db result;
  test_case ← result_test_case "name" db result;
  Return
    {| fr_model_name := m_name model;
       fr_test_case_name := tc_name test_case;
       fr_category := tc_category test_case;
       fr_accuracy_score := r_accuracy_score result;
       fr_response_time_ms := r_response_time_ms result;
       fr_cost_usd := r_cost_usd result;
       fr_tokens_used := r_tokens_used result;
       fr_model_output := r_model_output result;
       fr_agent_feedback := r_agent_feedback result;
       fr_error := r_error_message result |}.

Definition format_metric (db : Session) (metric : PerformanceMetrics) : formatted_metric :=
  {| fm_model_name := match Db.model_of (pm_model_id metric) db with
                      | Some model => m_name model
                      | None => "Unknown"
                      end;
     fm_category := pm_category metric;
     fm_avg_accuracy := pm_avg_accuracy metric;
     fm_avg_response_time := pm_avg_response_time metric;
     fm_total_cost := pm_total_cost metric;
     fm_success_rate := pm_success_rate metric;
     fm_accuracy_rank := pm_accuracy_rank metric;
     fm_speed_rank := pm_speed_rank metric;
     fm_cost_rank := pm_cost_rank metric;
     fm_overall_rank := pm_overall_rank metric |}.

(** [get_evaluation_results], on the tables of [db].  The column
    [created_at] is filled by the clock of the database and is not part of
    [EvaluationRun] here: [created_at] gives, for a run, the text of
    [eval_run.created_at.isoformat()]. *)
Definition get_evaluation_results (created_at : EvaluationRun -> string)
    (evaluation_id : Z) (db : Session) : outcome evaluation_report :=
  let db := Db.SessionLocal db in
  match Db.query_run evaluation_id db with
  | None =>
      Raise (ValueError ("Evaluation run " +:+ Float.string_of_int evaluation_id
                         +:+ " not found"))
  | Some eval_run =>
      let results := Db.query_results evaluation_id db in
      let metrics := omap (fun i => db_metrics db !! i)
                       (Db.query_metrics evaluation_id db) in
      formatted_results ← mapM (format_result db) results;
      let formatted_metrics := map (format_metric db) metrics in
      categories ← mapM (fun r => test_case ← result_test_case "category" db r;
                                  Return (tc_category test_case)) results;
      models ← mapM (fun r => model ← result_model db r; Return (m_name model)) results;
      Return
        {| rep_evaluation_run :=
             {| erd_id := run_id eval_run;
                erd_name := run_name eval_run;
                erd_description := run_description eval_run;
                erd_status := run_status eval_run;
                erd_created_at := created_at eval_run |};
           rep_results := formatted_results;
           rep_metrics := formatted_metrics;
           rep_summary :=
             {| rs_total_results := Zlen results;
                rs_successful_results :=
                  Zlen (List.filter (fun r => negb (truthy (r_error_message r))) results);
                rs_categories := list_to_set categories;
                rs_models := list_to_set models |} |}
  end.

End EvaluationEngine.

(** ** The routes that start a run and read its report *)

Module Routes.

(** [EvaluationRequest] *)
Record EvaluationRequest : Type := {
  req_name : string;
  req_model_ids : list Z;
  req_test_case_ids : option (list Z);
  req_categories : option (list string)
}.

Record HTTPException : Type := {
  status_code : Z;
  detail : string
}.

(** The arguments given to [background_tasks.add_task(run_evaluation_task,
    ...)]. *)
Record task : Type := {
  task_name : string;
  task_model_ids : list Z;
  task_test_case_ids : option (list Z);
  task_categories : option (list string)
}.

(** [start_evaluation]: the exception of a rejected request, or the
    immediate response with the task that was scheduled. *)
Definition start_evaluation (request : EvaluationRequest) (db : Session)
  : HTTPException + (summary * task) :=
  let models := Db.query_models (req_model_ids request) db in
  if negb (Nat.eqb (length models) (length (req_model_ids request))) then
    inl {| status_code := 400;
           detail := "Some specified models not found or inactive" |}
  else
    let accepted :=
      inr ({| evaluation_id := 0; status := "starting"; total_results := 0;
              models_evaluated := EvaluationEngine.Zlen (req_model_ids request);
              test_cases_run := 0 |},
           {| task_name := req_name request;
              task_model_ids := req_model_ids request;
              task_test_case_ids := req_test_case_ids request;
              task_categories := req_categories request |}) in
    match EvaluationEngine.given (req_test_case_ids request) with
    | Some test_case_ids =>
        let test_cases :=
          List.filter (fun tc => Db.in_ (tc_id tc) test_case_ids) (db_test_cases db) in
        if negb (Nat.eqb (length test_cases) (length test_case_ids)) then
          inl {| status_code := 400;
                 detail := "Some specified test cases not found" |}
        else accepted
    | None => accepted
    end.

(** [run_evaluation_task]: the run, whose summary or exception is only
    printed. *)
Definition run_evaluation_task (providers : gmap string provider_class)
    (world : Z -> Z -> call_env) (t : task) (db : Session) : Session :=
  (EvaluationEngine.run_evaluation providers world (task_name t) (task_model_ids t)
     (task_test_case_ids t) (task_categories t) db).1.

(** The route [get_evaluation_results]. *)
Definition get_evaluation_results (created_at : EvaluationRun -> string)
    (evaluation_id : Z) (db : Session) : HTTPException + evaluation_report :=
  match EvaluationEngine.get_evaluation_results created_at evaluation_id db with
  | Return results => inr results
  | Raise (ValueError msg) => inl {| status_code := 404; detail := msg |}
  | Raise e => inl {| status_code := 500;
                      detail := "Error retrieving results: " +:+ str_exn e |}
  end.

End Routes.

(** * The vocabulary of the properties *)

Import EvaluationEngine.

(** The values that the class attribute [_providers] can take: the one of
    the module, changed by calls of [register_provider]. *)
Inductive registry : gmap string provider_class -> Prop :=
  | registry_initial :
      registry LLMProviderFactory._providers
  | registry_register name cls providers :
      registry providers ->
      registry (LLMProviderFactory.register_provider name cls providers).

(** The rows of a session, flushed or still pending. *)
Definition stored_results (db : Session) : list EvaluationResult :=
  db_results db ++ db_pending_results db.
Definition stored_metrics (db : Session) : list PerformanceMetrics :=
  db_metrics db ++ db_pending_metrics db.

(** [db'] is [db] with the result rows [rows] added, flushed or not. *)
Definition extends (rows : list EvaluationResult) (db db' : Session) : Prop :=
  stored_results db' = stored_results db ++ rows /\
  db_metrics db' = db_metrics db /\
  db_pending_metrics db' = [] /\
  db_runs db' = db_runs db /\ db_models db' = db_models db /\
  db_test_cases db' = db_test_cases db.

(** The row that the loop stores for one pair. *)
Definition pair_row (providers : gmap string provider_class)
    (world : Z -> Z -> call_env) (eval_run_id : Z)
    (model : LLMModel) (test_case : TestCase) : EvaluationResult :=
  match evaluate_pair providers (world (m_id model) (tc_id test_case))
          eval_run_id model test_case with
  | Return result => result
  | Raise e => error_result eval_run_id model test_case e
  end.

(** The rows of the run, in the order of the two loops. *)
Definition run_rows (providers : gmap string provider_class)
    (world : Z -> Z -> call_env) (eval_run_id : Z)
    (models : list LLMModel) (test_cases : list TestCase) : list EvaluationResult :=
  flat_map (fun model => map (pair_row providers world eval_run_id model) test_cases)
    models.

(** The rows of a pair: those with its three keys. *)
Definition of_pair (eval_run_id : Z) (model : LLMModel) (test_case : TestCase)
    (r : EvaluationResult) : bool :=
  (r_evaluation_run_id r =? eval_run_id) && (r_model_id r =? m_id model)
  && (r_test_case_id r =? tc_id test_case).

(** [r] with its status changed. *)
Definition with_status (status : string) (r : EvaluationRun) : EvaluationRun :=
  {| run_id := run_id r; run_name := run_name r;
     run_description := run_description r; run_status := status |}.

(** The session of a run after its record is created. *)
Definition started (evaluation_name : string) (model_ids : list Z) (db : Session)
  : Session :=
  let db := Db.SessionLocal db in
  Db.commit (Db.set_runs
    (db_runs db ++
     [{| run_id := Db.next_run_id db; run_name := evaluation_name;
         run_description := "Evaluation of "
                            +:+ Float.string_of_nonneg (EvaluationEngine.Zlen model_ids)
                            +:+ " models";
         run_status := "running" |}]) db).

(** [run_evaluation] with its arguments in the order of the signature, and
    the models and test cases that it resolves on [db]. *)
Definition run (providers : gmap string provider_class) (world : Z -> Z -> call_env)
    (evaluation_name : string) (model_ids : list Z) (test_case_ids : option (list Z))
    (categories : option (list string)) (db : Session) : Session * outcome summary :=
  run_evaluation providers world evaluation_name model_ids test_case_ids categories db.

Definition run_models (model_ids : list Z) (db : Session) : list LLMModel :=
  Db.query_models model_ids db.

Definition run_test_cases (test_case_ids : option (list Z))
    (categories : option (list string)) (db : Session) : list TestCase :=
  Db.query_test_cases (given test_case_ids) (given categories) db.

(** The keys of the tables: the primary keys of models and test cases are
    unique, and results and metrics refer to runs of the table. *)
Record well_keyed (db : Session) : Prop := {
  models_key : NoDup (map m_id (db_models db));
  test_cases_key : NoDup (map tc_id (db_test_cases db));
  results_run : forall r, In r (db_results db) ->
                          In (r_evaluation_run_id r) (map run_id (db_runs db));
  metrics_run : forall m, In m (db_metrics db) ->
                          In (pm_evaluation_run_id m) (map run_id (db_runs db))
}.

(** The session with more metrics pending. *)
Definition add_metrics (ms : list PerformanceMetrics) (db : Session) : Session :=
  {| db_runs := db_runs db; db_models := db_models db;
     db_test_cases := db_test_cases db;
     db_results := db_results db; db_metrics := db_metrics db;
     db_pending_results := db_pending_results db;
     db_pending_metrics := db_pending_metrics db ++ ms |}.

(** The metrics that one aggregation adds to the session: one for each
    group, then the [overall] ones. *)
Definition aggregated (eval_run_id : Z) (models : list LLMModel) (db : Session)
    (model_category_stats : list ((Z * string) * stats)) : list PerformanceMetrics :=
  map (group_metric eval_run_id) model_category_stats ++
  omap (overall_metric eval_run_id (Db.query_results eval_run_id db)) models.

(** [not result.error_message] *)
Definition successful (r : EvaluationResult) : bool := negb (truthy (r_error_message r)).

(** The key of the group of a result. *)
Definition key_of (db : Session) (r : EvaluationResult) : option (Z * string) :=
  tc ← Db.test_case_of r db; Some (r_model_id r, tc_category tc).

Definition in_group (db : Session) (k : Z * string) (r : EvaluationResult) : bool :=
  match key_of db r with
  | Some k' => key_eqb k k'
  | None => false
  end.

Definition stats_from (st : stats) (l : list EvaluationResult) : stats :=
  foldl (fun st r => record_result r st) st l.

(** The model, the category and the four ranks of a metric. *)
Definition ranks (m : PerformanceMetrics)
  : Z * string * option Z * option Z * option Z * option Q :=
  (pm_model_id m, pm_category m, pm_accuracy_rank m, pm_speed_rank m,
   pm_cost_rank m, pm_overall_rank m).

(** A metric without ranks. *)
Definition unranked (m : PerformanceMetrics) : Prop :=
  pm_accuracy_rank m = None /\ pm_speed_rank m = None /\
  pm_cost_rank m = None /\ pm_overall_rank m = None.

(** The comparison of the descending sorts, on decorated rows. *)
Definition descending (y x : Q * nat) : bool := Qlt_bool (fst x) (fst y).

(** In the result of a sort no element is followed directly by one that had
    to stay before it. *)
Inductive in_order {A} (stays_before : A -> A -> bool) : list A -> Prop :=
  | in_order_nil : in_order stays_before []
  | in_order_one x : in_order stays_before [x]
  | in_order_cons x y l :
      stays_before y x = false -> in_order stays_before (y :: l) ->
      in_order stays_before (x :: y :: l).

(** [all(p(c) for c in s)] and [sum(1 for c in s if p(c))] *)
Fixpoint every (p : ascii -> bool) (s : string) : bool :=
  match s with
  | EmptyString => true
  | String c r => p c && every p r
  end.

Fixpoint count_chars (p : ascii -> bool) (s : string) : Z :=
  match s with
  | EmptyString => 0
  | String c r => (if p c then 1 else 0) + count_chars p r
  end.

(** A text without a word: empty, or made of white space only. *)
Definition blank (s : string) : bool := every Text.isspace s.

(** A text without a digit and without a point. *)
Definition no_number (s : string) : bool := every (fun c => negb (Re.isnum c)) s.

(** A run of [[0-9.]] that is a decimal numeral: at most one point and at
    least one digit. *)
Definition decimal (g : string) : bool :=
  (count_chars (Ascii.eqb ".") g <=? 1)
  && negb (every (fun c => negb (Text.isdigit c)) g).

(** A numeral that [float] reads as a finite number: its value is below
    [2^1024 - 2^970], the least one that is rounded to infinity. *)
Definition finite_numeral (g : string) : bool :=
  match Float.numeral g with
  | Some q => negb (Qle_bool (2 ^ 1024 - 2 ^ 970) q)
  | None => false
  end.

(** The provider that [_evaluate_single_case] builds for a model whose
    provider type is registered with the class [cls]. *)
Definition provider_of (cls : provider_class) (model : LLMModel) : provider :=
  {| p_class := cls; p_name := m_name model; p_model_id := m_model_id model;
     p_cost_per_1k_tokens := m_cost_per_1k_tokens model;
     p_max_tokens := m_max_tokens model |}.

(** The rate of the model is a number. *)
Definition has_rate (model : LLMModel) : bool :=
  match m_cost_per_1k_tokens model with Some _ => true | None => false end.

(** The mock provider of a model without rate, which cannot compute a cost. *)
Definition mock_without_rate (cls : provider_class) (model : LLMModel) : bool :=
  match cls, m_cost_per_1k_tokens model with
  | ClsMock, None => true
  | _, _ => false
  end.

(** The provider calls a remote API, and the reply carries no text. *)
Definition reply_without_text (cls : provider_class) (env : call_env) : bool :=
  match cls, env_api env with
  | ClsOpenAI, Return (None, _) => negb (env_openai_key_is_dummy env)
  | ClsAnthropic, Return (None, _) => negb (env_anthropic_key_is_dummy env)
  | _, _ => false
  end.

(** Whether the pair ends without an exception. *)
Definition pair_returns (providers : gmap string provider_class)
    (world : Z -> Z -> call_env) (eval_run_id : Z) (p : LLMModel * TestCase) : bool :=
  match evaluate_pair providers (world (m_id p.1) (tc_id p.2)) eval_run_id p.1 p.2 with
  | Return _ => true
  | Raise _ => false
  end.

(** The pairs of a run, in the order of the two loops. *)
Definition pairs_of (models : list LLMModel) (test_cases : list TestCase)
  : list (LLMModel * TestCase) :=
  flat_map (fun model => map (pair model) test_cases) models.

(** The rows that are flushed when the loops end: those of the pairs up to
    the last one that returned. *)
Fixpoint flushed_rows (providers : gmap string provider_class)
    (world : Z -> Z -> call_env) (eval_run_id : Z) (pairs : list (LLMModel * TestCase))
  : list EvaluationResult :=
  match pairs with
  | [] => []
  | p :: rest =>
      if existsb (pair_returns providers world eval_run_id) pairs
      then pair_row providers world eval_run_id p.1 p.2
           :: flushed_rows providers world eval_run_id rest
      else []
  end.

(** The fields of a metric other than its ranks. *)
Definition measurements (m : PerformanceMetrics) : Z * Z * string * Q * Q * Q * Z * Q :=
  (pm_evaluation_run_id m, pm_model_id m, pm_category m, pm_avg_accuracy m,
   pm_avg_response_time m, pm_total_cost m, pm_total_tokens m, pm_success_rate m).

(** The positions, in the table, of the metrics of a run in a category. *)
Definition category_positions (eval_run_id : Z) (category : string) (db : Session)
  : list nat :=
  List.filter
    (fun i => match db_metrics db !! i with
              | Some m => String.eqb category (pm_category m)
              | None => false
              end)
    (Db.query_metrics eval_run_id db).

(** ** Sample data *)

Module Sample.

Definition model_a : LLMModel :=
  {| m_id := 1; m_name := "A"; m_provider := "mock"; m_model_id := "a";
     m_cost_per_1k_tokens := Some 0.01%Q; m_max_tokens := 4096; m_is_active := true |}.

(** A model whose provider type is not registered. *)
Definition model_b : LLMModel :=
  {| m_id := 2; m_name := "B"; m_provider := "local"; m_model_id := "b";
     m_cost_per_1k_tokens := Some 0.02%Q; m_max_tokens := 4096; m_is_active := true |}.

Definition model_c : LLMModel :=
  {| m_id := 3; m_name := "C"; m_provider := "openai"; m_model_id := "c";
     m_cost_per_1k_tokens := Some 0.03%Q; m_max_tokens := 4096; m_is_active := true |}.

Definition model_inactive : LLMModel :=
  {| m_id := 4; m_name := "D"; m_provider := "mock"; m_model_id := "d";
     m_cost_per_1k_tokens := Some 0.01%Q; m_max_tokens := 4096; m_is_active := false |}.

(** A model that is slower and dearer than [model_a]. *)
Definition model_e : LLMModel :=
  {| m_id := 5; m_name := "E"; m_provider := "mock"; m_model_id := "e";
     m_cost_per_1k_tokens := Some 0.05%Q; m_max_tokens := 4096; m_is_active := true |}.

Definition case_reasoning : TestCase :=
  {| tc_id := 1; tc_name := "syllogism"; tc_category := "reasoning";
     tc_input_text := "Explain the logic of the argument";
     tc_expected_output := None; tc_evaluation_criteria := None |}.

Definition case_qa : TestCase :=
  {| tc_id := 2; tc_name := "capital"; tc_category := "qa";
     tc_input_text := "What is the capital of France?";
     tc_expected_output := Some "Paris is the capital of France";
     tc_evaluation_criteria := None |}.


(** A question without expected output: the question scorer raises on it. *)
Definition case_qa_open : TestCase :=
  {| tc_id := 4; tc_name := "opinion"; tc_category := "qa";
     tc_input_text := "What is the best season?";
     tc_expected_output := None; tc_evaluation_criteria := None |}.

(** A model of the mock provider whose rate is null. *)
Definition model_free : LLMModel :=
  {| m_id := 6; m_name := "F"; m_provider := "mock"; m_model_id := "f";
     m_cost_per_1k_tokens := None; m_max_tokens := 4096; m_is_active := true |}.

(** A row without error, as [_evaluate_single_case] stores it. *)
Definition passed (eval_run_id : Z) (model : LLMModel) (test_case : TestCase)
    (score time : Q) (tokens : Z) : EvaluationResult :=
  {| r_evaluation_run_id := eval_run_id; r_model_id := m_id model;
     r_test_case_id := tc_id test_case; r_model_output := Some "output";
     r_accuracy_score := score; r_response_time_ms := time;
     r_tokens_used := tokens;
     r_cost_usd := (inject_Z tokens / 1000 * default 0 (m_cost_per_1k_tokens model))%Q;
     r_error_message := None; r_agent_feedback := None |}.

(** A world with a real OpenAI key, whose remote call fails; the mock
    provider does not depend on it. *)
Definition env : call_env :=
  {| env_openai_key_is_dummy := false; env_anthropic_key_is_dummy := true;
     env_api := Raise (RuntimeError "Connection error.");
     env_elapsed_ms := 250%Q; env_uniform := 300%Q; env_choice := 0%nat |}.

Definition env_slow : call_env :=
  {| env_openai_key_is_dummy := false; env_anthropic_key_is_dummy := true;
     env_api := Raise (RuntimeError "Connection error.");
     env_elapsed_ms := 400%Q; env_uniform := 300%Q; env_choice := 0%nat |}.

(** A world with a real OpenAI key, whose remote reply carries no text. *)
Definition env_no_text : call_env :=
  {| env_openai_key_is_dummy := false; env_anthropic_key_is_dummy := true;
     env_api := Return (None, 12);
     env_elapsed_ms := 250%Q; env_uniform := 300%Q; env_choice := 0%nat |}.

Definition world (model_id test_case_id : Z) : call_env :=
  if model_id =? 5 then env_slow else env.

Definition tables (models : list LLMModel) (test_cases : list TestCase) : Session :=
  {| db_runs := []; db_models := models; db_test_cases := test_cases;
     db_results := []; db_metrics := [];
     db_pending_results := []; db_pending_metrics := [] |}.

Definition run (models : list LLMModel) (test_cases : list TestCase)
  : Session * outcome summary :=
  EvaluationEngine.run_evaluation LLMProviderFactory._providers world "sample"
    (m_id <$> models) None None (tables models test_cases).

End Sample.

(** * Properties *)

(** ** The provider factory *)

Lemma registry_has_mock providers :
  registry providers -> is_Some (providers !! "mock").
Proof.
  induction 1 as [|name cls providers _ IH].
  - by eexists.
  - unfold LLMProviderFactory.register_provider.
    destruct (decide (name = "mock")) as [->|Hne].
    + rewrite lookup_insert_eq. by eexists.
    + by rewrite lookup_insert_ne.
Qed.

(** C9. A configuration without the key ["provider"] gets the provider class
    registered under ["mock"] and no error; [create_provider] raises exactly
    when a provider type is supplied that is not a key of the registry, and
    then with the unknown-provider [ValueError]. *)
Theorem create_provider_default_mock providers (cfg : model_config) :
  registry providers ->
  (cfg_provider cfg = None ->
     exists cls, providers !! "mock" = Some cls /\
       LLMProviderFactory.create_provider providers cfg
       = Return (BaseLLMProvider.__init__ cls cfg))
  /\ (forall e, LLMProviderFactory.create_provider providers cfg = Raise e <->
        exists t, cfg_provider cfg = Some t /\ providers !! t = None /\
                  e = ValueError ("Unknown provider type: " +:+ t)).
Proof.
  intros Hreg. destruct (registry_has_mock _ Hreg) as [mock Hmock].
  unfold LLMProviderFactory.create_provider. split.
  - intros ->. exists mock. simpl. by rewrite Hmock.
  - intros e. destruct (cfg_provider cfg) as [t|] eqn:Ht; simpl.
    + destruct (providers !! t) as [cls|] eqn:Hl; split.
      * discriminate.
      * intros (t' & [= <-] & Hn & _). congruence.
      * intros [= <-]. by exists t.
      * intros (t' & [= <-] & _ & ->). done.
    + rewrite Hmock. split; [discriminate | intros (t & ? & _); discriminate].
Qed.

Lemma create_provider_default_mock_witness :
  let cfg provider_type :=
    {| cfg_name := Some "m"; cfg_provider := provider_type; cfg_model_id := None;
       cfg_cost_per_1k_tokens := None; cfg_max_tokens := None |} in
  registry LLMProviderFactory._providers /\
  LLMProviderFactory.create_provider LLMProviderFactory._providers (cfg None)
  = Return {| p_class := ClsMock; p_name := "m"; p_model_id := "unknown";
              p_cost_per_1k_tokens := Some 0.0%Q; p_max_tokens := 4096 |} /\
  LLMProviderFactory.create_provider LLMProviderFactory._providers (cfg (Some "local"))
  = Raise (ValueError "Unknown provider type: local").
Proof.
  intros cfg. split; [constructor|].
  destruct (create_provider_default_mock LLMProviderFactory._providers (cfg None)
              registry_initial) as [H _].
  destruct (create_provider_default_mock LLMProviderFactory._providers
              (cfg (Some "local")) registry_initial) as [_ H'].
  split.
  - destruct (H eq_refl) as (cls & Hcls & ->).
    vm_compute in Hcls. by injection Hcls as <-.
  - apply H'. exists "local". repeat split; reflexivity.
Defined.

(** ** The reasoning scorer *)

(** C10. For every test case and every model output, the reasoning scorer
    returns, and its score lies between 0.5 and 1.0. *)
Theorem reasoning_score_bounds (test_case : test_case_dict) (model_response : string) :
  exists ev,
    ReasoningEvaluator.evaluate_response test_case model_response = Return ev /\
    (0.5 <= ev_score ev)%Q /\ (ev_score ev <= 1.0)%Q.
Proof.
  unfold ReasoningEvaluator.evaluate_response, ReasoningEvaluator._mock_evaluation.
  generalize (Text.count_in ReasoningEvaluator.structure_indicators
                (Text.lower model_response)) as sc.
  generalize (Text.count_in ReasoningEvaluator.logical_words
                (Text.lower model_response)) as lc.
  generalize (Text.len (Text.lower model_response)) as n.
  intros n lc sc.
  destruct (3 <=? sc), (1 <=? sc), (5 <=? lc), (2 <=? lc), (200 <? n);
    vm_compute; (eexists; split; [reflexivity|]); split; discriminate.
Qed.

(** ** The score extraction *)

Section ExtractScore.
Import Text Re Float EvaluatorAgent.

Lemma Qle_bool_false a b : Qle_bool a b = false -> (b <= a)%Q.
Proof.
  intros H. apply Qlt_le_weak, Qnot_le_lt. intros Hle.
  apply Qle_bool_iff in Hle. congruence.
Qed.

Lemma Qle_bool_false_lt a b : Qle_bool a b = false -> (b < a)%Q.
Proof.
  intros H. apply Qnot_le_lt. intros Hle. apply Qle_bool_iff in Hle. congruence.
Qed.

Lemma isdigit_val c : isdigit c = true -> 0 <= digit_val c.
Proof.
  unfold isdigit, in_range, digit_val. intros H.
  apply andb_prop in H as [H _]. apply N.leb_le in H. lia.
Qed.

Lemma digits_val_nonneg s : forall acc,
  all_digits s = true -> 0 <= acc -> 0 <= digits_val acc s.
Proof.
  induction s as [|c s IH]; intros acc Hd Hacc; simpl in *; [done|].
  apply andb_prop in Hd as [Hc Hs]. apply IH; [done|].
  pose proof (isdigit_val c Hc). lia.
Qed.

Lemma span_isdigit s ip r : span isdigit s = (ip, r) -> all_digits ip = true.
Proof.
  revert ip r. induction s as [|c s IH]; intros ip r; simpl.
  - by intros [= <- _].
  - destruct (isdigit c) eqn:Hc.
    + destruct (span isdigit s) as [a b]. intros [= <- _]. simpl.
      rewrite Hc. by eapply IH.
    + by intros [= <- _].
Qed.

Lemma all_digits_app a b :
  all_digits a = true -> all_digits b = true -> all_digits (a +:+ b) = true.
Proof.
  induction a as [|c a IH]; simpl; [done|]. intros H Hb.
  apply andb_prop in H as [-> Ha]. by rewrite IH.
Qed.

Lemma numeral_nonneg g v : numeral g = Some v -> (0 <= v)%Q.
Proof.
  unfold numeral. destruct (span isdigit g) as [ip r] eqn:Hspan.
  apply span_isdigit in Hspan. destruct r as [|c fp].
  - destruct (is_empty ip); [done|]. intros [= <-].
    change 0%Q with (inject_Z 0). rewrite <- Zle_Qle.
    by apply digits_val_nonneg.
  - destruct (all_digits fp) eqn:Hfp; simpl; [|done].
    destruct (negb _); [|done]. intros [= <-].
    apply Qle_shift_div_l.
    + change 0%Q with (inject_Z 0). rewrite <- Zlt_Qlt. lia.
    + rewrite Qmult_0_l. change 0%Q with (inject_Z 0). rewrite <- Zle_Qle.
      apply digits_val_nonneg; [by apply all_digits_app | done].
Qed.

Lemma round_half_even_nonneg q : (0 <= q)%Q -> 0 <= round_half_even q.
Proof.
  intros H. unfold round_half_even.
  assert (0 <= Qfloor q) by (change 0 with (Qfloor 0); by apply Qfloor_resp_le).
  destruct (_ ?= _)%Q; [destruct (Z.even _)| |]; lia.
Qed.

Lemma binary64_nonneg q : (0 <= binary64 q)%Q.
Proof.
  unfold binary64. destruct (Qle_bool q 0) eqn:E; [done|].
  apply Qle_bool_false in E. rewrite Qred_correct.
  assert (Hp : forall p : Z, (0 < 2 ^ p)%Q) by (intros p; by apply Qpower_0_lt).
  apply Qmult_le_0_compat; [|apply Qlt_le_weak, Hp].
  change 0%Q with (inject_Z 0). rewrite <- Zle_Qle.
  apply round_half_even_nonneg, Qle_shift_div_l; [apply Hp|].
  by rewrite Qmult_0_l.
Qed.

Lemma Qpower_2_pos (p : Z) : (0 < 2 ^ p)%Q.
Proof. by apply Qpower_0_lt. Qed.

Lemma Qpower_2_inject (k : Z) : 0 <= k -> (inject_Z (2 ^ k) == 2 ^ k)%Q.
Proof. intros Hk. by rewrite Zpower_Qpower. Qed.

Lemma Qpower_2_minus (a b : Z) : (2 ^ (a - b) == 2 ^ a / 2 ^ b)%Q.
Proof. by apply Qpower_minus. Qed.

Lemma Qpower_2_frac (a k : Z) :
  0 <= a -> 0 <= k -> (2 ^ (a - k) == 2 ^ a # Z.to_pos (2 ^ k))%Q.
Proof.
  intros Ha Hk. rewrite Qpower_2_minus, <- !Qpower_2_inject, Qmake_Qdiv by done.
  rewrite Z2Pos.id; [done|]. by apply Z.pow_pos_nonneg.
Qed.

(** The exponent frames the number. *)
Lemma exponent_spec q :
  (0 < q)%Q -> (2 ^ exponent q <= q)%Q /\ (q < 2 ^ (exponent q + 1))%Q.
Proof.
  intros Hq. unfold exponent. destruct q as [n d].
  assert (Hn : 0 < n) by (unfold Qlt in Hq; simpl in Hq; lia).
  cbn [Qnum Qden]. cbv zeta. set (a := Z.log2 n). set (b := Z.log2 (Z.pos d)).
  destruct (Z.log2_spec n Hn) as [Ha1 Ha2]. fold a in Ha1, Ha2.
  destruct (Z.log2_spec (Z.pos d) ltac:(lia)) as [Hb1 Hb2]. fold b in Hb1, Hb2.
  assert (Ha0 : 0 <= a) by apply Z.log2_nonneg.
  assert (Hb0 : 0 <= b) by apply Z.log2_nonneg.
  assert (Hlow : (2 ^ (a - (b + 1)) <= n # d)%Q).
  { rewrite Qpower_2_frac by lia. unfold Qle. cbn [Qnum Qden].
    rewrite Z2Pos.id by (apply Z.pow_pos_nonneg; lia).
    assert (0 < 2 ^ a) by (apply Z.pow_pos_nonneg; lia). nia. }
  assert (Hhigh : (n # d < 2 ^ (a + 1 - b))%Q).
  { rewrite Qpower_2_frac by lia. unfold Qlt. cbn [Qnum Qden].
    rewrite Z2Pos.id by (apply Z.pow_pos_nonneg; lia).
    assert (0 < 2 ^ b) by (apply Z.pow_pos_nonneg; lia). nia. }
  destruct (Qle_bool (2 ^ (a - b)) (n # d)) eqn:E.
  - apply Qle_bool_iff in E. split; [exact E|].
    replace (a - b + 1) with (a + 1 - b) by lia. exact Hhigh.
  - apply Qle_bool_false_lt in E. split.
    + replace (a - b - 1) with (a - (b + 1)) by lia. exact Hlow.
    + replace (a - b - 1 + 1) with (a - b) by lia. exact E.
Qed.

(** Rounding to the nearest integer does not pass an integer bound that the
    number stays half a unit below. *)
Lemma round_half_even_le (x : Q) (k : Z) :
  (x < inject_Z k + (1 # 2))%Q -> round_half_even x <= k.
Proof.
  intros Hx. unfold round_half_even.
  pose proof (Qfloor_le x) as Hf. set (f := Qfloor x) in *.
  assert (Hfk : f <= k).
  { apply Z.lt_succ_r. rewrite Zlt_Qlt. unfold Z.succ. rewrite inject_Z_plus.
    change (inject_Z 1) with 1%Q. lra. }
  destruct (x - inject_Z f ?= 1 # 2)%Q eqn:E.
  - apply Qeq_alt in E.
    assert (f < k) by (rewrite Zlt_Qlt; lra).
    destruct (Z.even f); lia.
  - done.
  - apply Qgt_alt in E.
    assert (f < k) by (rewrite Zlt_Qlt; lra). lia.
Qed.

(** A value below the threshold of infinity is rounded to at most the
    greatest binary64 number, [(2^53 - 1) * 2^971]. *)
Lemma binary64_finite (q : Q) :
  (q < 2 ^ 1024 - 2 ^ 970)%Q -> (binary64 q <= 2 ^ 1024 - 2 ^ 971)%Q.
Proof.
  intros Hq. unfold binary64. destruct (Qle_bool q 0) eqn:E; [by vm_compute|].
  apply Qle_bool_false_lt in E. rewrite Qred_correct.
  destruct (exponent_spec q E) as [Hlo Hhi]. set (e := exponent q) in *.
  assert (He : e < 1024).
  { apply (Qpower_lt_compat_l_inv 2); [|done].
    eapply Qle_lt_trans; [exact Hlo|]. eapply Qlt_trans; [exact Hq|]. by vm_compute. }
  destruct (Z.eq_dec e 1023) as [E1023|Hne].
  - rewrite E1023. change (Z.max (1023 - 52) (-1074)) with 971.
    assert (Hm : round_half_even (q / 2 ^ 971) <= 2 ^ 53 - 1).
    { apply round_half_even_le. apply Qlt_shift_div_r; [apply Qpower_2_pos|].
      eapply Qlt_le_trans; [exact Hq|]. by vm_compute. }
    apply Qle_trans with (inject_Z (2 ^ 53 - 1) * 2 ^ 971)%Q; [|by vm_compute].
    apply Qmult_le_compat_r; [by rewrite <- Zle_Qle | apply Qlt_le_weak, Qpower_2_pos].
  - set (p := Z.max (e - 52) (-1074)).
    assert (Hp : p <= 1023) by lia.
    assert (H1023 : (q < 2 ^ 1023)%Q).
    { eapply Qlt_le_trans; [exact Hhi|]. apply Qpower_le_compat_l; [lia | done]. }
    assert (Hm : round_half_even (q / 2 ^ p) <= 2 ^ (1023 - p)).
    { apply round_half_even_le.
      apply Qlt_le_trans with (inject_Z (2 ^ (1023 - p))).
      - rewrite Qpower_2_inject, Qpower_2_minus by lia.
        apply Qmult_lt_compat_r; [apply Qinv_lt_0_compat, Qpower_2_pos | done].
      - rewrite <- (Qplus_0_r (inject_Z _)) at 1. by apply Qplus_le_r. }
    apply Qle_trans with (inject_Z (2 ^ (1023 - p)) * 2 ^ p)%Q.
    + apply Qmult_le_compat_r; [by rewrite <- Zle_Qle | apply Qlt_le_weak, Qpower_2_pos].
    + rewrite Qpower_2_inject, Qpower_2_minus by lia.
      rewrite Qmult_comm, Qmult_div_r; [by vm_compute|].
      intros E0. pose proof (Qpower_2_pos p) as H0. rewrite E0 in H0.
      by apply Qlt_irrefl in H0.
Qed.

Lemma round_half_even_near (x : Q) :
  (inject_Z (round_half_even x) - x <= 1 # 2)%Q /\
  (x - inject_Z (round_half_even x) <= 1 # 2)%Q.
Proof.
  unfold round_half_even.
  pose proof (Qfloor_le x) as Hf. pose proof (Qlt_floor x) as Hc.
  set (f := Qfloor x) in *. rewrite inject_Z_plus in Hc.
  change (inject_Z 1) with 1%Q in Hc.
  destruct (x - inject_Z f ?= 1 # 2)%Q eqn:E.
  - apply Qeq_alt in E. destruct (Z.even f);
      rewrite ?inject_Z_plus; change (inject_Z 1) with 1%Q; split; lra.
  - apply Qlt_alt in E. split; lra.
  - apply Qgt_alt in E. rewrite inject_Z_plus. change (inject_Z 1) with 1%Q.
    split; lra.
Qed.

(** The rounded value is within half a unit of the last place of the number. *)
Lemma binary64_near (q : Q) :
  (0 < q)%Q ->
  let p := Z.max (exponent q - 52) (-1074) in
  (binary64 q - q <= 2 ^ p * (1 # 2))%Q /\ (q - binary64 q <= 2 ^ p * (1 # 2))%Q.
Proof.
  intros Hq p. unfold binary64.
  destruct (Qle_bool q 0) eqn:E; [apply Qle_bool_iff in E; lra|].
  fold p. rewrite Qred_correct.
  pose proof (Qpower_2_pos p) as HP.
  assert (Hx : (q == q / 2 ^ p * 2 ^ p)%Q).
  { unfold Qdiv. rewrite <- Qmult_assoc, (Qmult_comm (/ _)), Qmult_inv_r, Qmult_1_r; [done|].
    intros E0. rewrite E0 in HP. by apply Qlt_irrefl in HP. }
  destruct (round_half_even_near (q / 2 ^ p)) as [H1 H2].
  apply (Qmult_le_compat_r _ _ (2 ^ p)) in H1, H2; try by apply Qlt_le_weak.
  set (x := (q / 2 ^ p)%Q) in *. set (m := inject_Z (round_half_even x)) in *.
  set (P := (2 ^ p)%Q) in *. clearbody m x P. split; lra.
Qed.

(** [float] of a run of [[0-9.]] is never negative. *)
Lemma parse_nonneg g v : parse g = Some v -> (0 <= v)%Q.
Proof.
  unfold parse. destruct (numeral g); [|done]. intros [= <-]. apply binary64_nonneg.
Qed.

(** [float] of a numeral of finite value is at most the greatest binary64
    number. *)
Lemma parse_finite g v :
  finite_numeral g = true -> parse g = Some v -> (v <= 2 ^ 1024 - 2 ^ 971)%Q.
Proof.
  unfold finite_numeral, parse. destruct (numeral g) as [q|]; [|done].
  intros Hq [= <-]. apply negb_true_iff, Qle_bool_false_lt in Hq.
  by apply binary64_finite.
Qed.

Lemma div_unit_interval (v d : Q) :
  (0 < d)%Q -> (0 <= v)%Q -> (v <= d)%Q -> (0 <= v / d)%Q /\ (v / d <= 1)%Q.
Proof.
  intros Hd H0 H1. split.
  - apply Qle_shift_div_l; [done|]. by rewrite Qmult_0_l.
  - apply Qle_shift_div_r; [done|]. by rewrite Qmult_1_l.
Qed.

(** The fallback returns one of its three constants. *)
Lemma keyword_score_cases t :
  let positive_count := count_in positive_keywords t in
  let negative_count := count_in negative_keywords t in
  (negative_count < positive_count /\ keyword_score t = 0.75%Q) \/
  (positive_count < negative_count /\ keyword_score t = 0.35%Q) \/
  (positive_count = negative_count /\ keyword_score t = 0.55%Q).
Proof.
  simpl. unfold keyword_score.
  destruct (Z.ltb_spec (count_in negative_keywords t) (count_in positive_keywords t));
    [by left|].
  destruct (Z.ltb_spec (count_in positive_keywords t) (count_in negative_keywords t));
    [by right; left|].
  right; right. split; [lia | done].
Qed.

End ExtractScore.

Import EvaluatorAgent.

(** C7, as the specification states it, fails: a fraction over 100 is
    divided by 10 because its text contains ["/10"], a score above 100 is
    only divided by 100, and a run such as [1.2.3] is no number. *)
Lemma extract_score_not_in_unit_interval :
  (exists q, _extract_score "50/100" = Return q /\ ~ (q <= 1)%Q) /\
  (exists q, _extract_score "Score: 250" = Return q /\ ~ (q <= 1)%Q) /\
  (exists e, _extract_score "Score: 1.2.3" = Raise e).
Proof.
  split; [|split].
  - exists 5.0%Q. split; [vm_compute; reflexivity | by vm_compute].
  - exists 2.50%Q. split; [vm_compute; reflexivity | by vm_compute].
  - eexists. vm_compute. reflexivity.
Qed.

Lemma div_at_most_one (v d : Q) : (0 < d)%Q -> (v / d <= 1)%Q <-> (v <= d)%Q.
Proof.
  intros Hd. split; intros H.
  - apply (Qmult_le_compat_r _ _ d) in H; [|by apply Qlt_le_weak].
    rewrite Qmult_1_l in H. unfold Qdiv in H.
    rewrite <- Qmult_assoc, (Qmult_comm (/ d)), Qmult_inv_r, Qmult_1_r in H; [done|].
    intros E. rewrite E in Hd. by apply Qlt_irrefl in Hd.
  - apply Qle_shift_div_r; [done|]. by rewrite Qmult_1_l.
Qed.

Lemma div_nonneg (v d : Q) : (0 < d)%Q -> (0 <= v)%Q -> (0 <= v / d)%Q.
Proof. intros Hd H. apply Qle_shift_div_l; [done|]. by rewrite Qmult_0_l. Qed.

(** C7, amended.  On a text without ["/100"], when a numeric pattern matches
    and its group is a numeral of finite value, [v] being the float that it
    is read as, which is at most the greatest binary64 number: the result is
    [v / 10] if the text contains ["/10"], and
    otherwise [v], [v / 10] or [v / 100] as [v <= 1], [1 < v <= 10] or
    [10 < v].  The result is not negative, and it is at most 1 exactly when
    [v <= 10] if the text contains ["/10"], and when [v <= 100] if not.  On
    any text, when the group is no numeral the call raises the [ValueError]
    of [float]; and when no pattern matches, the result is 0.75, 0.35 or 0.55
    as the positive keywords outnumber the negative ones, the converse, or
    neither. *)
Theorem extract_score_amended (evaluation_text : string) :
  let t := Text.lower evaluation_text in
  (Text.contains "/100" t = false ->
   forall g v,
     first_match patterns t = Some g -> finite_numeral g = true ->
     Float.parse g = Some v ->
     (v <= 2 ^ 1024 - 2 ^ 971)%Q /\
     exists q,
       _extract_score evaluation_text = Return q /\ (0 <= q)%Q /\
       if Text.contains "/10" t
       then q = (v / 10)%Q /\ ((q <= 1)%Q <-> (v <= 10)%Q)
       else ((v <= 1)%Q -> q = v) /\
            ((1 < v)%Q -> (v <= 10)%Q -> q = (v / 10)%Q) /\
            ((10 < v)%Q -> q = (v / 100)%Q) /\
            ((q <= 1)%Q <-> (v <= 100)%Q))
  /\
  (forall g,
     first_match patterns t = Some g -> Float.parse g = None ->
     _extract_score evaluation_text
     = Raise (ValueError ("could not convert string to float: '" +:+ g +:+ "'")))
  /\
  (first_match patterns t = None ->
   let positive_count := Text.count_in positive_keywords t in
   let negative_count := Text.count_in negative_keywords t in
     (negative_count < positive_count /\ _extract_score evaluation_text = Return 0.75%Q) \/
     (positive_count < negative_count /\ _extract_score evaluation_text = Return 0.35%Q) \/
     (positive_count = negative_count /\ _extract_score evaluation_text = Return 0.55%Q)).
Proof.
  intros t. split; [|split].
  - intros H100 g v Hm Hfinite Hp. split; [by eapply parse_finite|].
    unfold _extract_score. fold t. rewrite Hm.
    unfold Float.float. rewrite Hp. cbn [mbind outcome_bind]. eexists.
    split; [reflexivity|].
    pose proof (parse_nonneg _ _ Hp) as H0.
    unfold normalize. rewrite H100.
    destruct (Text.contains "/10" t).
    { split; [by apply div_nonneg|]. split; [done | by apply div_at_most_one]. }
    destruct (Qle_bool v 1) eqn:H1.
    { apply Qle_bool_iff in H1. split; [done|]. split; [done|].
      split; [intros Hv; lra|]. split; [intros Hv; lra|]. split; intros _; lra. }
    apply Qle_bool_false_lt in H1.
    destruct (Qle_bool v 10) eqn:H10.
    { apply Qle_bool_iff in H10. split; [by apply div_nonneg|].
      split; [intros Hv; lra|]. split; [done|]. split; [intros Hv; lra|].
      split; intros _; [lra | by apply div_at_most_one]. }
    apply Qle_bool_false_lt in H10. split; [by apply div_nonneg|].
    split; [intros Hv; lra|]. split; [intros _ Hv; lra|]. split; [done|].
    by apply div_at_most_one.
  - intros g Hm Hp. unfold _extract_score. fold t. rewrite Hm.
    unfold Float.float. by rewrite Hp.
  - intros Hm. simpl. unfold _extract_score. fold t. rewrite Hm.
    destruct (keyword_score_cases t) as [[? ->]|[[? ->]|[? ->]]]; auto.
Qed.

Lemma extract_score_amended_witness :
  (exists q, _extract_score "Score: 8.5" = Return q /\ (q == 0.85)%Q) /\
  (exists q, _extract_score "7/10" = Return q /\ (q == 0.7)%Q) /\
  (exists q, _extract_score "Rating: 0.5" = Return q /\ (q == 0.5)%Q) /\
  (exists q, _extract_score "Score: 250" = Return q /\ (q == 2.5)%Q) /\
  (exists q, _extract_score "Score: 1.0000000000000000001" = Return q /\ (q == 1)%Q) /\
  (exists q, _extract_score "Rating: 0.9" = Return q /\
             (q == 8106479329266893 # 9007199254740992)%Q) /\
  (exists q, _extract_score "Rating: 0.3" = Return q /\
             (q == 5404319552844595 # 18014398509481984)%Q) /\
  (exists q, _extract_score "Score: 9007199254740993" = Return q /\
             (q == 90071992547409.92)%Q) /\
  _extract_score "Score: 1.2.3"
  = Raise (ValueError "could not convert string to float: '1.2.3'") /\
  _extract_score "The answer is good and accurate, if incomplete." = Return 0.75%Q.
Proof.
  destruct (extract_score_amended "Score: 8.5") as (H1 & _).
  destruct (extract_score_amended "7/10") as (H2 & _).
  destruct (extract_score_amended "Rating: 0.5") as (H3 & _).
  destruct (extract_score_amended "Score: 250") as (H4 & _).
  destruct (extract_score_amended "Score: 1.0000000000000000001") as (H5 & _).
  destruct (extract_score_amended "Rating: 0.9") as (H8 & _).
  destruct (extract_score_amended "Rating: 0.3") as (H10 & _).
  destruct (extract_score_amended "Score: 9007199254740993") as (H9 & _).
  destruct (extract_score_amended "Score: 1.2.3") as (_ & H6 & _).
  destruct (extract_score_amended "The answer is good and accurate, if incomplete.")
    as (_ & _ & H7).
  split; [|split; [|split; [|split; [|split; [|split; [|split; [|split; [|split]]]]]]]].
  - destruct (H1 eq_refl "8.5" (17 # 2)) as (_ & q & E & _ & H);
      [reflexivity | reflexivity | vm_compute; reflexivity|].
    change (Text.contains "/10" (Text.lower "Score: 8.5")) with false in H.
    destruct H as (_ & Hq & _).
    exists q. split; [exact E|]. rewrite Hq; [reflexivity | reflexivity | discriminate].
  - destruct (H2 eq_refl "7" 7%Q) as (_ & q & E & _ & H);
      [reflexivity | reflexivity | vm_compute; reflexivity|].
    change (Text.contains "/10" (Text.lower "7/10")) with true in H.
    destruct H as (Hq & _).
    exists q. split; [exact E|]. rewrite Hq. reflexivity.
  - destruct (H3 eq_refl "0.5" (1 # 2)) as (_ & q & E & _ & H);
      [reflexivity | reflexivity | vm_compute; reflexivity|].
    change (Text.contains "/10" (Text.lower "Rating: 0.5")) with false in H.
    destruct H as (Hq & _).
    exists q. split; [exact E|]. rewrite Hq; [reflexivity | discriminate].
  - destruct (H4 eq_refl "250" 250%Q) as (_ & q & E & _ & H);
      [reflexivity | reflexivity | vm_compute; reflexivity|].
    change (Text.contains "/10" (Text.lower "Score: 250")) with false in H.
    destruct H as (_ & _ & Hq & _).
    exists q. split; [exact E|]. rewrite Hq; reflexivity.
  - destruct (H5 eq_refl "1.0000000000000000001" 1%Q) as (_ & q & E & _ & H);
      [reflexivity | reflexivity | vm_compute; reflexivity|].
    change (Text.contains "/10" (Text.lower "Score: 1.0000000000000000001"))
      with false in H.
    destruct H as (Hq & _).
    exists q. split; [exact E|]. rewrite Hq; [reflexivity | discriminate].
  - destruct (H8 eq_refl "0.9" (8106479329266893 # 9007199254740992))
      as (_ & q & E & _ & H); [reflexivity | reflexivity | vm_compute; reflexivity|].
    change (Text.contains "/10" (Text.lower "Rating: 0.9")) with false in H.
    destruct H as (Hq & _).
    exists q. split; [exact E|]. rewrite Hq; [reflexivity | discriminate].
  - destruct (H10 eq_refl "0.3" (5404319552844595 # 18014398509481984))
      as (_ & q & E & _ & H); [reflexivity | reflexivity | vm_compute; reflexivity|].
    change (Text.contains "/10" (Text.lower "Rating: 0.3")) with false in H.
    destruct H as (Hq & _).
    exists q. split; [exact E|]. rewrite Hq; [reflexivity | discriminate].
  - destruct (H9 eq_refl "9007199254740993" 9007199254740992%Q) as (_ & q & E & _ & H);
      [reflexivity | reflexivity | vm_compute; reflexivity|].
    change (Text.contains "/10" (Text.lower "Score: 9007199254740993")) with false in H.
    destruct H as (_ & _ & Hq & _).
    exists q. split; [exact E|]. rewrite Hq; reflexivity.
  - apply (H6 "1.2.3"); reflexivity.
  - destruct (H7 eq_refl) as [[_ E]|[[Hc _]|[Hc _]]]; [exact E| |];
      vm_compute in Hc; discriminate.
Defined.

(** ** Providers: cost and reported errors *)

Section Providers.
Import BaseLLMProvider.

(** The cases of one call: the class, the rate, the key and the remote reply. *)
Ltac provider_cases self env :=
  unfold generate_completion, OpenAIProvider.generate_completion,
    AnthropicProvider.generate_completion, MockProvider.generate_completion,
    OpenAIProvider._create_mock_response, AnthropicProvider._create_mock_response,
    _create_response, calculate_cost;
  destruct (p_class self), (p_cost_per_1k_tokens self) as [rate|];
  try destruct (env_openai_key_is_dummy env);
  try destruct (env_anthropic_key_is_dummy env);
  try destruct (env_api env) as [[c n]|e0];
  cbn [mbind outcome_bind truthy negb Text.is_empty].

(** A response without error carries the cost of its tokens, at the rate of
    the provider, which is then a number. *)
Lemma generate_completion_cost (self : provider) env prompt response :
  generate_completion self env prompt = Return response ->
  error response = None ->
  exists cost_per_1k_tokens,
    p_cost_per_1k_tokens self = Some cost_per_1k_tokens /\
    (cost_usd response
     == inject_Z (tokens_used response) / 1000 * cost_per_1k_tokens)%Q.
Proof.
  provider_cases self env; intros [= <-]; try discriminate; intros _;
    eexists; (split; [reflexivity|]); cbn [cost_usd tokens_used];
    rewrite ?Qfloor_Z, ?Z.div_1_r; reflexivity.
Qed.

(** A response with an error has an empty content, no tokens and no cost,
    and its error text is not empty. *)
Lemma generate_completion_error (self : provider) env prompt response msg :
  generate_completion self env prompt = Return response ->
  error response = Some msg ->
  content response = Some "" /\ tokens_used response = 0 /\
  cost_usd response = 0.0%Q /\ truthy (Some msg) = true.
Proof.
  provider_cases self env; intros [= <-]; try discriminate; by intros [= <-].
Qed.

(** Only the mock provider raises, and only for want of a rate. *)
Lemma generate_completion_raises (self : provider) env prompt e :
  generate_completion self env prompt = Raise e <->
  p_class self = ClsMock /\ p_cost_per_1k_tokens self = None /\
  e = TypeError "unsupported operand type(s) for *: 'float' and 'NoneType'".
Proof.
  provider_cases self env; split; try discriminate;
    try (by intros (? & ? & ?)); try (by intros [= <-]); by intros (_ & _ & ->).
Qed.

(** The content of a response is a text, unless the response is built from
    a remote reply without text. *)
Lemma generate_completion_content (self : provider) env prompt response :
  generate_completion self env prompt = Return response ->
  content response = None <->
  reply_without_text (p_class self) env = true /\ is_Some (p_cost_per_1k_tokens self).
Proof.
  unfold reply_without_text.
  provider_cases self env; intros [= <-]; cbn [content]; split;
    try discriminate; try (by intros [? [? ?]]); try (by intros [[=] _]).
  all: try (destruct c; [discriminate | by split]).
  all: try (destruct c; by intros [[=] _]).
  all: try (destruct c; cbn; by intros [? [? ?]]).
Qed.

End Providers.

(** What [evaluate_pair] returns is built from the response of the provider
    registered for the model. *)
Lemma evaluate_pair_inv providers env eval_run_id model test_case r :
  EvaluationEngine.evaluate_pair providers env eval_run_id model test_case = Return r ->
  exists cls response,
    providers !! m_provider model = Some cls /\
    generate_completion (provider_of cls model) env (tc_input_text test_case)
    = Return response /\
    r_evaluation_run_id r = eval_run_id /\
    r_model_id r = m_id model /\ r_test_case_id r = tc_id test_case /\
    r_model_output r = content response /\
    r_response_time_ms r = response_time_ms response /\
    r_tokens_used r = tokens_used response /\
    r_cost_usd r = cost_usd response /\
    r_error_message r = error response.
Proof.
  unfold EvaluationEngine.evaluate_pair, LLMProviderFactory.create_provider. simpl.
  destruct (providers !! m_provider model) as [cls|]; [|discriminate]. simpl.
  fold (provider_of cls model).
  destruct (generate_completion _ env _) as [response|] eqn:Hg; [|discriminate]. simpl.
  destruct (EvaluationEngine.evaluators !! tc_category test_case) as [ev|];
    [|discriminate]. simpl.
  match goal with |- context [EvaluationEngine.evaluate_response ?a ?b ?c] =>
    destruct (EvaluationEngine.evaluate_response a b c) as [evaluation|] end;
    [|discriminate]. simpl.
  intros [= <-]. exists cls, response. simpl. repeat split; done.
Qed.

(** C8. A pair that ends without error is stored, by the commit of
    [_evaluate_single_case], with
    [cost_usd = tokens_used / 1000 * cost_per_1k_tokens] of its model, whose
    rate is then not null. *)
Theorem cost_usd_of_successful_pair providers env eval_run_id model test_case db db' r :
  EvaluationEngine._evaluate_single_case providers env eval_run_id model test_case db
  = (db', Return r) ->
  r_error_message r = None ->
  last (db_results db') = Some r /\
  exists cost_per_1k_tokens,
    m_cost_per_1k_tokens model = Some cost_per_1k_tokens /\
    (r_cost_usd r == inject_Z (r_tokens_used r) / 1000 * cost_per_1k_tokens)%Q.
Proof.
  unfold EvaluationEngine._evaluate_single_case.
  destruct (EvaluationEngine.evaluate_pair _ _ _ _ _) as [r0|e] eqn:Hr; [|discriminate].
  intros [= <- <-] Herr. split.
  - simpl. by rewrite app_assoc, last_snoc.
  - apply evaluate_pair_inv in Hr as (cls & response & _ & Hg & H).
    destruct H as (_ & _ & _ & _ & _ & -> & -> & He). rewrite He in Herr.
    apply (generate_completion_cost _ _ _ _ Hg Herr).
Qed.

Lemma cost_usd_of_successful_pair_witness :
  exists db' r,
    EvaluationEngine._evaluate_single_case LLMProviderFactory._providers Sample.env 1
      Sample.model_a Sample.case_reasoning (Sample.tables [] []) = (db', Return r) /\
    r_error_message r = None /\
    last (db_results db') = Some r /\
    m_cost_per_1k_tokens Sample.model_a = Some 0.01%Q /\
    (r_cost_usd r == inject_Z (r_tokens_used r) / 1000 * 0.01)%Q.
Proof.
  eexists _, _. split; [vm_compute; reflexivity|]. split; [reflexivity|].
  destruct (cost_usd_of_successful_pair LLMProviderFactory._providers Sample.env 1
              Sample.model_a Sample.case_reasoning (Sample.tables [] []) _ _
              ltac:(vm_compute; reflexivity) eq_refl)
    as (Hlast & rate & Hrate & Hcost).
  split; [exact Hlast|]. split; [reflexivity|].
  injection Hrate as <-. exact Hcost.
Defined.

(** ** The pairs of a run *)

Section Pairs.
Import EvaluationEngine.
Context (providers : gmap string provider_class) (world : Z -> Z -> call_env).
Context (eval_run_id : Z).

Lemma attempt_spec model test_case db all_results :
  db_pending_metrics db = [] ->
  let st := attempt providers world eval_run_id model (db, all_results) test_case in
  st.2 = all_results ++ [pair_row providers world eval_run_id model test_case] /\
  extends [pair_row providers world eval_run_id model test_case] db st.1.
Proof.
  intros Hp. unfold attempt, _evaluate_single_case, pair_row, extends, stored_results.
  destruct (evaluate_pair _ _ _ _ _) as [r|e]; simpl; rewrite ?Hp, ?app_nil_r.
  - repeat split; by rewrite ?app_nil_r, ?app_assoc.
  - repeat split; by rewrite ?app_assoc.
Qed.

Lemma extends_refl db : db_pending_metrics db = [] -> extends [] db db.
Proof. intros Hp. unfold extends. by rewrite app_nil_r. Qed.

Lemma extends_trans rows1 rows2 db db1 db2 :
  extends rows1 db db1 -> extends rows2 db1 db2 -> extends (rows1 ++ rows2) db db2.
Proof.
  intros (H1 & H2 & H3 & H4 & H5 & H6) (K1 & K2 & K3 & K4 & K5 & K6).
  unfold extends. rewrite K1, H1, K2, K4, K5, K6, app_assoc. by repeat split.
Qed.

Lemma attempts_spec model test_cases : forall db all_results,
  db_pending_metrics db = [] ->
  let st := foldl (attempt providers world eval_run_id model) (db, all_results)
              test_cases in
  st.2 = all_results ++ map (pair_row providers world eval_run_id model) test_cases /\
  extends (map (pair_row providers world eval_run_id model) test_cases) db st.1.
Proof.
  induction test_cases as [|tc tcs IH]; intros db all_results Hp;
    cbn [foldl fold_left map].
  - simpl. rewrite app_nil_r. by split; [|apply extends_refl].
  - destruct (attempt_spec model tc db all_results Hp) as [Ha He].
    destruct (attempt _ _ _ _ (db, all_results) tc) as [db1 all1]; simpl in *.
    destruct (IH db1 all1) as [Hb Hf]; [apply He|].
    split.
    + rewrite Hb, Ha, <- app_assoc. reflexivity.
    + by apply (extends_trans [_] _ db db1).
Qed.

Lemma run_pairs_spec test_cases models : forall db all_results,
  db_pending_metrics db = [] ->
  let st := run_pairs providers world eval_run_id models test_cases (db, all_results) in
  st.2 = all_results ++ run_rows providers world eval_run_id models test_cases /\
  extends (run_rows providers world eval_run_id models test_cases) db st.1.
Proof.
  unfold run_pairs.
  induction models as [|m ms IH]; intros db all_results Hp;
    cbn [foldl fold_left flat_map].
  - simpl. rewrite app_nil_r. by split; [|apply extends_refl].
  - destruct (attempts_spec m test_cases db all_results Hp) as [Ha He].
    destruct (foldl (attempt _ _ _ m) (db, all_results) test_cases) as [db1 all1];
      simpl in *.
    destruct (IH db1 all1) as [Hb Hf]; [apply He|].
    split.
    + by rewrite Hb, Ha, <- app_assoc.
    + by apply (extends_trans _ _ db db1).
Qed.

(** The keys of the row of a pair. *)
Lemma pair_row_keys model test_case :
  r_evaluation_run_id (pair_row providers world eval_run_id model test_case) = eval_run_id /\
  r_model_id (pair_row providers world eval_run_id model test_case) = m_id model /\
  r_test_case_id (pair_row providers world eval_run_id model test_case) = tc_id test_case.
Proof.
  unfold pair_row.
  destruct (evaluate_pair _ _ _ _ _) as [r|e] eqn:Hr; [|done].
  apply evaluate_pair_inv in Hr as (cls & response & _ & _ & H).
  by destruct H as (? & ? & ? & _).
Qed.

End Pairs.

(** ** The run record *)

Lemma next_run_id_fresh db r : In r (db_runs db) -> run_id r < Db.next_run_id db.
Proof.
  unfold Db.next_run_id. intros Hin.
  enough (run_id r <= foldr Z.max 0 (run_id <$> db_runs db)) by lia.
  induction (db_runs db) as [|r' rs IH]; [done|].
  cbn [fmap list_fmap foldr]. destruct Hin as [->|H]; [lia|].
  specialize (IH H). lia.
Qed.

Lemma set_status_last id status rs run :
  (forall r, In r rs -> run_id r <> id) -> run_id run = id ->
  (fun r => if run_id r =? id then with_status status r else r) <$> (rs ++ [run])
  = rs ++ [with_status status run].
Proof.
  intros Hrs Hrun. rewrite fmap_app. f_equal.
  - induction rs as [|r rs IH]; [done|]. rewrite fmap_cons, IH.
    + destruct (Z.eqb_spec (run_id r) id) as [E|_]; [|done].
      exfalso. eapply Hrs; [|exact E]. by left.
    + intros r' Hr'. apply Hrs. by right.
  - simpl. by rewrite Hrun, Z.eqb_refl.
Qed.

(** A status written to the new run changes its row only, and the commit
    flushes what is pending. *)
Lemma set_run_status_started name model_ids db db1 status :
  db_runs db1 = db_runs (started name model_ids db) ->
  exists run,
    db_runs (Db.set_run_status (Db.next_run_id db) status db1) = db_runs db ++ [run] /\
    run_id run = Db.next_run_id db /\ run_name run = name /\ run_status run = status.
Proof.
  intros Hr.
  exists {| run_id := Db.next_run_id db; run_name := name;
            run_description := "Evaluation of "
                               +:+ Float.string_of_nonneg (EvaluationEngine.Zlen model_ids)
                               +:+ " models";
            run_status := status |}.
  split; [|done]. unfold Db.set_run_status. simpl. rewrite Hr. simpl.
  apply (set_status_last (Db.next_run_id db) status (db_runs db)); [|done].
  intros r Hin E. apply next_run_id_fresh in Hin. unfold Db.next_run_id in *. lia.
Qed.

(** ** What aggregation stores *)

Section Aggregation.
Import EvaluationEngine.

Lemma add_metrics_nil db : add_metrics [] db = db.
Proof. destruct db. unfold add_metrics. simpl. by rewrite app_nil_r. Qed.

Lemma add_metrics_cons m ms db :
  add_metrics ms (Db.add_metric m db) = add_metrics (m :: ms) db.
Proof. unfold add_metrics, Db.add_metric. simpl. by rewrite <- app_assoc. Qed.

Lemma fold_add_metric {A} (f : A -> PerformanceMetrics) l : forall db,
  foldl (fun db g => Db.add_metric (f g) db) db l = add_metrics (map f l) db.
Proof.
  induction l as [|g l IH]; intros db; simpl.
  - by rewrite add_metrics_nil.
  - by rewrite IH, add_metrics_cons.
Qed.

Lemma fold_add_overall {A} (f : A -> option PerformanceMetrics) l : forall db,
  foldl (fun db x => match f x with
                     | Some m => Db.add_metric m db
                     | None => db
                     end) db l
  = add_metrics (omap f l) db.
Proof.
  induction l as [|x l IH]; intros db; simpl.
  - by rewrite add_metrics_nil.
  - rewrite IH. destruct (f x); [by rewrite add_metrics_cons | done].
Qed.

Lemma add_metrics_app ms1 ms2 db :
  add_metrics ms2 (add_metrics ms1 db) = add_metrics (ms1 ++ ms2) db.
Proof. unfold add_metrics. simpl. by rewrite <- app_assoc. Qed.

(** The ranking reads the flushed metrics of the run and nothing else: with
    no such row it changes nothing. *)
Lemma calculate_rankings_no_rows eval_run_id db :
  Db.query_metrics eval_run_id db = [] ->
  _calculate_rankings eval_run_id db = (Db.set_metrics (db_metrics db) db, Return tt).
Proof. intros H. unfold _calculate_rankings. by rewrite H. Qed.

Lemma set_metrics_same db : Db.set_metrics (db_metrics db) db = db.
Proof. by destruct db. Qed.

Lemma calculate_rankings_frame eval_run_id db :
  let out := _calculate_rankings eval_run_id db in
  db_runs out.1 = db_runs db /\ db_models out.1 = db_models db /\
  db_test_cases out.1 = db_test_cases db /\ db_results out.1 = db_results db /\
  db_pending_results out.1 = db_pending_results db /\
  db_pending_metrics out.1 = db_pending_metrics db.
Proof.
  unfold _calculate_rankings. by destruct (rank_categories _ _).
Qed.

Lemma query_metrics_add_metrics eval_run_id ms db :
  Db.query_metrics eval_run_id (add_metrics ms db) = Db.query_metrics eval_run_id db.
Proof. reflexivity. Qed.

Lemma generate_metrics_spec eval_run_id models db :
  let out := _generate_performance_metrics eval_run_id models db in
  stored_results out.1 = stored_results db /\
  db_runs out.1 = db_runs db /\ db_models out.1 = db_models db /\
  db_test_cases out.1 = db_test_cases db /\
  match group_results db (Db.query_results eval_run_id db) [] with
  | Raise e => out = (db, Raise e)
  | Return d =>
      exists store,
        stored_metrics out.1
        = store ++ db_pending_metrics db ++ aggregated eval_run_id models db d /\
        (out.2 = Return tt -> db_pending_metrics out.1 = []) /\
        (Db.query_metrics eval_run_id db = [] ->
         store = db_metrics db /\ out.2 = Return tt)
  end.
Proof.
  unfold _generate_performance_metrics.
  destruct (group_results db _ []) as [d|e]; [|done].
  rewrite fold_add_metric, fold_add_overall, add_metrics_app.
  fold (aggregated eval_run_id models db d).
  set (db2 := add_metrics (aggregated eval_run_id models db d) db).
  pose proof (calculate_rankings_frame eval_run_id db2) as (F1 & F2 & F3 & F4 & F5 & F6).
  pose proof (calculate_rankings_no_rows eval_run_id db2) as Hno.
  destruct (_calculate_rankings eval_run_id db2) as [db3 [[]|e]]; simpl in *;
    unfold stored_results, stored_metrics; simpl; rewrite ?F1, ?F2, ?F3, ?F4, ?F5, ?F6.
  - repeat split; [by rewrite app_nil_r|].
    exists (db_metrics db3). split; [by rewrite app_nil_r|]. split; [done|].
    intros Hq. specialize (Hno Hq). injection Hno as ->. done.
  - repeat split.
    exists (db_metrics db3). split; [done|]. split; [discriminate|].
    intros Hq. specialize (Hno Hq). discriminate.
Qed.

End Aggregation.

(** ** The run as a whole *)

Section Run.
Import EvaluationEngine.
Context (providers : gmap string provider_class) (world : Z -> Z -> call_env).
Context (evaluation_name : string) (model_ids : list Z).
Context (test_case_ids : option (list Z)) (categories : option (list string)).

Lemma run_unfold db :
  run providers world evaluation_name model_ids test_case_ids categories db =
  let id := Db.next_run_id db in
  let db1 := started evaluation_name model_ids db in
  match run_models model_ids db, run_test_cases test_case_ids categories db with
  | [], _ =>
      (Db.set_run_status id "failed" db1,
       Raise (ValueError "No active models found for evaluation"))
  | _ :: _, [] =>
      (Db.set_run_status id "failed" db1,
       Raise (ValueError "No test cases found for evaluation"))
  | _ :: _, _ :: _ =>
      let '(db2, all_results) :=
        run_pairs providers world id (run_models model_ids db) (run_test_cases test_case_ids categories db) (db1, []) in
      match _generate_performance_metrics id (run_models model_ids db) db2 with
      | (db3, Raise e) => (Db.set_run_status id "failed" db3, Raise e)
      | (db3, Return _) =>
          (Db.set_run_status id "completed" db3,
           Return {| evaluation_id := id; status := "completed";
                     total_results := Zlen all_results;
                     models_evaluated := Zlen (run_models model_ids db);
                     test_cases_run := Zlen (run_test_cases test_case_ids categories db) |})
      end
  end.
Proof. reflexivity. Qed.

Lemma run_rows_no_test_cases id models : run_rows providers world id models [] = [].
Proof. unfold run_rows. induction models; simpl; auto. Qed.

(** The tables after a run: the results of [db] followed by one row for
    each pair, nothing left pending, and one more run. *)
Lemma run_tables db :
  let id := Db.next_run_id db in
  let out := run providers world evaluation_name model_ids test_case_ids categories db in
  db_results out.1
  = db_results db ++ run_rows providers world id (run_models model_ids db) (run_test_cases test_case_ids categories db) /\
  db_pending_results out.1 = [] /\
  db_models out.1 = db_models db /\ db_test_cases out.1 = db_test_cases db /\
  exists r,
    db_runs out.1 = db_runs db ++ [r] /\ run_id r = id /\
    run_name r = evaluation_name /\
    run_status r = match out.2 with Return _ => "completed" | Raise _ => "failed" end.
Proof.
  cbv zeta. rewrite run_unfold. cbv zeta.
  destruct (run_models model_ids db) as [|m ms] eqn:Hm.
  { repeat split; try (simpl; by rewrite !app_nil_r).
    by apply (set_run_status_started evaluation_name model_ids). }
  destruct (run_test_cases test_case_ids categories db) as [|tc tcs] eqn:Ht.
  { rewrite run_rows_no_test_cases.
    repeat split; try (simpl; by rewrite !app_nil_r).
    by apply (set_run_status_started evaluation_name model_ids). }
  pose proof (run_pairs_spec providers world (Db.next_run_id db) (tc :: tcs) (m :: ms)
                (started evaluation_name model_ids db) [] eq_refl) as [Hall Hext].
  destruct (run_pairs _ _ _ _ _ _) as [db2 all_results]. simpl in Hall, Hext.
  destruct Hext as (E1 & E2 & E3 & E4 & E5 & E6).
  pose proof (generate_metrics_spec (Db.next_run_id db) (m :: ms) db2)
    as (G1 & G2 & G3 & G4 & _).
  destruct (_generate_performance_metrics _ _ db2) as [db3 [[]|e]];
    cbn [fst snd] in *;
    (repeat split;
     [ change (stored_results db3 = db_results db ++
                 run_rows providers world (Db.next_run_id db) (m :: ms) (tc :: tcs));
       rewrite G1, E1; unfold stored_results; simpl; by rewrite !app_nil_r
     | simpl in E5; simpl; congruence | simpl in E6; simpl; congruence
     | apply (set_run_status_started evaluation_name model_ids); congruence ]).
Qed.

End Run.

(** ** One row for each pair *)

Section PairRows.
Import EvaluationEngine.
Context (providers : gmap string provider_class) (world : Z -> Z -> call_env).
Context (id : Z).

Lemma of_pair_row model test_case m tc :
  of_pair id model test_case (pair_row providers world id m tc)
  = (m_id m =? m_id model) && (tc_id tc =? tc_id test_case).
Proof.
  unfold of_pair. destruct (pair_row_keys providers world id m tc) as (-> & -> & ->).
  by rewrite Z.eqb_refl.
Qed.

Lemma NoDup_map_filter {A B} (f : A -> B) (p : A -> bool) l :
  NoDup (map f l) -> NoDup (map f (List.filter p l)).
Proof.
  induction l as [|x l IH]; simpl; [done|].
  rewrite NoDup_cons. intros [Hx Hl]. destruct (p x); simpl; [|auto].
  apply NoDup_cons. split; [|auto].
  rewrite list_elem_of_In, in_map_iff in *. intros (y & Hy & Hin).
  apply Hx. exists y. split; [done|]. by apply filter_In in Hin as [? _].
Qed.

Lemma filter_rows_other model test_case m test_cases :
  m_id m <> m_id model ->
  List.filter (of_pair id model test_case) (map (pair_row providers world id m) test_cases)
  = [].
Proof.
  intros Hne. induction test_cases as [|tc tcs IH]; simpl; [done|].
  rewrite of_pair_row. by destruct (Z.eqb_spec (m_id m) (m_id model)).
Qed.

Lemma filter_rows_absent model test_case test_cases :
  ~ In (tc_id test_case) (map tc_id test_cases) ->
  List.filter (of_pair id model test_case)
    (map (pair_row providers world id model) test_cases) = [].
Proof.
  induction test_cases as [|tc tcs IH]; simpl; [done|]. intros Hn.
  rewrite of_pair_row.
  destruct (Z.eqb_spec (tc_id tc) (tc_id test_case)) as [E|_]; [tauto|].
  rewrite andb_false_r. apply IH. tauto.
Qed.

Lemma filter_rows_same model test_case test_cases :
  NoDup (map tc_id test_cases) -> In test_case test_cases ->
  List.filter (of_pair id model test_case)
    (map (pair_row providers world id model) test_cases)
  = [pair_row providers world id model test_case].
Proof.
  induction test_cases as [|tc tcs IH]; simpl; [done|].
  rewrite NoDup_cons, list_elem_of_In. intros [Hn Hd] Hin.
  rewrite of_pair_row, Z.eqb_refl. simpl.
  destruct Hin as [->|Hin].
  - rewrite Z.eqb_refl. f_equal. by apply filter_rows_absent.
  - destruct (Z.eqb_spec (tc_id tc) (tc_id test_case)) as [E|_]; [|auto].
    exfalso. apply Hn. rewrite E. by apply in_map.
Qed.

Lemma filter_run_rows_absent model test_case models test_cases :
  ~ In (m_id model) (map m_id models) ->
  List.filter (of_pair id model test_case) (run_rows providers world id models test_cases)
  = [].
Proof.
  unfold run_rows. induction models as [|m ms IH]; simpl; [done|]. intros Hn.
  rewrite List.filter_app, filter_rows_other, IH; tauto.
Qed.

Lemma filter_run_rows model test_case models test_cases :
  NoDup (map m_id models) -> NoDup (map tc_id test_cases) ->
  In model models -> In test_case test_cases ->
  List.filter (of_pair id model test_case) (run_rows providers world id models test_cases)
  = [pair_row providers world id model test_case].
Proof.
  intros Hm Ht Hin Hin'. unfold run_rows.
  induction models as [|m ms IH]; simpl in *; [done|].
  apply NoDup_cons in Hm as [Hn Hd]. rewrite list_elem_of_In in Hn.
  rewrite List.filter_app. destruct Hin as [->|Hin].
  - rewrite filter_rows_same by done.
    fold (run_rows providers world id ms test_cases).
    by rewrite filter_run_rows_absent.
  - rewrite filter_rows_other, IH; [done..|].
    intros E. apply Hn. rewrite E. by apply in_map.
Qed.

End PairRows.

Lemma filter_none {A} (p : A -> bool) l :
  (forall x, In x l -> p x = false) -> List.filter p l = [].
Proof.
  induction l as [|x l IH]; simpl; [done|]. intros H.
  rewrite (H x) by auto. apply IH. auto.
Qed.

Lemma run_id_fresh db x : In x (map run_id (db_runs db)) -> x <> Db.next_run_id db.
Proof.
  rewrite in_map_iff. intros (r & <- & Hin). apply next_run_id_fresh in Hin. lia.
Qed.

Lemma run_models_key model_ids db :
  NoDup (map m_id (db_models db)) -> NoDup (map m_id (run_models model_ids db)).
Proof. apply NoDup_map_filter. Qed.

Lemma run_test_cases_key test_case_ids categories db :
  NoDup (map tc_id (db_test_cases db)) ->
  NoDup (map tc_id (run_test_cases test_case_ids categories db)).
Proof.
  intros H. unfold run_test_cases, Db.query_test_cases.
  destruct (EvaluationEngine.given test_case_ids), (EvaluationEngine.given categories);
    auto using @NoDup_map_filter.
Qed.

(** C1, as the specification states it, fails for a provider error: the
    response that reports the error is scored like any other, and its row
    keeps that score and the measured time. *)
Lemma provider_error_row_is_scored :
  let out := Sample.run [Sample.model_c] [Sample.case_reasoning] in
  exists row,
    db_results out.1 = [row] /\
    r_error_message row = Some "OpenAI API error: Connection error." /\
    ~ (r_accuracy_score row == 0.0)%Q /\ ~ (r_response_time_ms row == 0)%Q.
Proof.
  eexists. split; [vm_compute; reflexivity|]. split; [reflexivity|].
  split; by vm_compute.
Qed.

(** C1, amended.  In a run on well-keyed tables, every pair of a resolved
    model and a resolved test case has exactly one row in the results table
    afterwards, whatever happens to the other pairs.  When the attempt
    raises (unknown provider type, no scorer for the category, an exception
    of the provider or of the scorer), the row has the text of the exception
    as [error_message], an empty output and zero score, time, tokens and cost.
    When the provider reports an error in its response, the row is the one
    built from that response: it has the error message, an empty output,
    zero tokens and zero cost. *)
Theorem failed_pair_isolated providers world evaluation_name model_ids test_case_ids
    categories db model test_case :
  well_keyed db ->
  In model (run_models model_ids db) ->
  In test_case (run_test_cases test_case_ids categories db) ->
  let id := Db.next_run_id db in
  let out := run providers world evaluation_name model_ids test_case_ids categories db in
  exists row,
    List.filter (of_pair id model test_case) (db_results out.1) = [row] /\
    match EvaluationEngine.evaluate_pair providers
            (world (m_id model) (tc_id test_case)) id model test_case with
    | Raise e =>
        r_error_message row = Some (str_exn e) /\ r_model_output row = Some "" /\
        r_accuracy_score row = 0.0%Q /\ r_response_time_ms row = 0.0%Q /\
        r_tokens_used row = 0 /\ r_cost_usd row = 0.0%Q
    | Return result =>
        row = result /\
        forall msg, r_error_message result = Some msg ->
          r_model_output result = Some "" /\ r_tokens_used result = 0 /\
          r_cost_usd result = 0.0%Q
    end.
Proof.
  intros [Km Kt Kr _] Hm Ht id out.
  destruct (run_tables providers world evaluation_name model_ids test_case_ids
              categories db) as (Hres & _).
  exists (pair_row providers world id model test_case). split.
  - subst out id. rewrite Hres, List.filter_app.
    rewrite filter_run_rows;
      [|by apply run_models_key|by apply run_test_cases_key|done|done].
    rewrite filter_none; [done|]. intros r Hr.
    unfold of_pair. apply Kr, run_id_fresh in Hr.
    by destruct (Z.eqb_spec (r_evaluation_run_id r) (Db.next_run_id db)).
  - unfold pair_row.
    destruct (EvaluationEngine.evaluate_pair _ _ _ _ _) as [r|e] eqn:Hp; [|done].
    split; [done|]. intros msg Hmsg.
    apply evaluate_pair_inv in Hp as (cls & response & _ & Hg & H).
    destruct H as (_ & _ & _ & -> & _ & -> & -> & He). rewrite He in Hmsg.
    apply (generate_completion_error _ _ _ _ _ Hg) in Hmsg. tauto.
Qed.

Lemma sample_tables_well_keyed :
  well_keyed (Sample.tables [Sample.model_a; Sample.model_b; Sample.model_c]
                [Sample.case_reasoning; Sample.case_qa]).
Proof.
  split; simpl; try tauto;
    repeat (apply NoDup_cons_2;
            [rewrite list_elem_of_In; simpl; intuition discriminate|]);
    apply NoDup_nil_2.
Defined.

Lemma failed_pair_isolated_witness :
  let db := Sample.tables [Sample.model_a; Sample.model_b; Sample.model_c]
              [Sample.case_reasoning; Sample.case_qa] in
  let out := run LLMProviderFactory._providers Sample.world "sample" [1; 2; 3]
               None None db in
  well_keyed db /\
  In Sample.model_b (run_models [1; 2; 3] db) /\
  In Sample.case_reasoning (run_test_cases None None db) /\
  exists row,
    List.filter (of_pair 1 Sample.model_b Sample.case_reasoning) (db_results out.1)
    = [row] /\
    r_error_message row = Some "Unknown provider type: local" /\
    r_accuracy_score row = 0.0%Q /\ r_tokens_used row = 0.
Proof.
  intros db out.
  assert (Hm : In Sample.model_b (run_models [1; 2; 3] db)) by (right; left; reflexivity).
  assert (Ht : In Sample.case_reasoning (run_test_cases None None db))
    by (left; reflexivity).
  split; [exact sample_tables_well_keyed|]. split; [exact Hm|]. split; [exact Ht|].
  destruct (failed_pair_isolated LLMProviderFactory._providers Sample.world "sample"
              [1; 2; 3] None None db Sample.model_b Sample.case_reasoning
              sample_tables_well_keyed Hm Ht) as (row & Hrow & H).
  exists row. split; [exact Hrow|].
  change (EvaluationEngine.evaluate_pair _ _ _ _ _)
    with (@Raise EvaluationResult (ValueError "Unknown provider type: local")) in H.
  destruct H as (He & _ & Ha & _ & Hn & _). repeat split; assumption.
Defined.

(** ** Validation of the request *)

(** C2, as the specification states it, fails: the run record is committed
    before the models are looked up, and it stays in the table, marked
    [failed], when no requested model is active. *)
Lemma run_row_persisted_on_validation_error :
  let out := Sample.run [Sample.model_inactive] [Sample.case_reasoning] in
  out.2 = Raise (ValueError "No active models found for evaluation") /\
  db_runs out.1 = [{| run_id := 1; run_name := "sample";
                      run_description := "Evaluation of 1 models";
                      run_status := "failed" |}].
Proof. split; vm_compute; reflexivity. Qed.

(** C2, amended.  When the requested model ids resolve to no active model,
    or the resolved set of test cases is empty, [run_evaluation] raises a
    [ValueError]; by then the run record exists, and it is left in the table
    with status [failed]; no result and no metric is stored. *)
Theorem validation_error_after_run_created providers world evaluation_name model_ids
    test_case_ids categories db :
  run_models model_ids db = [] \/ run_test_cases test_case_ids categories db = [] ->
  let out := run providers world evaluation_name model_ids test_case_ids categories db in
  (exists msg, out.2 = Raise (ValueError msg)) /\
  (exists r, db_runs out.1 = db_runs db ++ [r] /\
             run_id r = Db.next_run_id db /\ run_status r = "failed") /\
  db_results out.1 = db_results db /\ db_metrics out.1 = db_metrics db.
Proof.
  intros Hempty out.
  destruct (run_tables providers world evaluation_name model_ids test_case_ids
              categories db) as (Hres & _ & _ & _ & r & Hruns & Hid & _ & Hst).
  fold out in Hres, Hruns, Hst.
  assert (Hout : (exists msg, out.2 = Raise (ValueError msg)) /\
                 db_metrics out.1 = db_metrics db).
  { subst out. rewrite run_unfold. cbv zeta.
    destruct (run_models model_ids db) as [|m ms].
    - split; [by eexists|]. simpl. by rewrite !app_nil_r.
    - destruct Hempty as [ Hm | Ht ]; [done|]; rewrite Ht.
      split; [by eexists|]. simpl. by rewrite !app_nil_r. }
  destruct Hout as [[msg Hmsg] Hmet]. rewrite Hmsg in Hst.
  split; [by exists msg|]. split; [by exists r|]. split; [|done].
  rewrite Hres. destruct Hempty as [ Hm | Ht ]; [by rewrite Hm, app_nil_r|]; rewrite Ht.
  by rewrite run_rows_no_test_cases, app_nil_r.
Qed.

Lemma validation_error_after_run_created_witness :
  let db := Sample.tables [Sample.model_inactive] [Sample.case_reasoning] in
  let out := run LLMProviderFactory._providers Sample.world "sample" [4] None None db in
  run_models [4] db = [] /\
  (exists msg, out.2 = Raise (ValueError msg)) /\
  (exists r, db_runs out.1 = db_runs db ++ [r] /\
             run_id r = Db.next_run_id db /\ run_status r = "failed").
Proof.
  intros db out. split; [reflexivity|].
  destruct (validation_error_after_run_created LLMProviderFactory._providers
              Sample.world "sample" [4] None None db (or_introl eq_refl))
    as (H1 & H2 & _).
  split; assumption.
Defined.

(** ** Dictionaries in insertion order *)

Section DictFacts.
Context {K V : Type} (eqb : K -> K -> bool).
Context (eqb_eq : forall a b, eqb a b = true <-> a = b).

Lemma eqb_refl_true a : eqb a a = true.
Proof. by apply eqb_eq. Qed.

Lemma dict_get_update k k' init (f : V -> V) d :
  dict_get eqb k' (dict_update eqb k init f d)
  = if eqb k' k then Some (f (default init (dict_get eqb k d)))
    else dict_get eqb k' d.
Proof.
  induction d as [|[k0 v] d IH]; simpl.
  - by destruct (eqb k' k).
  - destruct (eqb k k0) eqn:E; simpl.
    + apply eqb_eq in E as <-. by destruct (eqb k' k).
    + rewrite IH. destruct (eqb k' k0) eqn:E'; [|done].
      apply eqb_eq in E' as ->.
      destruct (eqb k0 k) eqn:E''; [|done].
      apply eqb_eq in E'' as ->. by rewrite eqb_refl_true in E.
Qed.

Lemma dict_update_key_in k k1 init (f : V -> V) d :
  In k1 (map fst (dict_update eqb k init f d)) -> k1 = k \/ In k1 (map fst d).
Proof.
  induction d as [|[k0 v] d IH]; simpl.
  - intros [<-|[]]. by left.
  - destruct (eqb k k0); simpl; [tauto|]. intros [<-|H]; [tauto|].
    destruct (IH H); tauto.
Qed.

Lemma dict_update_keys k init (f : V -> V) d :
  NoDup (map fst d) -> NoDup (map fst (dict_update eqb k init f d)).
Proof.
  induction d as [|[k0 v] d IH]; simpl.
  - intros _. apply NoDup_singleton.
  - rewrite NoDup_cons. intros [Hn Hd]. destruct (eqb k k0) eqn:E; simpl.
    + by apply NoDup_cons.
    + apply NoDup_cons. split; [|auto].
      rewrite list_elem_of_In in *. intros Hin.
      apply dict_update_key_in in Hin as [->|Hin]; [|done].
      by rewrite eqb_refl_true in E.
Qed.

Lemma dict_get_in k v (d : list (K * V)) :
  NoDup (map fst d) -> In (k, v) d -> dict_get eqb k d = Some v.
Proof.
  induction d as [|[k0 v0] d IH]; simpl; [done|].
  rewrite NoDup_cons. intros [Hn Hd] [[= -> ->]|Hin].
  - by rewrite eqb_refl_true.
  - destruct (eqb k k0) eqn:E; [|auto].
    apply eqb_eq in E as ->. exfalso. apply Hn.
    rewrite list_elem_of_In, in_map_iff. by exists (k0, v).
Qed.

End DictFacts.

Lemma key_eqb_eq (a b : Z * string) : EvaluationEngine.key_eqb a b = true <-> a = b.
Proof.
  destruct a as [a1 a2], b as [b1 b2]. unfold EvaluationEngine.key_eqb. simpl.
  rewrite andb_true_iff, Z.eqb_eq, String.eqb_eq. split; [by intros [-> ->]|].
  by intros [= -> ->].
Qed.

(** ** The statistics of a group *)

Section Groups.
Import EvaluationEngine.

Lemma stats_from_fields l : forall st,
  total_count (stats_from st l) = total_count st + Zlen l /\
  success_count (stats_from st l) = success_count st + Zlen (List.filter successful l) /\
  scores (stats_from st l) = scores st ++ map r_accuracy_score (List.filter successful l) /\
  response_times (stats_from st l)
  = response_times st ++ map r_response_time_ms (List.filter successful l) /\
  costs (stats_from st l) = costs st ++ map r_cost_usd (List.filter successful l) /\
  tokens (stats_from st l) = tokens st ++ map r_tokens_used (List.filter successful l).
Proof.
  unfold Zlen. induction l as [|r l IH]; intros st.
  - simpl. rewrite !app_nil_r. repeat split; lia.
  - change (stats_from st (r :: l)) with (stats_from (record_result r st) l).
    destruct (IH (record_result r st)) as (H1 & H2 & H3 & H4 & H5 & H6).
    rewrite H1, H2, H3, H4, H5, H6. clear. unfold record_result.
    cbn [List.filter length]. fold (successful r).
    destruct (successful r); cbn [total_count success_count scores response_times
                                  costs tokens length map];
      rewrite <- ?app_assoc; repeat split; try reflexivity; lia.
Qed.

Lemma group_results_get db rs : forall d d',
  group_results db rs d = Return d' ->
  forall k,
    dict_get key_eqb k d'
    = match List.filter (in_group db k) rs with
      | [] => dict_get key_eqb k d
      | grp => Some (stats_from (default empty_stats (dict_get key_eqb k d)) grp)
      end.
Proof.
  induction rs as [|r rs IH]; intros d d'; simpl.
  - by intros [= <-].
  - unfold in_group at 1, key_of.
    destruct (Db.test_case_of r db) as [tc|]; [|discriminate]. simpl.
    intros H k. rewrite (IH _ _ H k), (dict_get_update key_eqb key_eqb_eq).
    destruct (key_eqb k (r_model_id r, tc_category tc)) eqn:E.
    + apply key_eqb_eq in E as ->. by destruct (List.filter _ rs).
    + done.
Qed.

Lemma group_results_keys db rs : forall d d',
  NoDup (map fst d) -> group_results db rs d = Return d' -> NoDup (map fst d').
Proof.
  induction rs as [|r rs IH]; intros d d' Hd; simpl.
  - by intros [= <-].
  - destruct (Db.test_case_of r db) as [tc|]; [|discriminate].
    apply IH. by apply (dict_update_keys key_eqb key_eqb_eq).
Qed.

(** The entry of a key holds the statistics of the results with that key. *)
Lemma group_results_entry db rs d k st :
  group_results db rs [] = Return d -> In (k, st) d ->
  st = stats_from empty_stats (List.filter (in_group db k) rs) /\
  List.filter (in_group db k) rs <> [].
Proof.
  intros Hg Hin.
  pose proof (group_results_keys db rs [] d (NoDup_nil_2) Hg) as Hk.
  apply (dict_get_in key_eqb key_eqb_eq _ _ _ Hk) in Hin.
  rewrite (group_results_get db rs [] d Hg k) in Hin. simpl in Hin.
  destruct (List.filter (in_group db k) rs); [done|].
  by injection Hin as <-.
Qed.

End Groups.

Lemma successful_false r :
  successful r = false <-> exists s, r_error_message r = Some s /\ s <> "".
Proof.
  unfold successful, truthy. destruct (r_error_message r) as [[|c s]|]; simpl; split;
    try discriminate; try done.
  - intros (s & [= <-] & H). done.
  - intros _. by eexists.
  - intros (s & [=] & _).
Qed.

(** C5 on the code.  The row of a pair that raises is stored by the
    [except] branch of the loop with [db.add] alone, and the session, built
    with [autoflush=False], does not flush before a query: when no pair
    returns after it, the row is still pending while the aggregation reads
    the results.  Here one model answers two questions and the scorer raises
    on the one without expected output.  With that question last, the run
    stores two rows of the group, one of them with an error message, and the
    metrics count one result only: their [success_rate] is 1.  With that
    question first, the commit of the second pair flushes the row, and the
    metrics count both results: their [success_rate] is 1/2. *)
Lemma pending_error_row_not_counted :
  let error_last := Sample.run [Sample.model_a] [Sample.case_qa; Sample.case_qa_open] in
  let error_first := Sample.run [Sample.model_a] [Sample.case_qa_open; Sample.case_qa] in
  let results (out : Session * outcome summary) :=
    map (fun r => (r_model_id r, r_test_case_id r, r_error_message r))
        (db_results out.1) in
  let rates (out : Session * outcome summary) :=
    map (fun m => (pm_model_id m, pm_category m, Qred (pm_success_rate m)))
        (db_metrics out.1) in
  (results error_last
   = [ (1, 2, None);
       (1, 4, Some "'NoneType' object has no attribute 'lower'") ] /\
   rates error_last = [ (1, "qa", 1%Q); (1, "overall", 1%Q) ]) /\
  (results error_first
   = [ (1, 4, Some "'NoneType' object has no attribute 'lower'");
       (1, 2, None) ] /\
   rates error_first = [ (1, "qa", 1 # 2); (1, "overall", 1 # 2) ]).
Proof. repeat split; vm_compute; reflexivity. Qed.

(** X28. Over the results that the aggregation reads, the group of a key
    [(model_id, category)] has as [total_count] the number of the results of
    the key, while [success_count], the averages and the sums are taken over
    those whose [error_message] is null or empty: a result with a non-empty
    [error_message] adds one to [total_count] and nothing else.
    [success_rate] is [success_count / total_count], and [total_count] is at
    least 1. *)
Theorem group_statistics eval_run_id db rs d k st :
  EvaluationEngine.group_results db rs [] = Return d -> In (k, st) d ->
  let group := List.filter (in_group db k) rs in
  let ok := List.filter successful group in
  let metric := EvaluationEngine.group_metric eval_run_id (k, st) in
  total_count st = EvaluationEngine.Zlen group /\ 1 <= total_count st /\
  success_count st = EvaluationEngine.Zlen ok /\
  pm_avg_accuracy metric
  = match ok with
    | [] => 0.0%Q
    | _ => (Qsum (map r_accuracy_score ok) / inject_Z (EvaluationEngine.Zlen ok))%Q
    end /\
  pm_avg_response_time metric
  = match ok with
    | [] => 0.0%Q
    | _ => (Qsum (map r_response_time_ms ok) / inject_Z (EvaluationEngine.Zlen ok))%Q
    end /\
  pm_total_cost metric
  = match ok with [] => 0.0%Q | _ => Qsum (map r_cost_usd ok) end /\
  pm_total_tokens metric = Zsum (map r_tokens_used ok) /\
  pm_success_rate metric
  = (inject_Z (success_count st) / inject_Z (total_count st))%Q.
Proof.
  intros Hg Hin group ok metric.
  destruct (group_results_entry db rs d k st Hg Hin) as [Hst Hne].
  fold group in Hst, Hne.
  destruct (stats_from_fields group EvaluationEngine.empty_stats)
    as (H1 & H2 & H3 & H4 & H5 & H6).
  rewrite <- Hst in *. simpl in H1, H2, H3, H4, H5, H6. fold ok in H2, H3, H4, H5, H6.
  split; [done|]. split.
  { rewrite H1. unfold EvaluationEngine.Zlen. destruct group; [done|]. simpl. lia. }
  split; [done|].
  subst metric. destruct k as [model_id category].
  unfold EvaluationEngine.group_metric. rewrite H3, H4, H5, H6.
  unfold EvaluationEngine.Zlen. rewrite !length_map.
  by destruct ok.
Qed.

Lemma group_statistics_witness :
  let failed := EvaluationEngine.error_result 1 Sample.model_b Sample.case_qa
                  (ValueError "Unknown provider type: local") in
  let passed :=
    {| r_evaluation_run_id := 1; r_model_id := 2; r_test_case_id := 2;
       r_model_output := Some "Paris"; r_accuracy_score := 0.8%Q;
       r_response_time_ms := 100%Q; r_tokens_used := 50; r_cost_usd := 0.001%Q;
       r_error_message := None; r_agent_feedback := None |} in
  let db := Sample.tables [Sample.model_b] [Sample.case_qa] in
  exists st,
    EvaluationEngine.group_results db [passed; failed] [] = Return [((2, "qa"), st)] /\
    total_count st = 2 /\ success_count st = 1 /\
    pm_avg_accuracy (EvaluationEngine.group_metric 1 ((2, "qa"), st)) = (0.8 / 1)%Q.
Proof.
  intros failed passed db.
  pose (st := stats_from EvaluationEngine.empty_stats [passed; failed]).
  assert (Hg : EvaluationEngine.group_results db [passed; failed] []
               = Return [((2, "qa"), st)]) by reflexivity.
  exists st. split; [exact Hg|].
  destruct (group_statistics 1 db [passed; failed] _ (2, "qa") st Hg (or_introl eq_refl))
    as (H1 & _ & H2 & H3 & _).
  split; [exact H1|]. split; [exact H2|]. exact H3.
Defined.

(** ** The overall rollup *)

(** C6 on the code.  For the same reason a model whose pairs all raise
    after the last pair that returns has no row among the results that the
    aggregation reads, and the guard [if model_results:] leaves it without
    its ["overall"] metric.  A model with an unregistered provider type gets
    no metric at all when it is evaluated alone or last, although its row is
    stored; evaluated first, its row is flushed by the commit of the next
    pair and it gets its metrics, with the zeros that the rollup gives to a
    model without success. *)
Lemma no_overall_row_for_pending_results :
  let alone := Sample.run [Sample.model_b] [Sample.case_reasoning] in
  let failing_last :=
    Sample.run [Sample.model_a; Sample.model_b] [Sample.case_reasoning] in
  let failing_first :=
    Sample.run [Sample.model_b; Sample.model_a] [Sample.case_reasoning] in
  let results (out : Session * outcome summary) :=
    map (fun r => (r_model_id r, r_error_message r)) (db_results out.1) in
  let metrics (out : Session * outcome summary) :=
    map (fun m => (pm_model_id m, pm_category m, Qred (pm_avg_accuracy m),
                   Qred (pm_success_rate m))) (db_metrics out.1) in
  ((exists s, alone.2 = Return s /\ models_evaluated s = 1 /\ total_results s = 1) /\
   results alone = [ (2, Some "Unknown provider type: local") ] /\
   metrics alone = []) /\
  (results failing_last = [ (1, None); (2, Some "Unknown provider type: local") ] /\
   metrics failing_last
   = [ (1, "reasoning", 9 # 10, 1%Q); (1, "overall", 9 # 10, 1%Q) ]) /\
  (results failing_first = [ (2, Some "Unknown provider type: local"); (1, None) ] /\
   metrics failing_first
   = [ (2, "reasoning", 0%Q, 0%Q); (1, "reasoning", 9 # 10, 1%Q);
       (2, "overall", 0%Q, 0%Q); (1, "overall", 9 # 10, 1%Q) ]).
Proof.
  split; [split; [|split]|split; split]; try (vm_compute; reflexivity).
  eexists. repeat split; vm_compute; reflexivity.
Qed.

(** The statistics of the rollup of one model. *)
Lemma overall_metric_fields eval_run_id results model :
  let model_results := List.filter (fun r => r_model_id r =? m_id model) results in
  let ok := List.filter successful model_results in
  model_results <> [] ->
  exists m,
    EvaluationEngine.overall_metric eval_run_id results model = Some m /\
    pm_evaluation_run_id m = eval_run_id /\ pm_model_id m = m_id model /\
    pm_category m = "overall" /\
    pm_avg_accuracy m
    = match ok with
      | [] => 0.0%Q
      | _ => (Qsum (map r_accuracy_score ok) / inject_Z (EvaluationEngine.Zlen ok))%Q
      end /\
    pm_avg_response_time m
    = match ok with
      | [] => 0.0%Q
      | _ => (Qsum (map r_response_time_ms ok) / inject_Z (EvaluationEngine.Zlen ok))%Q
      end /\
    pm_total_cost m = match ok with [] => 0.0%Q | _ => Qsum (map r_cost_usd ok) end /\
    pm_total_tokens m = match ok with [] => 0 | _ => Zsum (map r_tokens_used ok) end /\
    pm_success_rate m
    = (inject_Z (EvaluationEngine.Zlen ok)
       / inject_Z (EvaluationEngine.Zlen model_results))%Q.
Proof.
  cbv zeta. unfold EvaluationEngine.overall_metric, successful.
  generalize (List.filter (fun r => r_model_id r =? m_id model) results) as mr.
  intros mr Hne. destruct mr as [|r0 rs0]; [done|].
  generalize (r0 :: rs0) as mr. intros mr.
  generalize (List.filter (fun r => negb (truthy (r_error_message r))) mr) as ok.
  intros ok. destruct ok; (eexists; split; [reflexivity|done]).
Qed.





(** ** Ranking *)

(** C3 on the code.  The metrics of a run are still pending when
    [_calculate_rankings] queries them, the session being built with
    [autoflush=False]: the query returns no row of the run, no rank is
    assigned, and the commit stores the metrics with their four rank fields
    null.  Here two models are evaluated on one test case, so that each
    group has two rows. *)
Lemma ranks_unassigned_after_run :
  let out := Sample.run [Sample.model_a; Sample.model_e] [Sample.case_reasoning] in
  (exists s, out.2 = Return s /\ status s = "completed") /\
  map ranks (db_metrics out.1)
  = [ (1, "reasoning", None, None, None, None);
      (5, "reasoning", None, None, None, None);
      (1, "overall", None, None, None, None);
      (5, "overall", None, None, None, None) ].
Proof.
  split.
  - eexists. split; vm_compute; reflexivity.
  - vm_compute. reflexivity.
Qed.

(** C4 on the code.  For the same reason [overall_rank] is never written:
    after the run it is null in every metric.  Ranking the same rows once
    they are flushed gives the positions by descending weighted points, 1
    for the model that is better on the three criteria and 2 for the other. *)
Lemma overall_rank_unassigned_after_run :
  let out := Sample.run [Sample.model_a; Sample.model_e] [Sample.case_qa] in
  map pm_overall_rank (db_metrics out.1) = [None; None; None; None] /\
  map ranks (db_metrics (EvaluationEngine._calculate_rankings 1 out.1).1)
  = [ (1, "qa", Some 1, Some 1, Some 1, Some 1%Q);
      (5, "qa", Some 2, Some 2, Some 2, Some 2%Q);
      (1, "overall", Some 1, Some 1, Some 1, Some 1%Q);
      (5, "overall", Some 2, Some 2, Some 2, Some 2%Q) ].
Proof. split; vm_compute; reflexivity. Qed.

Lemma aggregated_unranked eval_run_id models db d m :
  In m (aggregated eval_run_id models db d) ->
  pm_evaluation_run_id m = eval_run_id /\ unranked m.
Proof.
  unfold aggregated. rewrite in_app_iff, in_map_iff. intros [(g & <- & _)|H].
  - destruct g as [[model_id category] st]. unfold EvaluationEngine.group_metric.
    by destruct (scores st).
  - apply list_elem_of_In, list_elem_of_omap in H as (model & _ & H).
    unfold EvaluationEngine.overall_metric in H.
    destruct (List.filter _ _) as [|r0 rs0]; [done|].
    destruct (List.filter _ (r0 :: rs0)); injection H as <-; done.
Qed.

Lemma query_metrics_none id db :
  (forall m, In m (db_metrics db) -> pm_evaluation_run_id m <> id) ->
  Db.query_metrics id db = [].
Proof.
  intros H. unfold Db.query_metrics. apply filter_none. intros i _.
  destruct (db_metrics db !! i) as [m|] eqn:E; [|done].
  apply list_elem_of_lookup_2, list_elem_of_In, H in E.
  by destruct (Z.eqb_spec (pm_evaluation_run_id m) id).
Qed.

(** On well-keyed tables no run ever ranks its own metrics: the metrics of
    the new run are all stored without ranks. *)
Lemma ranks_never_assigned providers world evaluation_name model_ids test_case_ids
    categories db m :
  well_keyed db ->
  let out := run providers world evaluation_name model_ids test_case_ids categories db in
  In m (db_metrics out.1) -> pm_evaluation_run_id m = Db.next_run_id db ->
  unranked m.
Proof.
  intros [_ _ _ Km] out.
  assert (Hold : forall m, In m (db_metrics db) ->
                           pm_evaluation_run_id m <> Db.next_run_id db).
  { intros m' Hm'. by apply run_id_fresh, Km. }
  subst out. rewrite run_unfold. cbv zeta.
  destruct (run_models model_ids db) as [|m0 ms].
  { simpl. rewrite !app_nil_r. intros Hin E. by apply Hold in Hin. }
  destruct (run_test_cases test_case_ids categories db) as [|tc tcs].
  { simpl. rewrite !app_nil_r. intros Hin E. by apply Hold in Hin. }
  pose proof (run_pairs_spec providers world (Db.next_run_id db) (tc :: tcs) (m0 :: ms)
                (started evaluation_name model_ids db) [] eq_refl) as [_ Hext].
  destruct (EvaluationEngine.run_pairs _ _ _ _ _ _) as [db2 all_results].
  cbn [fst] in Hext. destruct Hext as (_ & E2 & E3 & _).
  simpl in E2. rewrite app_nil_r in E2.
  pose proof (generate_metrics_spec (Db.next_run_id db) (m0 :: ms) db2)
    as (_ & _ & _ & _ & H).
  assert (Hq : Db.query_metrics (Db.next_run_id db) db2 = []).
  { apply query_metrics_none. by rewrite E2. }
  assert (Hfinal : forall st o db3,
            EvaluationEngine._generate_performance_metrics (Db.next_run_id db)
              (m0 :: ms) db2 = (db3, o) ->
            In m (db_metrics (Db.set_run_status (Db.next_run_id db) st db3)) ->
            pm_evaluation_run_id m = Db.next_run_id db -> unranked m).
  { intros st o db3 Hg. rewrite Hg in H. cbn [fst snd] in H.
    change (db_metrics (Db.set_run_status (Db.next_run_id db) st db3))
      with (stored_metrics db3).
    destruct (EvaluationEngine.group_results db2 _ []) as [d|e].
    - destruct H as (store & -> & _ & Hs). destruct (Hs Hq) as [-> _].
      rewrite E2, E3. simpl. rewrite in_app_iff. intros [Hin|Hin] E.
      + by apply Hold in Hin.
      + by apply aggregated_unranked in Hin as [_ ?].
    - injection H as -> _. unfold stored_metrics. rewrite E2, E3, app_nil_r.
      intros Hin E. by apply Hold in Hin. }
  destruct (EvaluationEngine._generate_performance_metrics _ _ db2) as [db3 [[]|e]];
    by eapply Hfinal.
Qed.

(** ** The ranking of a group of flushed rows *)

Section SortFacts.
Context {A : Type} (stays_before : A -> A -> bool).

Lemma insert_by_perm x l : insert_by stays_before x l ≡ₚ x :: l.
Proof.
  induction l as [|y l IH]; simpl; [done|].
  destruct (stays_before y x); [|done].
  by rewrite IH, Permutation_swap.
Qed.

Lemma sort_by_perm l : sort_by stays_before l ≡ₚ l.
Proof.
  unfold sort_by. induction l as [|x l IH]; simpl; [done|].
  by rewrite insert_by_perm, IH.
Qed.

Hypothesis asym : forall x y, stays_before x y = true -> stays_before y x = false.

Lemma insert_by_in_order x l :
  in_order stays_before l -> in_order stays_before (insert_by stays_before x l).
Proof.
  induction 1 as [|y|y z l Hyz Hl IH]; simpl.
  - constructor.
  - destruct (stays_before y x) eqn:E; constructor; auto using @in_order.
  - destruct (stays_before y x) eqn:E.
    + simpl in IH. destruct (stays_before z x) eqn:E'.
      * by constructor.
      * constructor; [by apply asym | done].
    + constructor; [done|]. by constructor.
Qed.

Lemma sort_by_in_order l : in_order stays_before (sort_by stays_before l).
Proof.
  unfold sort_by. induction l; simpl; [constructor | by apply insert_by_in_order].
Qed.

End SortFacts.

Section RankPass.
Import EvaluationEngine.
Implicit Types (store : list PerformanceMetrics) (order g : list nat).

Lemma assign_ranks_length set order : forall rank store,
  length (assign_ranks set rank order store) = length store.
Proof.
  induction order as [|i order IH]; intros rank store; simpl; [done|].
  by rewrite IH, length_alter.
Qed.

Lemma assign_ranks_notin set order : forall rank store j,
  j ∉ order -> assign_ranks set rank order store !! j = store !! j.
Proof.
  induction order as [|i order IH]; intros rank store j Hj; simpl; [done|].
  apply not_elem_of_cons in Hj as [Hne Hj].
  by rewrite IH, list_lookup_alter_ne.
Qed.

Lemma assign_ranks_in set order : forall rank store k i,
  NoDup order -> order !! k = Some i ->
  assign_ranks set rank order store !! i = set (rank + Z.of_nat k) <$> store !! i.
Proof.
  induction order as [|i0 order IH]; intros rank store k i Hd Hk; [done|].
  apply NoDup_cons in Hd as [Hn Hd]. simpl. destruct k as [|k]; simpl in Hk.
  - injection Hk as ->. rewrite assign_ranks_notin by done.
    by rewrite list_lookup_alter_eq, Z.add_0_r.
  - rewrite (IH _ _ k i Hd Hk), list_lookup_alter_ne.
    + do 2 f_equal. lia.
    + intros ->. apply Hn. by eapply list_elem_of_lookup_2.
Qed.

(** A pass leaves alone what its setter leaves alone. *)
Lemma assign_ranks_frame {B} set (proj : PerformanceMetrics -> B) order :
  (forall r m, proj (set r m) = proj m) ->
  forall rank store j,
    proj <$> assign_ranks set rank order store !! j = proj <$> store !! j.
Proof.
  intros Hf. induction order as [|i order IH]; intros rank store j; simpl; [done|].
  rewrite IH. destruct (decide (i = j)) as [->|Hne].
  - rewrite list_lookup_alter_eq. destruct (store !! j); simpl; [|done].
    by rewrite Hf.
  - by rewrite list_lookup_alter_ne.
Qed.

(** The ranks given by a pass, read along the order of the pass; [inj]
    takes a rank to the type of the field. *)
Lemma assign_ranks_along {B} (inj : Z -> B) set (get : PerformanceMetrics -> option B)
    order store :
  (forall r m, get (set r m) = Some (inj r)) ->
  NoDup order -> (forall i, i ∈ order -> is_Some (store !! i)) ->
  (fun i => assign_ranks set 1 order store !! i ≫= get) <$> order
  = Some ∘ inj <$> seqZ 1 (Zlen order).
Proof.
  intros Hget Hd Hv. apply list_eq. intros k. rewrite !list_lookup_fmap.
  destruct (order !! k) as [i|] eqn:Hk; simpl.
  - rewrite (assign_ranks_in set order 1 store k i Hd Hk).
    destruct (Hv i) as [m ->]; [by eapply list_elem_of_lookup_2|]. simpl.
    rewrite Hget, lookup_seqZ_lt; [done|].
    apply lookup_lt_Some in Hk. unfold Zlen. lia.
  - rewrite lookup_seqZ_ge; [done|].
    apply lookup_ge_None in Hk. unfold Zlen. lia.
Qed.

(** The ranks given by a pass over a group are the numbers 1 to [n]. *)
Lemma assign_ranks_perm {B} (inj : Z -> B) set (get : PerformanceMetrics -> option B)
    order g store :
  (forall r m, get (set r m) = Some (inj r)) ->
  order ≡ₚ g -> NoDup g -> (forall i, i ∈ g -> is_Some (store !! i)) ->
  (fun i => assign_ranks set 1 order store !! i ≫= get) <$> g
  ≡ₚ Some ∘ inj <$> seqZ 1 (Zlen g).
Proof.
  intros Hget Hp Hd Hv. rewrite <- Hp at 1.
  rewrite (assign_ranks_along inj set get order store Hget).
  - unfold Zlen. by rewrite Hp.
  - by rewrite Hp.
  - intros i Hi. apply Hv. by rewrite <- Hp.
Qed.

End RankPass.

Section RankCategory.
Import EvaluationEngine.
Implicit Types (store : list PerformanceMetrics) (g : list nat).

Lemma decorate_spec {K} (key : PerformanceMetrics -> option K) store g :
  (forall i, i ∈ g -> exists m k, store !! i = Some m /\ key m = Some k) ->
  exists ks, decorate key store g = Some ks /\ ks.*2 = g.
Proof.
  unfold decorate. induction g as [|i g IH]; intros H.
  - by exists [].
  - destruct (H i) as (m & k & Hm & Hk); [by left|].
    destruct IH as (ks & Hks & Hg); [intros j Hj; apply H; by right|].
    exists ((k, i) :: ks). split; [|by rewrite fmap_cons, Hg].
    cbn [mapM]. rewrite Hm. simpl. rewrite Hk. simpl. by rewrite Hks.
Qed.

Lemma bind_frame {B} (get : PerformanceMetrics -> option B)
    (a b : option PerformanceMetrics) :
  get <$> a = get <$> b -> a ≫= get = b ≫= get.
Proof. destruct a, b; simpl; congruence. Qed.

Lemma overall_score_set_overall n v m :
  overall_score n (set_overall_rank v m) = overall_score n m.
Proof. reflexivity. Qed.

Lemma assign_scores_spec n g : forall store,
  (forall i, i ∈ g -> exists m, store !! i = Some m /\ is_Some (overall_score n m)) ->
  exists store',
    assign_scores n g store = Some store' /\
    length store' = length store /\
    (forall j, pm_accuracy_rank <$> store' !! j = pm_accuracy_rank <$> store !! j) /\
    (forall j, pm_speed_rank <$> store' !! j = pm_speed_rank <$> store !! j) /\
    (forall j, pm_cost_rank <$> store' !! j = pm_cost_rank <$> store !! j) /\
    (forall j,
       (exists m v, store !! j = Some m /\ pm_overall_rank m = Some v /\
                    overall_score n m = Some v) \/ j ∈ g ->
       exists m v, store' !! j = Some m /\ pm_overall_rank m = Some v /\
                   overall_score n m = Some v).
Proof.
  induction g as [|i g IH]; intros store H.
  - exists store. repeat split; try done. intros j [?|Hj]; [done|].
    by apply elem_of_nil in Hj.
  - destruct (H i) as (m & Hm & v & Hv); [by left|].
    destruct (IH (alter (set_overall_rank v) i store))
      as (store' & Hs & Hl & Fa & Fs & Fc & Ho).
    { intros j Hj. destruct (H j) as (mj & Hmj & Hsj); [by right|].
      destruct (decide (i = j)) as [->|Hne].
      - rewrite list_lookup_alter_eq, Hmj. simpl. eauto.
      - rewrite list_lookup_alter_ne by done. eauto. }
    assert (Frame : forall {B} (proj : PerformanceMetrics -> B) j,
              (forall m, proj (set_overall_rank v m) = proj m) ->
              proj <$> alter (set_overall_rank v) i store !! j = proj <$> store !! j).
    { intros B proj j Hp. destruct (decide (i = j)) as [->|Hne].
      - rewrite list_lookup_alter_eq. destruct (store !! j); simpl; [|done].
        by rewrite Hp.
      - by rewrite list_lookup_alter_ne. }
    exists store'. split; [|split; [|split; [|split; [|split]]]].
    + simpl. rewrite Hm. simpl. rewrite Hv. simpl. exact Hs.
    + by rewrite Hl, length_alter.
    + intros j. by rewrite Fa, Frame.
    + intros j. by rewrite Fs, Frame.
    + intros j. by rewrite Fc, Frame.
    + intros j Hj. apply Ho.
      destruct (decide (i = j)) as [->|Hne].
      * left. rewrite list_lookup_alter_eq, Hm. simpl.
        by exists (set_overall_rank v m), v.
      * rewrite list_lookup_alter_ne by done.
        destruct Hj as [Hj|Hj]; [by left|]. right.
        by apply elem_of_cons in Hj as [->|Hj].
Qed.

(** One pass: the keys are read, the rows are sorted by them, and the
    positions are written to one field. *)
Lemma ranking_pass {K B} (key : PerformanceMetrics -> K)
    (cmp : K * nat -> K * nat -> bool) (inj : Z -> B) set
    (get : PerformanceMetrics -> option B) store g :
  (forall r m, get (set r m) = Some (inj r)) ->
  NoDup g -> (forall i, i ∈ g -> is_Some (store !! i)) ->
  exists ks,
    decorate (fun m => Some (key m)) store g = Some ks /\
    (fun i => assign_ranks set 1 (sort_by cmp ks).*2 store !! i ≫= get) <$> g
    ≡ₚ Some ∘ inj <$> seqZ 1 (Zlen g).
Proof.
  intros Hget Hd Hv.
  destruct (decorate_spec (fun m => Some (key m)) store g) as (ks & Hks & Hg).
  { intros i Hi. destruct (Hv i Hi) as [m Hm]. by exists m, (key m). }
  exists ks. split; [done|].
  apply assign_ranks_perm; [done| |done|done].
  by rewrite sort_by_perm, Hg.
Qed.

Lemma all_some {B} (l : list (option B)) (l' : list B) x :
  l ≡ₚ Some <$> l' -> x ∈ l -> is_Some x.
Proof.
  intros Hp Hx. rewrite Hp in Hx. apply list_elem_of_fmap in Hx as (y & -> & _).
  by eexists.
Qed.

Lemma ranked_some {B} (get : PerformanceMetrics -> option B) store g (l : list B) i :
  (fun i => store !! i ≫= get) <$> g ≡ₚ Some <$> l -> i ∈ g ->
  exists m v, store !! i = Some m /\ get m = Some v.
Proof.
  intros Hp Hi.
  destruct (all_some _ _ (store !! i ≫= get) Hp) as [v Hv].
  { apply list_elem_of_fmap. by exists i. }
  destruct (store !! i) as [m|]; [|done]. by exists m, v.
Qed.

Lemma carry_ranks {B} (get : PerformanceMetrics -> option B) store store' g l :
  (forall j, get <$> store' !! j = get <$> store !! j) ->
  (fun i => store !! i ≫= get) <$> g ≡ₚ l ->
  (fun i => store' !! i ≫= get) <$> g ≡ₚ l.
Proof.
  intros F H. rewrite <- H.
  assert (E : (fun i => store' !! i ≫= get) <$> g
              = (fun i => store !! i ≫= get) <$> g).
  { apply list_fmap_ext. intros _ j _. by apply bind_frame. }
  by rewrite E.
Qed.

Lemma carry_valid store store' g :
  length store' = length store ->
  (forall i, i ∈ g -> is_Some (store !! i)) ->
  forall i, i ∈ g -> is_Some (store' !! i).
Proof.
  intros Hl Hv i Hi. apply lookup_lt_is_Some. rewrite Hl.
  by apply lookup_lt_is_Some, Hv.
Qed.

Lemma decorate_keys {K} (key : PerformanceMetrics -> option K) store g ks k i :
  decorate key store g = Some ks -> (k, i) ∈ ks ->
  exists m, store !! i = Some m /\ key m = Some k.
Proof.
  unfold decorate. intros H%mapM_Some_1 Hin.
  induction H as [|j [k' i'] g ks Hj _ IH]; [by apply elem_of_nil in Hin|].
  apply elem_of_cons in Hin as [[= -> ->]|Hin]; [|auto].
  destruct (store !! j) as [m|] eqn:Hm; [|done]. simpl in Hj.
  destruct (key m) as [k0|] eqn:Hk; [|done]. simpl in Hj.
  injection Hj as <- <-. by exists m.
Qed.

(** The steps of [rank_category], with the table before the last pass. *)
Lemma rank_category_spec g store :
  NoDup g -> (forall i, i ∈ g -> is_Some (store !! i)) ->
  exists store4 ks5,
    rank_category g store
    = Some (assign_ranks (fun rank => set_overall_rank (inject_Z rank)) 1
              (sort_by descending ks5).*2 store4) /\
    length store4 = length store /\
    decorate pm_overall_rank store4 g = Some ks5 /\ ks5.*2 = g /\
    (fun i => store4 !! i ≫= pm_accuracy_rank) <$> g ≡ₚ Some <$> seqZ 1 (Zlen g) /\
    (fun i => store4 !! i ≫= pm_speed_rank) <$> g ≡ₚ Some <$> seqZ 1 (Zlen g) /\
    (fun i => store4 !! i ≫= pm_cost_rank) <$> g ≡ₚ Some <$> seqZ 1 (Zlen g) /\
    (forall i, i ∈ g ->
       exists m v, store4 !! i = Some m /\ pm_overall_rank m = Some v /\
                   overall_score (Zlen g) m = Some v).
Proof.
  intros Hd Hv. unfold rank_category, sorted, sorted_reverse.
  (* accuracy *)
  destruct (ranking_pass pm_avg_accuracy
              (fun y x : Q * nat => Qlt_bool (fst x) (fst y)) id
              set_accuracy_rank pm_accuracy_rank store g) as (ks1 & -> & A1);
    [done..|].
  cbn [mbind option_bind].
  set (store1 := assign_ranks set_accuracy_rank 1 _ store) in *.
  assert (L1 : length store1 = length store) by apply assign_ranks_length.
  pose proof (carry_valid _ _ g L1 Hv) as Hv1.
  (* speed *)
  destruct (ranking_pass pm_avg_response_time
              (fun y x : Q * nat => Qlt_bool (fst y) (fst x)) id
              set_speed_rank pm_speed_rank store1 g) as (ks2 & -> & S2);
    [done..|].
  cbn [mbind option_bind].
  set (store2 := assign_ranks set_speed_rank 1 _ store1) in *.
  assert (L2 : length store2 = length store1) by apply assign_ranks_length.
  pose proof (carry_valid _ _ g L2 Hv1) as Hv2.
  assert (A2 := carry_ranks pm_accuracy_rank store1 store2 g _
                  (assign_ranks_frame set_speed_rank pm_accuracy_rank _
                     (fun _ _ => eq_refl) 1 store1) A1).
  (* cost *)
  destruct (ranking_pass pm_total_cost
              (fun y x : Q * nat => Qlt_bool (fst y) (fst x)) id
              set_cost_rank pm_cost_rank store2 g) as (ks3 & -> & C3);
    [done..|].
  cbn [mbind option_bind].
  set (store3 := assign_ranks set_cost_rank 1 _ store2) in *.
  assert (L3 : length store3 = length store2) by apply assign_ranks_length.
  pose proof (carry_valid _ _ g L3 Hv2) as Hv3.
  assert (A3 := carry_ranks pm_accuracy_rank store2 store3 g _
                  (assign_ranks_frame set_cost_rank pm_accuracy_rank _
                     (fun _ _ => eq_refl) 1 store2) A2).
  assert (S3 := carry_ranks pm_speed_rank store2 store3 g _
                  (assign_ranks_frame set_cost_rank pm_speed_rank _
                     (fun _ _ => eq_refl) 1 store2) S2).
  (* the weighted scores *)
  destruct (assign_scores_spec (Zlen g) g store3)
    as (store4 & -> & L4 & Fa & Fs & Fc & Ho).
  { intros i Hi.
    destruct (ranked_some pm_accuracy_rank store3 g _ i A3 Hi) as (m & a & Hm & Ha).
    destruct (ranked_some pm_speed_rank store3 g _ i S3 Hi) as (m' & sp & Hm' & Hs).
    destruct (ranked_some pm_cost_rank store3 g _ i C3 Hi) as (m'' & c & Hm'' & Hc).
    rewrite Hm in Hm', Hm''. injection Hm' as <-. injection Hm'' as <-.
    exists m. split; [done|]. unfold overall_score. rewrite Ha, Hs, Hc. by eexists. }
  cbn [mbind option_bind].
  assert (A4 := carry_ranks pm_accuracy_rank store3 store4 g _ Fa A3).
  assert (S4 := carry_ranks pm_speed_rank store3 store4 g _ Fs S3).
  assert (C4 := carry_ranks pm_cost_rank store3 store4 g _ Fc C3).
  (* the keys of the last sort *)
  destruct (decorate_spec pm_overall_rank store4 g) as (ks5 & Hks5 & Hg5).
  { intros i Hi. destruct (Ho i (or_intror Hi)) as (m & v & Hm & Hv5 & _).
    by exists m, v. }
  rewrite Hks5. cbn [mbind option_bind].
  exists store4, ks5. split; [done|]. split; [congruence|].
  repeat (split; [done|]). intros i Hi. apply Ho. by right.
Qed.

(** What [_calculate_rankings] does to one category, once its rows are in
    the table: the ranking returns, keeps the number of rows, and each of
    the four rank fields takes the values 1 to [n] over the [n] rows of the
    group, each value once. *)
Theorem rank_category_permutation g store :
  NoDup g -> (forall i, i ∈ g -> is_Some (store !! i)) ->
  exists store',
    rank_category g store = Some store' /\
    length store' = length store /\
    (fun i => store' !! i ≫= pm_accuracy_rank) <$> g ≡ₚ Some <$> seqZ 1 (Zlen g) /\
    (fun i => store' !! i ≫= pm_speed_rank) <$> g ≡ₚ Some <$> seqZ 1 (Zlen g) /\
    (fun i => store' !! i ≫= pm_cost_rank) <$> g ≡ₚ Some <$> seqZ 1 (Zlen g) /\
    (fun i => store' !! i ≫= pm_overall_rank) <$> g
    ≡ₚ Some ∘ inject_Z <$> seqZ 1 (Zlen g).
Proof.
  intros Hd Hv.
  destruct (rank_category_spec g store Hd Hv)
    as (store4 & ks5 & -> & L4 & Hks5 & Hg5 & A4 & S4 & C4 & _).
  pose proof (carry_valid _ _ g L4 Hv) as Hv4.
  eexists. split; [done|]. split; [by rewrite assign_ranks_length|].
  split; [|split; [|split]].
  - apply (carry_ranks pm_accuracy_rank store4); [|done].
    by apply assign_ranks_frame.
  - apply (carry_ranks pm_speed_rank store4); [|done].
    by apply assign_ranks_frame.
  - apply (carry_ranks pm_cost_rank store4); [|done].
    by apply assign_ranks_frame.
  - apply assign_ranks_perm; [done| |done|done].
    by rewrite sort_by_perm, Hg5.
Qed.

End RankCategory.

Section InOrder.
Context {A : Type} (stays_before : A -> A -> bool).
Hypothesis ntrans : forall x y z,
  stays_before z y = false -> stays_before y x = false -> stays_before z x = false.

(** With a comparison that comes from an order, no element of a sorted list
    is followed, at any distance, by one that had to stay before it. *)
Lemma in_order_lookup l : in_order stays_before l ->
  forall a b x y, (a < b)%nat -> l !! a = Some x -> l !! b = Some y ->
                  stays_before y x = false.
Proof.
  induction 1 as [|x0|x0 y0 l Hyx Hl IH]; intros a b x y Hab Ha Hb.
  - done.
  - destruct a, b; try done; lia.
  - destruct b as [|b]; [lia|]. destruct a as [|a].
    + injection Ha as <-. destruct b as [|b].
      * by injection Hb as <-.
      * apply (ntrans x0 y0 y); [|done].
        apply (IH 0%nat (S b) y0 y); [lia|done|done].
    + apply (IH a b x y); [lia|done|done].
Qed.

End InOrder.

Section ByPoints.
Import EvaluationEngine.

Lemma Qlt_bool_iff a b : Qlt_bool a b = true <-> (a < b)%Q.
Proof.
  unfold Qlt_bool. rewrite negb_true_iff. split.
  - intros H. apply Qnot_le_lt. intros Hle. apply Qle_bool_iff in Hle. congruence.
  - intros H. destruct (Qle_bool b a) eqn:E; [|done].
    apply Qle_bool_iff in E. exfalso. by apply (Qlt_not_le a b).
Qed.

Lemma Qlt_bool_false a b : Qlt_bool a b = false <-> (b <= a)%Q.
Proof.
  unfold Qlt_bool. rewrite negb_false_iff. apply Qle_bool_iff.
Qed.

Lemma descending_asym x y : descending x y = true -> descending y x = false.
Proof.
  unfold descending. rewrite Qlt_bool_iff, Qlt_bool_false. apply Qlt_le_weak.
Qed.

Lemma descending_ntrans x y z :
  descending z y = false -> descending y x = false -> descending z x = false.
Proof.
  unfold descending. rewrite !Qlt_bool_false. intros H1 H2. by apply (Qle_trans _ (fst y)).
Qed.

(** The last pass of [rank_category] on flushed rows orders the group by
    descending weighted points: of two rows of the group, the one with more
    points gets the smaller [overall_rank], and that rank is a position, not
    the points. *)
Theorem rank_category_by_points g store store' i j mi mj pi pj :
  NoDup g -> (forall i, i ∈ g -> is_Some (store !! i)) ->
  EvaluationEngine.rank_category g store = Some store' ->
  i ∈ g -> j ∈ g -> store' !! i = Some mi -> store' !! j = Some mj ->
  EvaluationEngine.overall_score (EvaluationEngine.Zlen g) mi = Some pi ->
  EvaluationEngine.overall_score (EvaluationEngine.Zlen g) mj = Some pj ->
  (pj < pi)%Q ->
  exists ri rj,
    pm_overall_rank mi = Some (inject_Z ri) /\ pm_overall_rank mj = Some (inject_Z rj) /\
    1 <= ri < rj /\ rj <= EvaluationEngine.Zlen g.
Proof.
  intros Hd Hv Hrc Hi Hj Hmi Hmj Hpi Hpj Hlt.
  destruct (rank_category_spec g store Hd Hv)
    as (store4 & ks5 & Hrc' & L4 & Hks5 & Hg5 & _ & _ & _ & Ho).
  rewrite Hrc in Hrc'. injection Hrc' as ->.
  set (srt := sort_by descending ks5) in *.
  assert (Hperm : srt.*2 ≡ₚ g) by (subst srt; by rewrite sort_by_perm, Hg5).
  assert (Hnd : NoDup srt.*2) by by rewrite Hperm.
  assert (Hpos : forall i m p, i ∈ g -> 
            assign_ranks (fun rank => set_overall_rank (inject_Z rank)) 1 srt.*2 store4
              !! i = Some m ->
            EvaluationEngine.overall_score (EvaluationEngine.Zlen g) m = Some p ->
            exists a, srt !! a = Some (p, i) /\
                      pm_overall_rank m = Some (inject_Z (1 + Z.of_nat a))).
  { intros i0 m p Hi0 Hm Hp. rewrite <- Hperm in Hi0.
    apply list_elem_of_lookup_1 in Hi0 as [a Ha].
    rewrite (assign_ranks_in _ _ 1 store4 a i0 Hnd Ha) in Hm.
    rewrite list_lookup_fmap in Ha.
    destruct (srt !! a) as [[k i1]|] eqn:Hs; [|done]. injection Ha as ->.
    assert (Hin : (k, i0) ∈ ks5).
    { rewrite <- (sort_by_perm descending ks5). by eapply list_elem_of_lookup_2. }
    destruct (decorate_keys _ _ _ _ _ _ Hks5 Hin) as (m4 & Hm4 & Hk).
    rewrite Hm4 in Hm. injection Hm as <-.
    destruct (Ho i0) as (m4' & v & Hm4' & Hv4 & Hs4).
    { rewrite <- Hg5. apply list_elem_of_fmap. by exists (k, i0). }
    rewrite Hm4 in Hm4'. injection Hm4' as <-.
    rewrite overall_score_set_overall in Hp.
    exists a. split; [|done]. congruence. }
  destruct (Hpos i mi pi Hi Hmi Hpi) as (a & Ha & Hra).
  destruct (Hpos j mj pj Hj Hmj Hpj) as (b & Hb & Hrb).
  exists (1 + Z.of_nat a), (1 + Z.of_nat b). split; [done|]. split; [done|].
  assert (Hab : (a < b)%nat).
  { destruct (lt_eq_lt_dec a b) as [[?| ->]|Hba]; [done| |].
    - rewrite Ha in Hb. injection Hb as -> _. by apply Qlt_irrefl in Hlt.
    - pose proof (in_order_lookup descending descending_ntrans srt
                    (sort_by_in_order descending descending_asym ks5)
                    b a _ _ Hba Hb Ha) as Hc.
      unfold descending in Hc. simpl in Hc. apply Qlt_bool_false in Hc.
      exfalso. by apply (Qlt_not_le pj pi). }
  apply lookup_lt_Some in Hb.
  assert (length srt = length g) by by rewrite <- Hperm, length_fmap.
  unfold EvaluationEngine.Zlen. lia.
Qed.

End ByPoints.

(** * Further properties of the code *)

(** ** The summarization and question scorers *)

Section Words.
Import Text.

Lemma isspace_lower_char c : isspace (lower_char c) = isspace c.
Proof. destruct c as [[] [] [] [] [] [] [] []]; reflexivity. Qed.

Lemma blank_lower s : blank (lower s) = blank s.
Proof.
  unfold blank. induction s as [|c s IH]; [done|].
  simpl. by rewrite isspace_lower_char, IH.
Qed.

Lemma is_empty_app_char cur c : is_empty (cur +:+ String c EmptyString) = false.
Proof. by destruct cur. Qed.

Lemma split_aux_nil s : forall cur,
  split_aux cur s = [] <-> cur = "" /\ blank s = true.
Proof.
  unfold blank. induction s as [|c s IH]; intros cur; simpl.
  - destruct cur; simpl; split; try done. by intros [? _].
  - destruct (isspace c); simpl.
    + destruct cur; simpl.
      * apply IH.
      * split; [done | by intros [? _]].
    + rewrite IH. split; [|by intros [_ ?]].
      intros [E _]. by destruct cur.
Qed.

Lemma split_nil s : split s = [] <-> blank s = true.
Proof. unfold split. rewrite split_aux_nil. tauto. Qed.

Lemma words_none l : set_len (words_set l) = 0 <-> l = [].
Proof.
  unfold set_len, words_set. split; [|by intros ->].
  destruct l as [|w l]; [done|]. intros H. exfalso.
  assert (size (list_to_set (w :: l) : gset string) <> 0%nat); [|lia].
  apply size_non_empty_iff. set_solver.
Qed.

Lemma blank_empty s : len s = 0 -> blank s = true.
Proof. by destruct s. Qed.

Lemma is_empty_lower s : is_empty (lower s) = is_empty s.
Proof. by destruct s. Qed.

End Words.

Lemma summarization_evaluation (test_case : test_case_dict) (model_response : string) :
  match SummarizationEvaluator.evaluate_response test_case model_response with
  | Raise e =>
      blank (td_input_text test_case) = true /\ e = ZeroDivisionError "division by zero"
  | Return ev =>
      blank (td_input_text test_case) = false /\
      (0.6 <= ev_score ev)%Q /\ (ev_score ev <= 0.95)%Q
  end.
Proof.
  unfold SummarizationEvaluator.evaluate_response,
    SummarizationEvaluator._mock_evaluation, true_div.
  destruct (Z.eqb_spec (Text.len (td_input_text test_case)) 0) as [E|E].
  { split; [by apply blank_empty | done]. }
  cbn [mbind outcome_bind].
  generalize (inject_Z (Text.len model_response)
              / inject_Z (Text.len (td_input_text test_case)))%Q as ratio.
  intros ratio.
  destruct (Z.eqb_spec
    (set_len (words_set (Text.split (Text.lower (td_input_text test_case))))) 0)
    as [E0|E0].
  { apply words_none, split_nil in E0. rewrite blank_lower in E0.
    destruct (Qlt_bool ratio 0.2), (Qlt_bool ratio 0.4); by split. }
  assert (Hb : blank (td_input_text test_case) = false).
  { destruct (blank (td_input_text test_case)) eqn:Hb; [|done].
    rewrite <- blank_lower in Hb. apply split_nil, words_none in Hb. done. }
  rewrite Hb. clear Hb E E0.
  generalize (inject_Z (set_len
    (words_set (Text.split (Text.lower (td_input_text test_case)))
     ∩ words_set (Text.split (Text.lower model_response))))
    / inject_Z (set_len
        (words_set (Text.split (Text.lower (td_input_text test_case))))))%Q as overlap.
  intros overlap.
  destruct (Qlt_bool ratio 0.2), (Qlt_bool ratio 0.4); cbn [mbind outcome_bind];
    destruct (Qlt_bool 0.3 overlap);
    vm_compute; (split; [reflexivity|]); split; discriminate.
Qed.

Lemma qa_evaluation (test_case : test_case_dict) (model_response : string) :
  let out := QAEvaluator.evaluate_response test_case model_response in
  match td_expected_output test_case with
  | None => out = Raise (AttributeError "'NoneType' object has no attribute 'lower'")
  | Some expected =>
      match out with
      | Raise e =>
          expected <> "" /\ blank expected = true /\
          e = ZeroDivisionError "division by zero"
      | Return ev =>
          (expected = "" \/ blank expected = false) /\
          (0.5 <= ev_score ev)%Q /\ (ev_score ev <= 0.9)%Q
      end
  end.
Proof.
  unfold QAEvaluator.evaluate_response, QAEvaluator._mock_evaluation, true_div.
  destruct (td_expected_output test_case) as [expected|]; [|reflexivity].
  cbn [mbind outcome_bind]. rewrite is_empty_lower.
  destruct expected as [|c expected].
  { cbn [Text.is_empty negb mbind outcome_bind].
    destruct (_ && _); vm_compute;
      (split; [by left|]); split; discriminate. }
  cbn [Text.is_empty negb].
  destruct (Z.eqb_spec
    (set_len (words_set (Text.split (Text.lower (String c expected))))) 0)
    as [E0|E0].
  { apply words_none, split_nil in E0. rewrite blank_lower in E0. by split. }
  assert (Hb : blank (String c expected) = false).
  { destruct (blank (String c expected)) eqn:Hb; [|done].
    rewrite <- blank_lower in Hb. apply split_nil, words_none in Hb. done. }
  cbn [mbind outcome_bind].
  generalize (inject_Z (set_len
    (words_set (Text.split (Text.lower (String c expected)))
     ∩ words_set (Text.split (Text.lower model_response))))
    / inject_Z (set_len
        (words_set (Text.split (Text.lower (String c expected))))))%Q as overlap.
  intros overlap. revert Hb. generalize (String c expected) as s. intros s Hb.
  assert (Hs : (s = "" \/ blank s = false)) by by right. revert Hs.
  generalize (s = "" \/ blank s = false) as P. intros P HP.
  destruct (Qlt_bool 0.7 overlap), (Qlt_bool 0.5 overlap);
    vm_compute; (split; [exact HP|]); split; discriminate.
Qed.

Lemma reasoning_evaluation (test_case : test_case_dict) (model_response : string) :
  exists ev,
    ReasoningEvaluator.evaluate_response test_case model_response = Return ev /\
    (0.5 <= ev_score ev)%Q /\ (ev_score ev <= 1)%Q.
Proof.
  unfold ReasoningEvaluator.evaluate_response, ReasoningEvaluator._mock_evaluation.
  generalize (Text.count_in ReasoningEvaluator.structure_indicators
                (Text.lower model_response)) as sc.
  generalize (Text.count_in ReasoningEvaluator.logical_words
                (Text.lower model_response)) as lc.
  generalize (Text.len (Text.lower model_response)) as n.
  intros n lc sc.
  destruct (3 <=? sc), (1 <=? sc), (5 <=? lc), (2 <=? lc), (200 <? n);
    vm_compute; (eexists; split; [reflexivity|]); split; discriminate.
Qed.

(** X1. [SummarizationEvaluator.evaluate_response] raises exactly when the
    input text has no word, being empty or made of white space only, and then
    with the [ZeroDivisionError] of one of its two divisions; whenever it
    returns, the score lies between 0.6 and 0.95. *)
Theorem summarization_score (test_case : test_case_dict) (model_response : string) :
  (forall e,
     SummarizationEvaluator.evaluate_response test_case model_response = Raise e <->
     blank (td_input_text test_case) = true /\
     e = ZeroDivisionError "division by zero") /\
  (forall ev,
     SummarizationEvaluator.evaluate_response test_case model_response = Return ev ->
     (0.6 <= ev_score ev)%Q /\ (ev_score ev <= 0.95)%Q).
Proof.
  pose proof (summarization_evaluation test_case model_response) as H.
  destruct (SummarizationEvaluator.evaluate_response test_case model_response)
    as [ev|e0].
  - destruct H as (Hb & H). split.
    + intros e. split; [done|]. intros [Hb' _]. congruence.
    + by intros ev' [= <-].
  - destruct H as (Hb & ->). split; [|done].
    intros e. split; [by intros [= <-] | by intros [_ ->]].
Qed.

Lemma summarization_score_witness :
  let test_case := {| td_input_text := "   "; td_expected_output := None;
                      td_category := "summarization";
                      td_evaluation_criteria := None |} in
  SummarizationEvaluator.evaluate_response test_case "A summary"
  = Raise (ZeroDivisionError "division by zero").
Proof.
  intros test_case. destruct (summarization_score test_case "A summary") as [H _].
  apply H. split; reflexivity.
Defined.

(** X2. [QAEvaluator.evaluate_response] raises [AttributeError] when the
    expected output is [None], raises [ZeroDivisionError] when the expected
    output is a non-empty text of white space only, and in every other case
    returns a score between 0.5 and 0.9. *)
Theorem qa_score (test_case : test_case_dict) (model_response : string) :
  let out := QAEvaluator.evaluate_response test_case model_response in
  (td_expected_output test_case = None ->
   out = Raise (AttributeError "'NoneType' object has no attribute 'lower'")) /\
  (forall expected, td_expected_output test_case = Some expected ->
     if negb (Text.is_empty expected) && blank expected
     then out = Raise (ZeroDivisionError "division by zero")
     else exists ev, out = Return ev /\
                     (0.5 <= ev_score ev)%Q /\ (ev_score ev <= 0.9)%Q).
Proof.
  intros out. pose proof (qa_evaluation test_case model_response) as H.
  cbv zeta in H. fold out in H. split.
  - intros E. by rewrite E in H.
  - intros expected E. rewrite E in H. destruct out as [ev|e].
    + destruct H as ([->|Hb] & H); [by exists ev|].
      rewrite Hb, andb_false_r. by exists ev.
    + destruct H as (Hne & -> & ->). by destruct expected.
Qed.

Lemma qa_score_witness :
  let test_case expected :=
    {| td_input_text := "What is the capital of France?"; td_expected_output := expected;
       td_category := "qa"; td_evaluation_criteria := None |} in
  QAEvaluator.evaluate_response (test_case None) "Paris"
  = Raise (AttributeError "'NoneType' object has no attribute 'lower'") /\
  QAEvaluator.evaluate_response (test_case (Some " ")) "Paris"
  = Raise (ZeroDivisionError "division by zero").
Proof.
  intros test_case.
  destruct (qa_score (test_case None) "Paris") as [H1 _].
  destruct (qa_score (test_case (Some " ")) "Paris") as [_ H2].
  split; [exact (H1 eq_refl) | exact (H2 " " eq_refl)].
Defined.

Section Patterns.
Import Text Re Float.

Lemma span_spec p s : forall a b,
  span p s = (a, b) ->
  s = a +:+ b /\ every p a = true /\
  match b with String c _ => p c = false | EmptyString => True end.
Proof.
  induction s as [|c s IH]; intros a b; simpl.
  - by intros [= <- <-].
  - destruct (p c) eqn:Hc.
    + destruct (span p s) as [a' b'] eqn:E. intros [= <- <-].
      destruct (IH a' b' eq_refl) as (-> & Ha & Hb). simpl. by rewrite Hc, Ha.
    + intros [= <- <-]. by rewrite Hc.
Qed.

Lemma span_every p s : every p s = true -> span p s = (s, EmptyString).
Proof.
  induction s as [|c s IH]; simpl; [done|].
  intros [-> H]%andb_prop. by rewrite (IH H).
Qed.

Lemma span_none p s : every (fun c => negb (p c)) s = true -> (span p s).1 = EmptyString.
Proof. destruct s as [|c s]; simpl; [done|]. by destruct (p c). Qed.

(** The group of a pattern is a non-empty run of [[0-9.]]. *)
Lemma match_labelled_group kw s g :
  match_labelled kw s = Some g -> g <> "" /\ every isnum g = true.
Proof.
  unfold match_labelled. destruct (strip_prefix kw s) as [r|]; [|done].
  destruct (span issep r) as [seps r1]. destruct (is_empty seps); [done|].
  destruct (span isnum r1) as [num r2] eqn:E.
  destruct (is_empty num) eqn:En; [done|]. intros [= <-].
  apply span_spec in E as (_ & E & _). split; [|done]. by destruct num.
Qed.

Lemma match_fraction_group den s g :
  match_fraction den s = Some g -> g <> "" /\ every isnum g = true.
Proof.
  unfold match_fraction. destruct (span isnum s) as [num r] eqn:E.
  destruct (is_empty num) eqn:En; [done|]. destruct (span isspace r) as [? r1].
  destruct r1 as [|c r2]; [done|]. destruct (Ascii.eqb c "/"); [|done].
  destruct (span isspace r2) as [? r3]. destruct (startswith den r3); [|done].
  intros [= <-]. apply span_spec in E as (_ & E & _). split; [|done]. by destruct num.
Qed.

Lemma search_inv m s g : search m s = Some g -> exists s', m s' = Some g.
Proof.
  induction s as [|c s IH]; simpl.
  - destruct (m "") eqn:E; [|done]. intros [= <-]. by exists "".
  - destruct (m (String c s)) eqn:E; [intros [= <-]; by eexists | done].
Qed.

Lemma first_match_group t g :
  first_match patterns t = Some g -> g <> "" /\ every isnum g = true.
Proof.
  unfold patterns. cbn [first_match].
  destruct (search (match_labelled "score") t) eqn:E1.
  { intros [= <-]. apply search_inv in E1 as [s' E]. by eapply match_labelled_group. }
  destruct (search (match_labelled "rating") t) eqn:E2.
  { intros [= <-]. apply search_inv in E2 as [s' E]. by eapply match_labelled_group. }
  destruct (search (match_fraction "10") t) eqn:E3.
  { intros [= <-]. apply search_inv in E3 as [s' E]. by eapply match_fraction_group. }
  destruct (search (match_fraction "100") t) eqn:E4; [|done].
  intros [= <-]. apply search_inv in E4 as [s' E]. by eapply match_fraction_group.
Qed.

(** *** A text without a number *)

Lemma every_tail p c s : every p (String c s) = true -> every p s = true.
Proof. simpl. by intros [_ ?]%andb_prop. Qed.

Lemma strip_prefix_every p kw : forall s r,
  every p s = true -> strip_prefix kw s = Some r -> every p r = true.
Proof.
  induction kw as [|a kw IH]; intros s r Hs; simpl.
  - by intros [= <-].
  - destruct s as [|b s]; [done|]. destruct (Ascii.eqb a b); [|done].
    apply IH. by eapply every_tail.
Qed.

Lemma span_rest_every q p s a b :
  every q s = true -> span p s = (a, b) -> every q b = true.
Proof.
  revert a b. induction s as [|c s IH]; intros a b Hs; simpl.
  - by intros [= <- <-].
  - destruct (p c).
    + destruct (span p s) as [a' b'] eqn:E. intros [= <- <-].
      eapply IH; [by eapply every_tail | done].
    + by intros [= <- <-].
Qed.

Lemma match_labelled_no_number kw s :
  no_number s = true -> match_labelled kw s = None.
Proof.
  unfold no_number, match_labelled. intros Hs.
  destruct (strip_prefix kw s) as [r|] eqn:Er; [|done].
  pose proof (strip_prefix_every _ _ _ _ Hs Er) as Hr.
  destruct (span issep r) as [seps r1] eqn:E1. destruct (is_empty seps); [done|].
  pose proof (span_rest_every _ _ _ _ _ Hr E1) as Hr1.
  pose proof (span_none isnum r1 Hr1) as Hn.
  destruct (span isnum r1) as [num r2]. simpl in Hn. by subst.
Qed.

Lemma match_fraction_no_number den s :
  no_number s = true -> match_fraction den s = None.
Proof.
  unfold no_number, match_fraction. intros Hs.
  pose proof (span_none isnum s Hs) as Hn.
  destruct (span isnum s) as [num r]. simpl in Hn. by subst.
Qed.

Lemma search_no_number m s :
  (forall s', no_number s' = true -> m s' = None) ->
  no_number s = true -> search m s = None.
Proof.
  intros Hm. induction s as [|c s IH]; intros Hs; simpl; rewrite (Hm _ Hs); [done|].
  apply IH. by eapply every_tail.
Qed.

Lemma isnum_lower_char c : isnum (lower_char c) = isnum c.
Proof. destruct c as [[] [] [] [] [] [] [] []]; reflexivity. Qed.

Lemma no_number_lower s : no_number (lower s) = no_number s.
Proof.
  unfold no_number. induction s as [|c s IH]; [done|].
  simpl. by rewrite isnum_lower_char, IH.
Qed.

Lemma first_match_no_number t : no_number t = true -> first_match patterns t = None.
Proof.
  intros Ht. unfold patterns. cbn [first_match].
  rewrite !search_no_number;
    auto using match_labelled_no_number, match_fraction_no_number.
Qed.

End Patterns.

(** X3. On a text without a digit and without a point no score pattern
    matches, and [_extract_score] returns the keyword score of the lower-case
    text; it does not raise. *)
Theorem extract_score_without_number (evaluation_text : string) :
  no_number evaluation_text = true ->
  first_match patterns (Text.lower evaluation_text) = None /\
  _extract_score evaluation_text = Return (keyword_score (Text.lower evaluation_text)).
Proof.
  intros H. rewrite <- no_number_lower in H. apply first_match_no_number in H.
  split; [done|]. unfold _extract_score. by rewrite H.
Qed.

Lemma extract_score_without_number_witness :
  no_number "A GOOD and accurate answer" = true /\
  _extract_score "A GOOD and accurate answer" = Return 0.75%Q.
Proof.
  split; [reflexivity|].
  destruct (extract_score_without_number "A GOOD and accurate answer") as [_ ->];
    reflexivity.
Defined.

Section Scales.
Import Text Re Float.

Lemma strip_prefix_app p q s :
  strip_prefix (p +:+ q) s = r ← strip_prefix p s; strip_prefix q r.
Proof.
  revert s. induction p as [|a p IH]; intros s; simpl; [done|].
  destruct s as [|b s]; [done|]. by destruct (Ascii.eqb a b).
Qed.

Lemma startswith_app p q s : startswith (p +:+ q) s = true -> startswith p s = true.
Proof.
  unfold startswith. rewrite strip_prefix_app.
  by destruct (strip_prefix p s).
Qed.

Lemma contains_app p q s : contains (p +:+ q) s = true -> contains p s = true.
Proof.
  induction s as [|c s IH]; simpl.
  - rewrite !orb_false_r. apply startswith_app.
  - intros [H|H]%orb_prop; apply orb_true_iff;
      [left; by eapply startswith_app | right; auto].
Qed.

Lemma match_fraction_app den q s g :
  match_fraction (den +:+ q) s = Some g -> match_fraction den s = Some g.
Proof.
  unfold match_fraction. destruct (span isnum s) as [num r].
  destruct (is_empty num); [done|]. destruct (span isspace r) as [? r1].
  destruct r1 as [|c r2]; [done|]. destruct (Ascii.eqb c "/"); [|done].
  destruct (span isspace r2) as [? r3].
  destruct (startswith (den +:+ q) r3) eqn:E; [|done].
  by rewrite (startswith_app _ _ _ E).
Qed.

Lemma search_some m m' s :
  (forall s' g, m s' = Some g -> is_Some (m' s')) ->
  is_Some (search m s) -> is_Some (search m' s).
Proof.
  intros Hm. induction s as [|c s IH]; simpl.
  - destruct (m "") eqn:E; [|by intros []]. intros _.
    destruct (Hm _ _ E) as [g' ->]. by eexists.
  - destruct (m (String c s)) eqn:E.
    + intros _. destruct (Hm _ _ E) as [g' ->]. by eexists.
    + intros H. destruct (m' (String c s)); [by eexists | auto].
Qed.

End Scales.

(** X4. In [_extract_score] the fourth pattern, a number over 100, never
    decides the match, since the third, a number over 10, matches wherever it
    does; and the branch of ["/100"] is never taken, since a text that
    contains ["/100"] contains ["/10"]: a matched number is divided by 10
    whenever the text contains ["/10"], and is scaled by its size otherwise. *)
Theorem hundred_scale_unreachable (evaluation_text : string) :
  let t := Text.lower evaluation_text in
  first_match patterns t
  = first_match [Re.match_labelled "score"; Re.match_labelled "rating";
                 Re.match_fraction "10"] t /\
  forall score,
    normalize t score
    = if Text.contains "/10" t then (score / 10)%Q
      else if Qle_bool score 1 then score
      else if Qle_bool score 10 then (score / 10)%Q
      else (score / 100)%Q.
Proof.
  intros t. split.
  - unfold patterns. cbn [first_match].
    destruct (Re.search (Re.match_labelled "score") t); [done|].
    destruct (Re.search (Re.match_labelled "rating") t); [done|].
    destruct (Re.search (Re.match_fraction "10") t) eqn:E10; [done|].
    destruct (Re.search (Re.match_fraction "100") t) eqn:E100; [|done].
    assert (H : is_Some (Re.search (Re.match_fraction "10") t)).
    { apply (search_some (Re.match_fraction "100")); [|by eexists].
      intros s1 g1 Hs. exists g1. by apply (match_fraction_app "10" "0"). }
    rewrite E10 in H. by destruct H.
  - intros score. unfold normalize.
    destruct (Text.contains "/10" t) eqn:E10; [done|].
    destruct (Text.contains "/100" t) eqn:E100; [|done].
    apply (contains_app "/10" "0") in E100. congruence.
Qed.

(** *** When the extraction raises *)

Section Numerals.
Import Text Re Float.

Lemma all_digits_every s : all_digits s = every isdigit s.
Proof. induction s as [|c s IH]; [done|]. cbn [all_digits every]. by rewrite IH. Qed.

Lemma count_chars_app p a b : count_chars p (a +:+ b) = count_chars p a + count_chars p b.
Proof. induction a as [|c a IH]; simpl; [done|]. destruct (p c); lia. Qed.

Lemma every_app p a b : every p (a +:+ b) = every p a && every p b.
Proof. induction a as [|c a IH]; simpl; [done|]. by rewrite IH, andb_assoc. Qed.

Lemma count_chars_nonneg p s : 0 <= count_chars p s.
Proof. induction s as [|c s IH]; simpl; [lia|]. destruct (p c); lia. Qed.

Lemma digits_no_point s : every isdigit s = true -> count_chars (Ascii.eqb ".") s = 0.
Proof.
  induction s as [|c s IH]; cbn [count_chars every]; [done|].
  intros [Hc H]%andb_prop.
  rewrite (IH H). destruct (Ascii.eqb_spec "." c) as [<-|]; [done | lia].
Qed.

Lemma no_point_digits s :
  every isnum s = true -> count_chars (Ascii.eqb ".") s = 0 -> every isdigit s = true.
Proof.
  induction s as [|c s IH]; cbn [count_chars every]; [done|].
  intros [Hc H]%andb_prop Hn.
  pose proof (count_chars_nonneg (Ascii.eqb ".") s).
  destruct (Ascii.eqb_spec "." c) as [<-|Hne]; [lia|].
  rewrite IH; [|done|lia]. unfold isnum in Hc.
  destruct (isdigit c); [done|]. simpl in Hc.
  apply Ascii.eqb_eq in Hc. congruence.
Qed.

Lemma digits_some_digit s :
  every isdigit s = true -> every (fun c => negb (isdigit c)) s = is_empty s.
Proof. destruct s as [|c s]; simpl; [done|]. by intros [-> _]%andb_prop. Qed.

Lemma parse_decimal g :
  every isnum g = true -> is_Some (parse g) <-> decimal g = true.
Proof.
  intros Hg. unfold parse. rewrite fmap_is_Some. unfold numeral, decimal.
  destruct (span isdigit g) as [ip r] eqn:E.
  apply span_spec in E as (-> & Hip & Hr).
  rewrite every_app in Hg. apply andb_prop in Hg as [_ Hg].
  rewrite count_chars_app, !every_app, (digits_no_point _ Hip), (digits_some_digit _ Hip).
  destruct r as [|c fp].
  - simpl. destruct ip; simpl; split; (done || by intros []).
  - simpl in Hg. apply andb_prop in Hg as [Hc Hfp].
    unfold isnum in Hc. rewrite Hr in Hc. simpl in Hc. apply Ascii.eqb_eq in Hc as ->.
    cbn [count_chars every Ascii.eqb]. change (Ascii.eqb "." ".") with true.
    change (isdigit ".") with false. cbn [negb andb].
    pose proof (count_chars_nonneg (Ascii.eqb ".") fp) as H0.
    rewrite all_digits_every.
    destruct (every isdigit fp) eqn:Hd.
    + rewrite (digits_no_point _ Hd), (digits_some_digit _ Hd). simpl.
      destruct (is_empty ip), (is_empty fp); simpl; split; (done || by intros []).
    + simpl. split; [by intros []|]. intros [H _]%andb_prop.
      apply Z.leb_le in H.
      rewrite (no_point_digits fp Hfp) in Hd; [done | lia].
Qed.

End Numerals.

(** X5. [_extract_score] raises exactly when the group of the first
    matching pattern is not a decimal numeral, having two points or more or no
    digit, and then with the [ValueError] of [float] on that group. *)
Theorem extract_score_raises (evaluation_text : string) (e : exn) :
  _extract_score evaluation_text = Raise e <->
  exists g,
    first_match patterns (Text.lower evaluation_text) = Some g /\ decimal g = false /\
    e = ValueError ("could not convert string to float: '" +:+ g +:+ "'").
Proof.
  unfold _extract_score.
  destruct (first_match patterns (Text.lower evaluation_text)) as [g|] eqn:E.
  - pose proof (first_match_group _ _ E) as [_ Hg].
    pose proof (parse_decimal g Hg) as Hd. unfold Float.float.
    destruct (Float.parse g) as [q|]; simpl.
    + split; [done|]. intros (g' & [= <-] & Hn & _).
      destruct Hd as [Hd _]. rewrite Hd in Hn; [done | by eexists].
    + split.
      * intros [= <-]. exists g. repeat split.
        destruct (decimal g); [|done]. destruct Hd as [_ Hd].
        by destruct (Hd eq_refl).
      * by intros (g' & [= <-] & _ & ->).
  - split; [done | by intros (g & ? & _)].
Qed.

Lemma extract_score_raises_witness :
  _extract_score "Rating: ..."
  = Raise (ValueError "could not convert string to float: '...'").
Proof.
  apply extract_score_raises. exists "...". repeat split; reflexivity.
Defined.

Lemma lower_char_idem c : Text.lower_char (Text.lower_char c) = Text.lower_char c.
Proof. destruct c as [[] [] [] [] [] [] [] []]; reflexivity. Qed.

Lemma lower_idem s : Text.lower (Text.lower s) = Text.lower s.
Proof. induction s as [|c s IH]; simpl; [done|]. by rewrite lower_char_idem, IH. Qed.

(** X6. [_extract_score] gives the same outcome on a text and on its
    lower-case form. *)
Theorem extract_score_ignores_case (evaluation_text : string) :
  _extract_score (Text.lower evaluation_text) = _extract_score evaluation_text.
Proof. unfold _extract_score. by rewrite lower_idem. Qed.

(** ** Providers *)

(** X7. After [register_provider(name, cls)], [create_provider] on a
    configuration whose provider type is [name] builds the provider of class
    [cls], whatever was registered under [name] before; registering another
    name leaves the outcome for that configuration as it was. *)
Theorem register_then_create name cls providers (cfg : model_config) :
  cfg_provider cfg = Some name ->
  LLMProviderFactory.create_provider
    (LLMProviderFactory.register_provider name cls providers) cfg
  = Return (BaseLLMProvider.__init__ cls cfg) /\
  forall name' cls', name' <> name ->
    LLMProviderFactory.create_provider
      (LLMProviderFactory.register_provider name' cls' providers) cfg
    = LLMProviderFactory.create_provider providers cfg.
Proof.
  intros E. unfold LLMProviderFactory.create_provider,
    LLMProviderFactory.register_provider. rewrite E. simpl. split.
  - by rewrite lookup_insert_eq.
  - intros name' cls' Hne. by rewrite lookup_insert_ne.
Qed.

Lemma register_then_create_witness :
  let cfg := {| cfg_name := Some "m"; cfg_provider := Some "openai";
                cfg_model_id := None; cfg_cost_per_1k_tokens := None;
                cfg_max_tokens := None |} in
  LLMProviderFactory.create_provider
    (LLMProviderFactory.register_provider "openai" ClsMock LLMProviderFactory._providers)
    cfg
  = Return {| p_class := ClsMock; p_name := "m"; p_model_id := "unknown";
              p_cost_per_1k_tokens := Some 0.0%Q; p_max_tokens := 4096 |}.
Proof.
  intros cfg.
  destruct (register_then_create "openai" ClsMock LLMProviderFactory._providers cfg
              eq_refl) as [H _].
  exact H.
Defined.

Section Estimates.
Import Text.

Lemma Qfloor_div_3_5 n : Qfloor (inject_Z n / 3.5)%Q = (n * 10) / 35.
Proof. reflexivity. Qed.

Lemma len_nonneg s : 0 <= len s.
Proof. unfold len. lia. Qed.

End Estimates.

(** The estimate is a quotient of the length, which is not negative. *)
Ltac tokens_in_range :=
  match goal with
  | |- context [Text.len ?t] => generalize (len_nonneg t); generalize (Text.len t)
  end;
  let n := fresh "n" in
  let Hn := fresh "Hn" in
  intros n Hn; split; [apply Z.div_pos; lia | apply Z.div_le_upper_bound; lia].

(** X8. In demo mode, that is for the mock provider and for the OpenAI
    and Anthropic providers with the dummy key: when the rate of the provider
    is a number, [generate_completion] returns a response without error,
    whose content is a text and whose [tokens_used] is the [estimate_tokens]
    of the same provider on the prompt followed by the content, a number
    between 0 and the length of that text; when the rate is [None], the mock
    provider raises the [TypeError] of the product of the cost, and the two
    others return a response that reports it as an API error, with an empty
    content, no tokens and no cost. *)
Theorem demo_tokens_are_estimated (self : provider) env prompt :
  match p_class self with
  | ClsOpenAI => env_openai_key_is_dummy env = true
  | ClsAnthropic => env_anthropic_key_is_dummy env = true
  | ClsMock => True
  end ->
  let out := generate_completion self env prompt in
  let no_rate := "unsupported operand type(s) for *: 'float' and 'NoneType'" in
  let reports msg :=
    exists response,
      out = Return response /\ error response = Some msg /\
      content response = Some "" /\ tokens_used response = 0 /\
      cost_usd response = 0.0%Q in
  match p_cost_per_1k_tokens self with
  | Some _ =>
      exists response text,
        out = Return response /\ error response = None /\
        content response = Some text /\
        tokens_used response = estimate_tokens self (prompt +:+ text) /\
        0 <= tokens_used response <= Text.len (prompt +:+ text)
  | None =>
      match p_class self with
      | ClsOpenAI => reports ("OpenAI API error: " +:+ no_rate)
      | ClsAnthropic => reports ("Anthropic API error: " +:+ no_rate)
      | ClsMock => out = Raise (TypeError no_rate)
      end
  end.
Proof.
  unfold generate_completion, estimate_tokens,
    OpenAIProvider.generate_completion, AnthropicProvider.generate_completion,
    MockProvider.generate_completion, OpenAIProvider._create_mock_response,
    AnthropicProvider._create_mock_response, BaseLLMProvider._create_response,
    BaseLLMProvider.calculate_cost, OpenAIProvider.estimate_tokens,
    AnthropicProvider.estimate_tokens, MockProvider.estimate_tokens.
  destruct (p_class self), (p_cost_per_1k_tokens self) as [rate|]; intros Hd;
    rewrite ?Hd; cbn [mbind outcome_bind truthy negb Text.is_empty].
  1, 3, 5: eexists _, _; split; [reflexivity|]; split; [reflexivity|];
    split; [reflexivity|]; cbn [tokens_used];
    rewrite ?Qfloor_Z, ?Qfloor_div_3_5; split; [reflexivity|]; tokens_in_range.
  1, 2: by eexists.
  reflexivity.
Qed.

Lemma demo_tokens_are_estimated_witness :
  let self rate := {| p_class := ClsAnthropic; p_name := "C"; p_model_id := "c";
                      p_cost_per_1k_tokens := rate; p_max_tokens := 4096 |} in
  let out rate := generate_completion (self rate) Sample.env "Is this logic sound?" in
  (exists response text,
     out (Some 0.015%Q) = Return response /\ error response = None /\
     content response = Some text /\
     tokens_used response = estimate_tokens (self (Some 0.015%Q))
                              ("Is this logic sound?" +:+ text)) /\
  (exists response,
     out None = Return response /\
     error response
     = Some "Anthropic API error: unsupported operand type(s) for *: 'float' and 'NoneType'").
Proof.
  intros self out. split.
  - destruct (demo_tokens_are_estimated (self (Some 0.015%Q)) Sample.env
                "Is this logic sound?" eq_refl)
      as (response & text & H1 & H2 & H3 & H4 & _).
    by exists response, text.
  - destruct (demo_tokens_are_estimated (self None) Sample.env
                "Is this logic sound?" eq_refl) as (response & H1 & H2 & _).
    by exists response.
Defined.

(** X9. For every text the estimates of the OpenAI and of the mock
    provider agree and are not negative, they are at most the estimate of the
    Anthropic provider, and that one is at most the length of the text. *)
Theorem estimate_tokens_order (text : string) :
  0 <= OpenAIProvider.estimate_tokens text /\
  OpenAIProvider.estimate_tokens text = MockProvider.estimate_tokens text /\
  OpenAIProvider.estimate_tokens text <= AnthropicProvider.estimate_tokens text /\
  AnthropicProvider.estimate_tokens text <= Text.len text.
Proof.
  unfold OpenAIProvider.estimate_tokens, MockProvider.estimate_tokens,
    AnthropicProvider.estimate_tokens.
  rewrite Qfloor_Z, Qfloor_div_3_5.
  generalize (len_nonneg text). generalize (Text.len text). intros n Hn.
  split; [apply Z.div_pos; lia|]. split; [done|].
  split; [|apply Z.div_le_upper_bound; lia].
  apply Z.div_le_lower_bound; [lia|].
  pose proof (Z.mul_div_le n 4 ltac:(lia)). lia.
Qed.

(** ** The outcome of one pair *)

Lemma evaluators_lookup category ev :
  evaluators !! category = Some ev <->
  (category = "summarization" /\ ev = Summarization) \/
  (category = "qa" /\ ev = QA) \/ (category = "reasoning" /\ ev = Reasoning).
Proof.
  unfold evaluators.
  rewrite !lookup_insert_Some, lookup_singleton_Some. split.
  - intros [[<- <-]|[? [[<- <-]|[? [<- <-]]]]]; auto.
  - intros [[-> ->]|[[-> ->]|[-> ->]]]; auto.
    right. split; [done|]. right. done.
Qed.

(** The outcome of a scorer on the content of a response. *)
Lemma evaluate_response_outcome ev (test_case : test_case_dict) model_response :
  let out := evaluate_response ev test_case model_response in
  let scored lo hi :=
    exists evaluation, out = Return evaluation /\ (lo <= ev_score evaluation)%Q /\
                       (ev_score evaluation <= hi)%Q in
  match ev, model_response with
  | Summarization, None =>
      out = Raise (TypeError "object of type 'NoneType' has no len()")
  | Summarization, Some _ =>
      if blank (td_input_text test_case)
      then out = Raise (ZeroDivisionError "division by zero")
      else scored 0.6%Q 0.95%Q
  | QA, Some _ =>
      match td_expected_output test_case with
      | Some expected =>
          if negb (Text.is_empty expected) && blank expected
          then out = Raise (ZeroDivisionError "division by zero")
          else scored 0.5%Q 0.9%Q
      | None => out = Raise (AttributeError "'NoneType' object has no attribute 'lower'")
      end
  | Reasoning, Some _ => scored 0.5%Q 1%Q
  | (QA | Reasoning), None =>
      out = Raise (AttributeError "'NoneType' object has no attribute 'lower'")
  end.
Proof.
  cbv zeta. unfold evaluate_response.
  destruct ev, model_response as [text|]; try reflexivity.
  - pose proof (summarization_evaluation test_case text) as H.
    destruct (SummarizationEvaluator.evaluate_response test_case text) as [ev|e].
    + destruct H as (-> & H). by exists ev.
    + by destruct H as (-> & ->).
  - pose proof (qa_evaluation test_case text) as H. cbv zeta in H.
    destruct (td_expected_output test_case) as [expected|]; [|done].
    destruct (QAEvaluator.evaluate_response test_case text) as [ev|e].
    + destruct H as (Hb & H).
      assert (negb (Text.is_empty expected) && blank expected = false) as ->.
      { destruct Hb as [-> | ->]; [done | apply andb_false_r]. }
      by exists ev.
    + destruct H as (Hne & -> & ->). by destruct expected.
  - apply reasoning_evaluation.
Qed.

(** The outcome of a pair is decided, in this order, by the registry, by
    the rate of a mock provider, by the category, by the presence of a text
    in the response and by the texts of the test case. *)
Lemma evaluate_pair_outcome providers env eval_run_id model test_case :
  let out := evaluate_pair providers env eval_run_id model test_case in
  let scored lo hi :=
    exists r, out = Return r /\ (lo <= r_accuracy_score r)%Q /\
              (r_accuracy_score r <= hi)%Q in
  match providers !! m_provider model with
  | None => out = Raise (ValueError ("Unknown provider type: " +:+ m_provider model))
  | Some cls =>
      if mock_without_rate cls model
      then out = Raise (TypeError
                          "unsupported operand type(s) for *: 'float' and 'NoneType'")
      else
        let no_text := reply_without_text cls env && has_rate model in
        match evaluators !! tc_category test_case with
        | None => out = Raise (ValueError ("No evaluator found for category: "
                                           +:+ tc_category test_case))
        | Some Summarization =>
            if no_text
            then out = Raise (TypeError "object of type 'NoneType' has no len()")
            else if blank (tc_input_text test_case)
                 then out = Raise (ZeroDivisionError "division by zero")
                 else scored 0.6%Q 0.95%Q
        | Some QA =>
            match tc_expected_output test_case with
            | None =>
                out = Raise (AttributeError "'NoneType' object has no attribute 'lower'")
            | Some expected =>
                if no_text
                then out = Raise (AttributeError
                                    "'NoneType' object has no attribute 'lower'")
                else if negb (Text.is_empty expected) && blank expected
                     then out = Raise (ZeroDivisionError "division by zero")
                     else scored 0.5%Q 0.9%Q
            end
        | Some Reasoning =>
            if no_text
            then out = Raise (AttributeError
                                "'NoneType' object has no attribute 'lower'")
            else scored 0.5%Q 1%Q
        end
  end.
Proof.
  cbv zeta. unfold evaluate_pair, LLMProviderFactory.create_provider.
  cbn [cfg_provider default from_option id].
  destruct (providers !! m_provider model) as [cls|]; [|reflexivity].
  cbn [mbind outcome_bind]. fold (provider_of cls model).
  pose proof (generate_completion_raises (provider_of cls model) env
                (tc_input_text test_case)) as Hraise.
  pose proof (generate_completion_content (provider_of cls model) env
                (tc_input_text test_case)) as Hcontent.
  cbn [provider_of p_class p_cost_per_1k_tokens] in Hraise, Hcontent.
  destruct (generate_completion _ env _) as [response|e0].
  2:{ destruct (Hraise e0) as [(-> & E & ->) _]; [done|].
      unfold mock_without_rate. by rewrite E. }
  assert (mock_without_rate cls model = false) as ->.
  { unfold mock_without_rate. destruct cls; try done.
    destruct (m_cost_per_1k_tokens model); [done|].
    by destruct (Hraise (TypeError
      "unsupported operand type(s) for *: 'float' and 'NoneType'")) as [_ H];
      specialize (H ltac:(done)). }
  specialize (Hcontent response eq_refl). clear Hraise.
  assert (Htext : if reply_without_text cls env && has_rate model
                  then content response = None else is_Some (content response)).
  { unfold has_rate. destruct (content response) as [text|].
    - destruct (reply_without_text cls env), (m_cost_per_1k_tokens model);
        try (by eexists). by destruct (proj2 Hcontent).
    - destruct (proj1 Hcontent eq_refl) as [-> [rate ->]]. done. }
  clear Hcontent. cbn [mbind outcome_bind].
  destruct (evaluators !! tc_category test_case) as [ev|]; [|reflexivity].
  cbn [mbind outcome_bind].
  match goal with |- context [evaluate_response ev ?t ?c] =>
    pose proof (evaluate_response_outcome ev t c) as H end.
  cbv zeta in H. cbn [td_input_text td_expected_output] in H.
  destruct (reply_without_text cls env && has_rate model).
  - rewrite Htext in H |- *. destruct ev; rewrite H; try reflexivity.
    by destruct (tc_expected_output test_case).
  - destruct Htext as [text Htext]. rewrite Htext in H |- *.
    assert (Hscored : forall lo hi,
      (exists evaluation,
         evaluate_response ev
           {| td_input_text := tc_input_text test_case;
              td_expected_output := tc_expected_output test_case;
              td_category := tc_category test_case;
              td_evaluation_criteria := tc_evaluation_criteria test_case |}
           (Some text) = Return evaluation /\
         (lo <= ev_score evaluation)%Q /\ (ev_score evaluation <= hi)%Q) ->
      exists r,
        (evaluation ← evaluate_response ev
           {| td_input_text := tc_input_text test_case;
              td_expected_output := tc_expected_output test_case;
              td_category := tc_category test_case;
              td_evaluation_criteria := tc_evaluation_criteria test_case |}
           (Some text);
         Return
           {| r_evaluation_run_id := eval_run_id; r_model_id := m_id model;
              r_test_case_id := tc_id test_case; r_model_output := Some text;
              r_accuracy_score := ev_score evaluation;
              r_response_time_ms := response_time_ms response;
              r_tokens_used := tokens_used response;
              r_cost_usd := cost_usd response;
              r_error_message := error response;
              r_agent_feedback := Some (ev_feedback evaluation) |}) = Return r /\
        (lo <= r_accuracy_score r)%Q /\ (r_accuracy_score r <= hi)%Q).
    { intros lo hi (evaluation & -> & Hs). by eexists. }
    destruct ev.
    + destruct (blank (tc_input_text test_case)); [by rewrite H | by apply Hscored].
    + destruct (tc_expected_output test_case) as [expected|]; [|by rewrite H].
      destruct (_ && _); [by rewrite H | by apply Hscored].
    + by apply Hscored.
Qed.

(** X10. The evaluation of one pair raises in the following cases and in
    no other, the first that applies giving the exception: the provider type
    of the model is not registered; the provider is the mock one and the
    rate of the model is null, so that the cost cannot be computed; the
    category has no evaluator; the response has no text, which is the case
    of a remote reply without text for a model with a rate; the category is
    summarization and the input text is blank; the category is qa and there
    is no expected output; the category is qa and the expected output is
    non-empty white space.  A failing remote call does not make the pair
    raise, nor does a null rate with the two other providers. *)
Theorem pair_failure_causes providers env eval_run_id model test_case e :
  evaluate_pair providers env eval_run_id model test_case = Raise e <->
  match providers !! m_provider model with
  | None => e = ValueError ("Unknown provider type: " +:+ m_provider model)
  | Some cls =>
      if mock_without_rate cls model
      then e = TypeError "unsupported operand type(s) for *: 'float' and 'NoneType'"
      else
        let no_text := reply_without_text cls env && has_rate model in
        match evaluators !! tc_category test_case with
        | None =>
            e = ValueError ("No evaluator found for category: "
                            +:+ tc_category test_case)
        | Some Summarization =>
            if no_text
            then e = TypeError "object of type 'NoneType' has no len()"
            else blank (tc_input_text test_case) = true /\
                 e = ZeroDivisionError "division by zero"
        | Some QA =>
            match tc_expected_output test_case with
            | None => e = AttributeError "'NoneType' object has no attribute 'lower'"
            | Some expected =>
                if no_text
                then e = AttributeError "'NoneType' object has no attribute 'lower'"
                else expected <> "" /\ blank expected = true /\
                     e = ZeroDivisionError "division by zero"
            end
        | Some Reasoning =>
            no_text = true /\
            e = AttributeError "'NoneType' object has no attribute 'lower'"
        end
  end.
Proof.
  pose proof (evaluate_pair_outcome providers env eval_run_id model test_case) as H.
  cbv zeta in H |- *.
  assert (Hraise : forall e0,
    evaluate_pair providers env eval_run_id model test_case = Raise e0 ->
    evaluate_pair providers env eval_run_id model test_case = Raise e <-> e = e0).
  { intros e0 ->. split; [by intros [= <-] | by intros ->]. }
  assert (Hscored : forall lo hi (P : Prop),
    (exists r, evaluate_pair providers env eval_run_id model test_case = Return r /\
               (lo <= r_accuracy_score r)%Q /\ (r_accuracy_score r <= hi)%Q) ->
    ~ P -> evaluate_pair providers env eval_run_id model test_case = Raise e <-> P).
  { intros lo hi P (r & -> & _) HP. split; [done | by intros ?]. }
  destruct (providers !! m_provider model) as [cls|]; [|by apply Hraise].
  destruct (mock_without_rate cls model); [by apply Hraise|].
  destruct (evaluators !! tc_category test_case) as [[| |]|]; [| | |by apply Hraise].
  - destruct (reply_without_text _ env && _); [by apply Hraise|].
    destruct (blank (tc_input_text test_case)).
    + rewrite (Hraise _ H). by intuition.
    + apply (Hscored _ _ _ H). by intros [? _].
  - destruct (tc_expected_output test_case) as [expected|]; [|by apply Hraise].
    destruct (reply_without_text _ env && _); [by apply Hraise|].
    destruct (negb (Text.is_empty expected) && blank expected) eqn:Hb.
    + rewrite (Hraise _ H). apply andb_prop in Hb as [Hne ->].
      split; [intros ->; by destruct expected | by intros (_ & _ & ->)].
    + apply (Hscored _ _ _ H). intros (Hne & Hb' & _).
      rewrite Hb', andb_true_r in Hb. by destruct expected.
  - destruct (reply_without_text _ env && _).
    + rewrite (Hraise _ H). by intuition.
    + apply (Hscored _ _ _ H). by intros [? _].
Qed.

Lemma pair_failure_causes_witness :
  evaluate_pair LLMProviderFactory._providers Sample.env 1 Sample.model_b
    Sample.case_reasoning
  = Raise (ValueError "Unknown provider type: local") /\
  evaluate_pair LLMProviderFactory._providers Sample.env 1 Sample.model_free
    Sample.case_reasoning
  = Raise (TypeError "unsupported operand type(s) for *: 'float' and 'NoneType'") /\
  evaluate_pair LLMProviderFactory._providers Sample.env_no_text 1 Sample.model_c
    Sample.case_reasoning
  = Raise (AttributeError "'NoneType' object has no attribute 'lower'").
Proof.
  split; [|split]; apply pair_failure_causes.
  - reflexivity.
  - reflexivity.
  - split; reflexivity.
Defined.

(** ** The rows of a run *)

Section RunRows.
Context (providers : gmap string provider_class) (world : Z -> Z -> call_env).

Lemma run_rows_in id models test_cases r :
  In r (run_rows providers world id models test_cases) <->
  exists model test_case,
    In model models /\ In test_case test_cases /\
    r = pair_row providers world id model test_case.
Proof.
  unfold run_rows. rewrite in_flat_map. split.
  - intros (model & Hm & (test_case & <- & Ht)%in_map_iff). by exists model, test_case.
  - intros (model & test_case & Hm & Ht & ->). exists model. split; [done|].
    apply in_map_iff. by exists test_case.
Qed.

Lemma run_rows_length id models test_cases :
  Zlen (run_rows providers world id models test_cases)
  = Zlen models * Zlen test_cases.
Proof.
  unfold Zlen, run_rows. induction models as [|m ms IH]; [done|].
  cbn [flat_map]. rewrite length_app, length_map. cbn [length]. lia.
Qed.

(** What the loop stores for a pair: a score in the unit interval, and no
    empty error message. *)
Lemma pair_row_sound id model test_case :
  let r := pair_row providers world id model test_case in
  (0 <= r_accuracy_score r)%Q /\ (r_accuracy_score r <= 1)%Q /\
  (successful r = true <-> r_error_message r = None).
Proof.
  cbv zeta. unfold pair_row.
  pose proof (evaluate_pair_outcome providers (world (m_id model) (tc_id test_case))
                id model test_case) as H.
  pose proof (evaluate_pair_inv providers (world (m_id model) (tc_id test_case))
                id model test_case) as Hinv.
  cbv zeta in H.
  assert (Hret : forall lo hi,
    (exists r,
       evaluate_pair providers (world (m_id model) (tc_id test_case)) id model test_case
       = Return r /\ (lo <= r_accuracy_score r)%Q /\ (r_accuracy_score r <= hi)%Q) ->
    (0 <= lo)%Q -> (hi <= 1)%Q ->
    let r := match evaluate_pair providers (world (m_id model) (tc_id test_case))
                     id model test_case with
             | Return result => result
             | Raise e => error_result id model test_case e
             end in
    (0 <= r_accuracy_score r)%Q /\ (r_accuracy_score r <= 1)%Q /\
    (successful r = true <-> r_error_message r = None)).
  { intros lo hi (r & Hr & H1 & H2) Hlo Hhi. cbv zeta. rewrite Hr.
    split; [by apply (Qle_trans _ lo)|]. split; [by apply (Qle_trans _ hi)|].
    destruct (Hinv r Hr) as (cls & response & _ & Hg & Hf).
    destruct Hf as (_ & _ & _ & _ & _ & _ & _ & He).
    unfold successful. rewrite He.
    destruct (error response) as [msg|] eqn:E; [|done].
    apply (generate_completion_error _ _ _ _ _ Hg) in E as (_ & _ & _ & ->). done. }
  assert (Hraise : forall e, str_exn e <> "" ->
    evaluate_pair providers (world (m_id model) (tc_id test_case)) id model test_case
    = Raise e ->
    let r := match evaluate_pair providers (world (m_id model) (tc_id test_case))
                     id model test_case with
             | Return result => result
             | Raise e => error_result id model test_case e
             end in
    (0 <= r_accuracy_score r)%Q /\ (r_accuracy_score r <= 1)%Q /\
    (successful r = true <-> r_error_message r = None)).
  { intros e He ->. cbv zeta. unfold successful.
    cbn [error_result r_accuracy_score r_error_message truthy].
    split; [done|]. split; [done|]. destruct (str_exn e); [done|]. done. }
  destruct (providers !! m_provider model) as [cls|]; [|by refine (Hraise _ _ H)].
  destruct (mock_without_rate cls model); [by refine (Hraise _ _ H)|].
  destruct (evaluators !! tc_category test_case) as [[| |]|]; [| | |by refine (Hraise _ _ H)].
  - destruct (reply_without_text _ _ && _); [by refine (Hraise _ _ H)|].
    destruct (blank (tc_input_text test_case)); [by refine (Hraise _ _ H)|].
    by apply (Hret 0.6%Q 0.95%Q).
  - destruct (tc_expected_output test_case) as [expected|]; [|by refine (Hraise _ _ H)].
    destruct (reply_without_text _ _ && _); [by refine (Hraise _ _ H)|].
    destruct (negb _ && _); [by refine (Hraise _ _ H)|]. by apply (Hret 0.5%Q 0.9%Q).
  - destruct (reply_without_text _ _ && _); [by refine (Hraise _ _ H)|].
    by apply (Hret 0.5%Q 1%Q).
Qed.

End RunRows.

(** X11. If the accuracy score of every stored result lies in the unit
    interval, the same holds after any [run_evaluation]. *)
Theorem run_scores_in_unit_interval providers world evaluation_name model_ids
    test_case_ids categories db :
  (forall r, In r (db_results db) ->
             (0 <= r_accuracy_score r)%Q /\ (r_accuracy_score r <= 1)%Q) ->
  let out := run providers world evaluation_name model_ids test_case_ids categories db in
  forall r, In r (db_results out.1) ->
            (0 <= r_accuracy_score r)%Q /\ (r_accuracy_score r <= 1)%Q.
Proof.
  intros Hold out r.
  pose proof (run_tables providers world evaluation_name model_ids test_case_ids
                categories db) as (E & _).
  fold out in E. rewrite E, in_app_iff. intros [Hin|Hin]; [auto|].
  apply run_rows_in in Hin as (model & test_case & _ & _ & ->).
  pose proof (pair_row_sound providers world (Db.next_run_id db) model test_case)
    as (H1 & H2 & _).
  done.
Qed.

Lemma run_scores_in_unit_interval_witness :
  let db := Sample.tables [Sample.model_a; Sample.model_b; Sample.model_c]
              [Sample.case_reasoning; Sample.case_qa] in
  let out := run LLMProviderFactory._providers Sample.world "sample" [1; 2; 3]
               None None db in
  length (db_results out.1) = 6%nat /\
  forall r, In r (db_results out.1) ->
            (0 <= r_accuracy_score r)%Q /\ (r_accuracy_score r <= 1)%Q.
Proof.
  intros db out. split; [reflexivity|].
  apply (run_scores_in_unit_interval LLMProviderFactory._providers Sample.world "sample"
           [1; 2; 3] None None db).
  simpl. tauto.
Defined.

(** X12. [run_evaluation] stores no empty error message: if, for every
    stored result, [not error_message] holds exactly when the error message is
    null, the same is true of the results stored after the run. *)
Theorem run_error_messages_not_empty providers world evaluation_name model_ids
    test_case_ids categories db :
  (forall r, In r (db_results db) ->
             (successful r = true <-> r_error_message r = None)) ->
  let out := run providers world evaluation_name model_ids test_case_ids categories db in
  forall r, In r (db_results out.1) ->
            (successful r = true <-> r_error_message r = None).
Proof.
  intros Hold out r.
  pose proof (run_tables providers world evaluation_name model_ids test_case_ids
                categories db) as (E & _).
  fold out in E. rewrite E, in_app_iff. intros [Hin|Hin]; [auto|].
  apply run_rows_in in Hin as (model & test_case & _ & _ & ->).
  by pose proof (pair_row_sound providers world (Db.next_run_id db) model test_case)
    as (_ & _ & H).
Qed.

Lemma run_error_messages_not_empty_witness :
  let db := Sample.tables [Sample.model_a; Sample.model_b; Sample.model_c]
              [Sample.case_reasoning; Sample.case_qa] in
  let out := run LLMProviderFactory._providers Sample.world "sample" [1; 2; 3]
               None None db in
  length (db_results out.1) = 6%nat /\
  forall r, In r (db_results out.1) ->
            (successful r = true <-> r_error_message r = None).
Proof.
  intros db out. split; [reflexivity|].
  apply (run_error_messages_not_empty LLMProviderFactory._providers Sample.world
           "sample" [1; 2; 3] None None db).
  simpl. tauto.
Defined.

(** ** The rows that the aggregation reads *)

Lemma filter_all {A} (p : A -> bool) l :
  (forall x, In x l -> p x = true) -> List.filter p l = l.
Proof.
  induction l as [|x l IH]; intros H; simpl; [done|].
  rewrite (H x) by by left. f_equal. apply IH. intros y Hy. apply H. by right.
Qed.

Section Flushed.
Context (providers : gmap string provider_class) (world : Z -> Z -> call_env).
Context (id : Z).

Lemma attempts_flat m test_cases : forall st,
  foldl (attempt providers world id m) st test_cases
  = foldl (fun st p => attempt providers world id p.1 st p.2) st
      (map (pair m) test_cases).
Proof.
  induction test_cases as [|tc tcs IH]; intros st; cbn [foldl map fst snd]; [done|].
  apply IH.
Qed.

Lemma run_pairs_flat models test_cases : forall st,
  run_pairs providers world id models test_cases st
  = foldl (fun st p => attempt providers world id p.1 st p.2) st
      (pairs_of models test_cases).
Proof.
  unfold run_pairs, pairs_of.
  induction models as [|m ms IH]; intros st; cbn [foldl flat_map]; [done|].
  by rewrite foldl_app, <- attempts_flat, IH.
Qed.

Lemma flushed_rows_none pairs :
  existsb (pair_returns providers world id) pairs = false ->
  flushed_rows providers world id pairs = [].
Proof. destruct pairs as [|p rest]; cbn [flushed_rows]; [done|]. by intros ->. Qed.

Lemma attempts_flushed pairs : forall db all_results,
  db_results (foldl (fun st p => attempt providers world id p.1 st p.2)
                (db, all_results) pairs).1
  = if existsb (pair_returns providers world id) pairs
    then db_results db ++ db_pending_results db ++ flushed_rows providers world id pairs
    else db_results db.
Proof.
  induction pairs as [|[m tc] rest IH]; intros db all_results; [done|].
  cbn [foldl flushed_rows]. cbn [existsb]. unfold pair_returns at 1 3, pair_row.
  cbn [fst snd]. unfold attempt at 2, _evaluate_single_case.
  destruct (evaluate_pair providers (world (m_id m) (tc_id tc)) id m tc) as [r|e].
  - cbn [orb]. rewrite IH. cbn [Db.commit Db.add_result db_results db_pending_results].
    destruct (existsb _ rest) eqn:E.
    + cbn [app]. by rewrite <- !app_assoc.
    + by rewrite (flushed_rows_none rest E).
  - cbn [orb]. rewrite IH. cbn [Db.add_result db_results db_pending_results].
    destruct (existsb _ rest) eqn:E; [|done].
    by rewrite <- !app_assoc.
Qed.

Lemma flushed_rows_in pairs r :
  In r (flushed_rows providers world id pairs) ->
  exists p, In p pairs /\ r = pair_row providers world id p.1 p.2.
Proof.
  induction pairs as [|p rest IH]; cbn [flushed_rows]; [done|].
  destruct (existsb _ _); [|done]. intros [<-|Hin].
  - exists p. split; [by left | done].
  - destruct (IH Hin) as (p' & Hp' & ->). exists p'. split; [by right | done].
Qed.

Lemma pairs_of_in models test_cases p :
  In p (pairs_of models test_cases) <-> In p.1 models /\ In p.2 test_cases.
Proof.
  unfold pairs_of. rewrite in_flat_map. split.
  - intros (m & Hm & (tc & <- & Ht)%in_map_iff). done.
  - intros [Hm Ht]. exists p.1. split; [done|]. apply in_map_iff. exists p.2.
    split; [by destruct p | done].
Qed.

End Flushed.

Lemma group_results_tables db db' rs : forall d,
  db_test_cases db' = db_test_cases db ->
  group_results db' rs d = group_results db rs d.
Proof.
  induction rs as [|r rs IH]; intros d E; cbn [group_results]; [done|].
  unfold Db.test_case_of. rewrite E.
  destruct (List.find _ _); [|done]. by apply IH.
Qed.

(** ** The outcome of a run on well-keyed tables *)

Lemma group_results_total db rs : forall d,
  (forall r, In r rs -> is_Some (Db.test_case_of r db)) ->
  exists d', group_results db rs d = Return d'.
Proof.
  induction rs as [|r rs IH]; intros d H; cbn [group_results]; [by eexists|].
  destruct (H r) as [tc ->]; [by left|]. apply IH. intros r' Hr'. apply H. by right.
Qed.

Lemma run_test_cases_in test_case_ids categories db tc :
  In tc (run_test_cases test_case_ids categories db) -> In tc (db_test_cases db).
Proof.
  unfold run_test_cases, Db.query_test_cases.
  destruct (given test_case_ids), (given categories); rewrite ?filter_In; tauto.
Qed.

Lemma run_models_in model_ids db m :
  In m (run_models model_ids db) -> In m (db_models db) /\ m_is_active m = true.
Proof.
  unfold run_models, Db.query_models. rewrite filter_In.
  intros [? [_ ?]%andb_prop]. done.
Qed.

Lemma find_is_Some {A} (p : A -> bool) l x :
  In x l -> p x = true -> is_Some (List.find p l).
Proof.
  intros Hin Hp. destruct (List.find p l) eqn:E; [by eexists|].
  by rewrite (find_none _ _ E x Hin) in Hp.
Qed.

Section Anatomy.
Context (providers : gmap string provider_class) (world : Z -> Z -> call_env).
Context (evaluation_name : string) (model_ids : list Z).
Context (test_case_ids : option (list Z)) (categories : option (list string)).

(** The run on well-keyed tables: its outcome, and the metrics it adds. *)
Lemma run_anatomy db :
  well_keyed db ->
  let id := Db.next_run_id db in
  let models := run_models model_ids db in
  let test_cases := run_test_cases test_case_ids categories db in
  let out := run providers world evaluation_name model_ids test_case_ids categories db in
  match models, test_cases with
  | [], _ =>
      out.2 = Raise (ValueError "No active models found for evaluation") /\
      db_metrics out.1 = db_metrics db
  | _ :: _, [] =>
      out.2 = Raise (ValueError "No test cases found for evaluation") /\
      db_metrics out.1 = db_metrics db
  | _ :: _, _ :: _ =>
      out.2 = Return {| evaluation_id := id; status := "completed";
                        total_results := Zlen models * Zlen test_cases;
                        models_evaluated := Zlen models;
                        test_cases_run := Zlen test_cases |} /\
      exists db2 d,
        db_results db2
        = db_results db ++ flushed_rows providers world id (pairs_of models test_cases) /\
        db_test_cases db2 = db_test_cases db /\
        group_results db2 (Db.query_results id db2) [] = Return d /\
        (forall r, In r (db_results db2) ->
                   In r (db_results db ++ run_rows providers world id models test_cases)) /\
        db_metrics out.1 = db_metrics db ++ aggregated id models db2 d
  end.
Proof.
  intros [_ _ Kr Km] id models test_cases out.
  assert (Hold : forall m, In m (db_metrics db) ->
                           pm_evaluation_run_id m <> Db.next_run_id db).
  { intros m' Hm'. by apply run_id_fresh, Km. }
  subst out models test_cases. rewrite run_unfold. cbv zeta.
  destruct (run_models model_ids db) as [|m0 ms] eqn:Em.
  { split; [done|]. simpl. by rewrite !app_nil_r. }
  destruct (run_test_cases test_case_ids categories db) as [|tc tcs] eqn:Et.
  { split; [done|]. simpl. by rewrite !app_nil_r. }
  pose proof (run_pairs_spec providers world (Db.next_run_id db) (tc :: tcs) (m0 :: ms)
                (started evaluation_name model_ids db) [] eq_refl) as [Hall Hext].
  pose proof (attempts_flushed providers world (Db.next_run_id db)
                (pairs_of (m0 :: ms) (tc :: tcs))
                (started evaluation_name model_ids db) []) as Hfl.
  rewrite <- run_pairs_flat in Hfl.
  destruct (run_pairs _ _ _ _ _ _) as [db2 all_results].
  cbn [fst snd] in Hall, Hext, Hfl. destruct Hext as (E1 & E2 & E3 & _ & _ & E6).
  assert (Hflushed : db_results db2
            = db_results db ++ flushed_rows providers world (Db.next_run_id db)
                                 (pairs_of (m0 :: ms) (tc :: tcs))).
  { rewrite Hfl. simpl db_results. simpl db_pending_results. rewrite !app_nil_r.
    destruct (existsb _ _) eqn:E; [done|].
    by rewrite (flushed_rows_none _ _ _ _ E), app_nil_r. }
  cbn [app] in Hall. simpl in E2. rewrite app_nil_r in E2.
  pose proof (generate_metrics_spec (Db.next_run_id db) (m0 :: ms) db2)
    as (_ & _ & _ & _ & H).
  assert (Hq : Db.query_metrics (Db.next_run_id db) db2 = []).
  { apply query_metrics_none. by rewrite E2. }
  destruct (group_results_total db2 (Db.query_results (Db.next_run_id db) db2) [])
    as [d Hd].
  { intros r [Hin Hid]%filter_In. apply Z.eqb_eq in Hid.
    assert (Hst : In r (stored_results db2)).
    { unfold stored_results. apply in_app_iff. by left. }
    rewrite E1 in Hst. apply in_app_iff in Hst as [Hst|Hst].
    - unfold stored_results in Hst. simpl in Hst. rewrite !app_nil_r in Hst.
      apply Kr, run_id_fresh in Hst. done.
    - apply run_rows_in in Hst as (model & test_case & _ & Ht & ->).
      rewrite <- Et in Ht. apply run_test_cases_in in Ht.
      unfold Db.test_case_of. rewrite E6. simpl.
      apply (find_is_Some _ _ test_case); [done|].
      destruct (pair_row_keys providers world (Db.next_run_id db) model test_case)
        as (_ & _ & ->). apply Z.eqb_refl. }
  rewrite Hd in H. destruct H as (store & Hs & _ & Hr). destruct (Hr Hq) as [-> Hret].
  destruct (_generate_performance_metrics _ _ db2) as [db3 o]. cbn [fst snd] in *.
  subst o. cbn [fst snd]. split.
  - rewrite Hall, run_rows_length. done.
  - exists db2, d. split; [done|]. split; [by rewrite E6|]. split; [done|]. split.
    { intros r Hin.
      assert (Hst : In r (stored_results db2)).
      { unfold stored_results. apply in_app_iff. by left. }
      rewrite E1 in Hst. unfold stored_results in Hst. simpl in Hst.
      by rewrite !app_nil_r in Hst. }
    change (db_metrics (Db.set_run_status (Db.next_run_id db) "completed" db3))
      with (stored_metrics db3).
    by rewrite Hs, E2, E3.
Qed.

End Anatomy.

(** X13. On well-keyed tables [run_evaluation] raises only its two
    validation errors, for no active model and for no test case; with at least
    one model and one test case it returns the summary of a completed run: the
    new run key, and one result for each pair of a model and a test case. *)
Theorem run_outcome providers world evaluation_name model_ids test_case_ids
    categories db :
  well_keyed db ->
  let models := run_models model_ids db in
  let test_cases := run_test_cases test_case_ids categories db in
  let out := run providers world evaluation_name model_ids test_case_ids categories db in
  match models, test_cases with
  | [], _ => out.2 = Raise (ValueError "No active models found for evaluation")
  | _ :: _, [] => out.2 = Raise (ValueError "No test cases found for evaluation")
  | _ :: _, _ :: _ =>
      out.2 = Return {| evaluation_id := Db.next_run_id db; status := "completed";
                        total_results := Zlen models * Zlen test_cases;
                        models_evaluated := Zlen models;
                        test_cases_run := Zlen test_cases |}
  end.
Proof.
  intros K models test_cases out.
  pose proof (run_anatomy providers world evaluation_name model_ids test_case_ids
                categories db K) as H.
  cbv zeta in H. fold models test_cases out in H.
  destruct models, test_cases; tauto.
Qed.

Lemma run_outcome_witness :
  let db := Sample.tables [Sample.model_a; Sample.model_b; Sample.model_c]
              [Sample.case_reasoning; Sample.case_qa] in
  well_keyed db /\
  (run LLMProviderFactory._providers Sample.world "sample" [1; 2; 3] None None db).2
  = Return {| evaluation_id := 1; status := "completed"; total_results := 6;
              models_evaluated := 3; test_cases_run := 2 |}.
Proof.
  intros db. split; [exact sample_tables_well_keyed|].
  exact (run_outcome LLMProviderFactory._providers Sample.world "sample" [1; 2; 3]
           None None db sample_tables_well_keyed).
Defined.

(** ** Run identifiers *)

Lemma foldr_max_nonneg l : 0 <= foldr Z.max 0 l.
Proof. induction l as [|x l IH]; simpl; lia. Qed.

Lemma foldr_max_snoc l x :
  foldr Z.max 0 (l ++ [x]) = Z.max (foldr Z.max 0 l) x.
Proof.
  pose proof (foldr_max_nonneg l).
  induction l as [|y l IH]; simpl in *; [lia|].
  pose proof (foldr_max_nonneg l). rewrite IH; lia.
Qed.

(** X14. Every call of [run_evaluation], the failing ones included, adds
    one run to the table: its key is the next key, larger than every earlier
    one, its name is the given name, and its status is completed or failed as
    the call returned or raised.  The next key grows by one. *)
Theorem run_ids_increase providers world evaluation_name model_ids test_case_ids
    categories db :
  let out := run providers world evaluation_name model_ids test_case_ids categories db in
  Db.next_run_id out.1 = Db.next_run_id db + 1 /\
  (forall r, In r (db_runs db) -> run_id r < Db.next_run_id db) /\
  exists r, db_runs out.1 = db_runs db ++ [r] /\ run_id r = Db.next_run_id db /\
            run_name r = evaluation_name /\
            run_status r = match out.2 with
                           | Return _ => "completed"
                           | Raise _ => "failed"
                           end.
Proof.
  intros out.
  pose proof (run_tables providers world evaluation_name model_ids test_case_ids
                categories db) as (_ & _ & _ & _ & r & Er & Eid & En & Es).
  fold out in Er, Es. split; [|split; [apply next_run_id_fresh | by exists r]].
  unfold Db.next_run_id at 1. rewrite Er, fmap_app. cbn [fmap list_fmap].
  rewrite foldr_max_snoc, Eid. unfold Db.next_run_id.
  pose proof (foldr_max_nonneg (run_id <$> db_runs db)). lia.
Qed.

Lemma run_ids_increase_witness :
  let db := Sample.tables [Sample.model_inactive] [Sample.case_reasoning] in
  let out := run LLMProviderFactory._providers Sample.world "sample" [4] None None db in
  Db.next_run_id db = 1 /\ Db.next_run_id out.1 = 2.
Proof.
  intros db out. split; [reflexivity|].
  destruct (run_ids_increase LLMProviderFactory._providers Sample.world "sample" [4]
              None None db) as [H _].
  exact H.
Defined.

(** ** The tables after a run *)

(** X15. A run keeps the tables well keyed: the keys of models and test
    cases stay unique, and every result and metric refers to a run of the
    table. *)
Theorem run_keeps_well_keyed providers world evaluation_name model_ids test_case_ids
    categories db :
  well_keyed db ->
  well_keyed (run providers world evaluation_name model_ids test_case_ids categories db).1.
Proof.
  intros K.
  pose proof (run_tables providers world evaluation_name model_ids test_case_ids
                categories db) as (Er & _ & Em & Et & r0 & Eruns & Eid & _).
  pose proof (run_anatomy providers world evaluation_name model_ids test_case_ids
                categories db K) as H.
  cbv zeta in Er, Eruns, H.
  set (out := run providers world evaluation_name model_ids test_case_ids categories db)
    in *.
  destruct K as [K1 K2 K3 K4]. split.
  - by rewrite Em.
  - by rewrite Et.
  - intros r. rewrite Er, Eruns, map_app, !in_app_iff. intros [Hin|Hin]; [auto|].
    right. apply run_rows_in in Hin as (model & test_case & _ & _ & ->).
    destruct (pair_row_keys providers world (Db.next_run_id db) model test_case)
      as (-> & _). rewrite <- Eid. by left.
  - intros m. rewrite Eruns, map_app, in_app_iff.
    destruct (run_models model_ids db), (run_test_cases test_case_ids categories db);
      try (destruct H as [_ ->]; by auto).
    destruct H as (_ & db2 & d & _ & _ & _ & _ & ->). rewrite in_app_iff. intros [Hin|Hin]; [auto|].
    right. apply aggregated_unranked in Hin as [-> _]. rewrite <- Eid. by left.
Qed.

Lemma run_keeps_well_keyed_witness :
  well_keyed
    (run LLMProviderFactory._providers Sample.world "sample" [1; 2; 3] None None
       (Sample.tables [Sample.model_a; Sample.model_b; Sample.model_c]
          [Sample.case_reasoning; Sample.case_qa])).1.
Proof.
  exact (run_keeps_well_keyed LLMProviderFactory._providers Sample.world "sample"
           [1; 2; 3] None None _ sample_tables_well_keyed).
Defined.

(** X16. On well-keyed tables a run only appends to the results and to
    the metrics: the rows stored before are kept, in place and unchanged.
    Every added row carries the key of the new run, no earlier row carries it,
    and the added metrics have no rank. *)
Theorem earlier_rows_untouched providers world evaluation_name model_ids test_case_ids
    categories db :
  well_keyed db ->
  let id := Db.next_run_id db in
  let out := run providers world evaluation_name model_ids test_case_ids categories db in
  exists results metrics,
    db_results out.1 = db_results db ++ results /\
    db_metrics out.1 = db_metrics db ++ metrics /\
    (forall r, In r results -> r_evaluation_run_id r = id) /\
    (forall m, In m metrics -> pm_evaluation_run_id m = id /\ unranked m) /\
    (forall r, In r (db_results db) -> r_evaluation_run_id r <> id) /\
    (forall m, In m (db_metrics db) -> pm_evaluation_run_id m <> id).
Proof.
  intros K id out.
  pose proof (run_tables providers world evaluation_name model_ids test_case_ids
                categories db) as (Er & _).
  pose proof (run_anatomy providers world evaluation_name model_ids test_case_ids
                categories db K) as H.
  cbv zeta in Er, H. fold out id in Er, H.
  assert (Hfresh :
    (forall r, In r (db_results db) -> r_evaluation_run_id r <> id) /\
    (forall m, In m (db_metrics db) -> pm_evaluation_run_id m <> id)).
  { destruct K as [_ _ K3 K4]. split; intros x Hx; by apply run_id_fresh; auto. }
  assert (Hrows : forall r,
    In r (run_rows providers world id (run_models model_ids db)
            (run_test_cases test_case_ids categories db)) ->
    r_evaluation_run_id r = id).
  { intros r (model & test_case & _ & _ & ->)%run_rows_in.
    by destruct (pair_row_keys providers world id model test_case) as (-> & _). }
  set (rows := run_rows providers world id (run_models model_ids db)
                 (run_test_cases test_case_ids categories db)) in *.
  clearbody rows.
  destruct (run_models model_ids db), (run_test_cases test_case_ids categories db);
    try (destruct H as [_ Hm]; exists rows, [];
         split; [exact Er|]; split; [by rewrite app_nil_r|];
         split; [exact Hrows|]; split; [intros ? Hx; destruct Hx | exact Hfresh]).
  destruct H as (_ & db2 & d & _ & _ & _ & _ & Hm). exists rows. eexists.
  split; [exact Er|]. split; [exact Hm|]. split; [exact Hrows|]. split; [|exact Hfresh].
  intros m Hin. by apply aggregated_unranked in Hin as [? ?].
Qed.

Lemma earlier_rows_untouched_witness :
  let db := Sample.tables [Sample.model_a; Sample.model_b; Sample.model_c]
              [Sample.case_reasoning; Sample.case_qa] in
  let out := run LLMProviderFactory._providers Sample.world "sample" [1; 2; 3]
               None None db in
  well_keyed db /\
  exists results metrics,
    db_results out.1 = db_results db ++ results /\
    db_metrics out.1 = db_metrics db ++ metrics /\
    (forall m, In m metrics -> pm_evaluation_run_id m = 1 /\ unranked m).
Proof.
  intros db out. split; [exact sample_tables_well_keyed|].
  destruct (earlier_rows_untouched LLMProviderFactory._providers Sample.world "sample"
              [1; 2; 3] None None db sample_tables_well_keyed)
    as (results & metrics & H1 & H2 & _ & H4 & _).
  exists results, metrics. split; [exact H1|]. split; [exact H2 | exact H4].
Defined.

(** X17. On well-keyed tables, for a run with a model and a test
    case, the metrics that the run adds are those of the aggregation over the
    rows that are flushed when the loops end, the rows of the pairs up to the
    last pair that did not raise: one metric for each group of these rows, in
    the order of the groups, then the overall metric of each model that has
    one of these rows. *)
Theorem run_metrics_from_flushed_rows providers world evaluation_name model_ids
    test_case_ids categories db :
  well_keyed db ->
  let id := Db.next_run_id db in
  let models := run_models model_ids db in
  let test_cases := run_test_cases test_case_ids categories db in
  let out := run providers world evaluation_name model_ids test_case_ids categories db in
  let rows := flushed_rows providers world id (pairs_of models test_cases) in
  models <> [] -> test_cases <> [] ->
  exists d,
    group_results db rows [] = Return d /\
    db_metrics out.1
    = db_metrics db ++ map (group_metric id) d ++ omap (overall_metric id rows) models.
Proof.
  intros K id models test_cases out rows Hm Ht.
  pose proof (run_anatomy providers world evaluation_name model_ids test_case_ids
                categories db K) as H.
  cbv zeta in H. fold id models test_cases out in H. fold rows in H.
  destruct models as [|m ms] eqn:Em; [done|].
  destruct test_cases as [|tc tcs] eqn:Et; [done|].
  destruct H as (_ & db2 & d & Hres & Htc & Hd & _ & ->). exists d.
  assert (Hq : Db.query_results id db2 = rows).
  { unfold Db.query_results. rewrite Hres, List.filter_app.
    rewrite filter_none, filter_all; [done| |].
    - intros r (p & _ & ->)%flushed_rows_in.
      destruct (pair_row_keys providers world id p.1 p.2) as (-> & _).
      apply Z.eqb_refl.
    - intros r Hr. apply Z.eqb_neq. destruct K as [_ _ K3 _]. by apply run_id_fresh, K3. }
  unfold aggregated. rewrite Hq in *. split; [|done].
  by rewrite <- (group_results_tables db db2).
Qed.

Lemma run_metrics_from_flushed_rows_witness :
  let db := Sample.tables [Sample.model_a; Sample.model_b; Sample.model_c]
              [Sample.case_reasoning; Sample.case_qa] in
  let out := run LLMProviderFactory._providers Sample.world "sample" [1; 2] None None db in
  let rows := flushed_rows LLMProviderFactory._providers Sample.world 1
                (pairs_of [Sample.model_a; Sample.model_b]
                   [Sample.case_reasoning; Sample.case_qa]) in
  well_keyed db /\ length (db_results out.1) = 4%nat /\ length rows = 2%nat /\
  exists d,
    group_results db rows [] = Return d /\
    db_metrics out.1
    = db_metrics db ++ map (group_metric 1) d
      ++ omap (overall_metric 1 rows) [Sample.model_a; Sample.model_b].
Proof.
  intros db out rows. split; [exact sample_tables_well_keyed|].
  split; [reflexivity|]. split; [reflexivity|].
  exact (run_metrics_from_flushed_rows LLMProviderFactory._providers Sample.world
           "sample" [1; 2] None None db sample_tables_well_keyed
           ltac:(discriminate) ltac:(discriminate)).
Defined.

(** ** Grouping and the ranges of the metrics *)

Section Totals.

Lemma Zsum_foldl l : forall acc, foldl Z.add acc l = acc + Zsum l.
Proof.
  unfold Zsum. induction l as [|x l IH]; intros acc; simpl; [lia|].
  rewrite (IH (acc + x)), (IH (0 + x)). lia.
Qed.

Lemma Zsum_cons x l : Zsum (x :: l) = x + Zsum l.
Proof. unfold Zsum at 1. simpl. by rewrite Zsum_foldl. Qed.

Lemma dict_update_counts r k (d : list ((Z * string) * stats)) :
  Zsum (map (fun g => total_count g.2)
          (dict_update key_eqb k empty_stats (record_result r) d))
  = Zsum (map (fun g => total_count g.2) d) + 1 /\
  Zsum (map (fun g => success_count g.2)
          (dict_update key_eqb k empty_stats (record_result r) d))
  = Zsum (map (fun g => success_count g.2) d) + (if successful r then 1 else 0).
Proof.
  induction d as [|[k' st] d [IH1 IH2]]; cbn [dict_update].
  - cbn [map]. rewrite !Zsum_cons. unfold record_result. fold (successful r).
    destruct (successful r); simpl; lia.
  - destruct (key_eqb k k'); cbn [map]; rewrite !Zsum_cons; cbn [snd].
    + unfold record_result. fold (successful r).
      destruct (successful r); cbn [total_count success_count]; lia.
    + rewrite IH1, IH2. lia.
Qed.

Lemma group_results_counts db rs : forall d d',
  group_results db rs d = Return d' ->
  Zsum (map (fun g => total_count g.2) d')
  = Zsum (map (fun g => total_count g.2) d) + Zlen rs /\
  Zsum (map (fun g => success_count g.2) d')
  = Zsum (map (fun g => success_count g.2) d) + Zlen (List.filter successful rs).
Proof.
  unfold Zlen. induction rs as [|r rs IH]; intros d d'; cbn [group_results].
  - intros [= <-]. simpl. lia.
  - destruct (Db.test_case_of r db) as [tc|]; [|discriminate]. intros H.
    destruct (IH _ _ H) as [-> ->].
    destruct (dict_update_counts r (r_model_id r, tc_category tc) d) as [-> ->].
    cbn [List.filter length]. destruct (successful r); cbn [length]; lia.
Qed.

End Totals.

(** X18. The grouping of the results loses no result and counts none
    twice: the keys of the groups are distinct, the total counts add up to the
    number of results, the success counts add up to the number of results
    without error, and in each group [1 <= total_count] and
    [0 <= success_count <= total_count]. *)
Theorem groups_partition_results db rs d :
  group_results db rs [] = Return d ->
  NoDup (map fst d) /\
  Zsum (map (fun g => total_count g.2) d) = Zlen rs /\
  Zsum (map (fun g => success_count g.2) d) = Zlen (List.filter successful rs) /\
  forall k st, In (k, st) d -> 1 <= total_count st /\ 0 <= success_count st <= total_count st.
Proof.
  intros H. split; [|split; [|split]].
  - by apply (group_results_keys db rs [] d NoDup_nil_2).
  - by destruct (group_results_counts db rs [] d H) as [-> _].
  - by destruct (group_results_counts db rs [] d H) as [_ ->].
  - intros k st Hin. destruct (group_results_entry db rs d k st H Hin) as [-> Hne].
    destruct (stats_from_fields (List.filter (in_group db k) rs) empty_stats)
      as (-> & -> & _).
    cbn [empty_stats total_count success_count]. unfold Zlen.
    pose proof (filter_length_le successful (List.filter (in_group db k) rs)) as Hle.
    destruct (List.filter (in_group db k) rs); [done|]. cbn [length] in *. lia.
Qed.

Lemma groups_partition_results_witness :
  let failed := error_result 1 Sample.model_b Sample.case_qa
                  (ValueError "Unknown provider type: local") in
  let passed := Sample.passed 1 Sample.model_b Sample.case_reasoning 0.8 100 50 in
  let db := Sample.tables [Sample.model_b] [Sample.case_reasoning; Sample.case_qa] in
  exists d,
    group_results db [passed; failed; passed] [] = Return d /\
    Zsum (map (fun g => total_count g.2) d) = 3 /\
    Zsum (map (fun g => success_count g.2) d) = 2.
Proof.
  intros failed passed db. eexists. split; [reflexivity|].
  destruct (groups_partition_results db [passed; failed; passed] _ eq_refl)
    as (_ & H1 & H2 & _).
  split; [exact H1 | exact H2].
Defined.

(** ** Results whose test case is gone *)

Lemma group_results_raises db rs : forall d,
  match group_results db rs d with
  | Raise e =>
      e = AttributeError "'NoneType' object has no attribute 'category'" /\
      exists r, In r rs /\ Db.test_case_of r db = None
  | Return _ => forall r, In r rs -> is_Some (Db.test_case_of r db)
  end.
Proof.
  induction rs as [|r rs IH]; intros d; cbn [group_results].
  - intros r [].
  - destruct (Db.test_case_of r db) as [tc|] eqn:E.
    + specialize (IH (dict_update key_eqb (r_model_id r, tc_category tc) empty_stats
                        (record_result r) d)).
      destruct (group_results db rs _) as [d'|e].
      * intros r' [<-|Hin]; [by eexists | auto].
      * destruct IH as (-> & r' & Hin & Hr'). split; [done|]. exists r'. split; [by right|done].
    + split; [done|]. exists r. split; [by left | done].
Qed.

(** X19. [_generate_performance_metrics] raises the [AttributeError]
    of [result.test_case.category], leaving the session as it was, exactly
    when a result of the run refers to a test case that is not in the table. *)
Theorem aggregation_needs_test_cases eval_run_id models db :
  (exists r, In r (Db.query_results eval_run_id db) /\ Db.test_case_of r db = None) <->
  _generate_performance_metrics eval_run_id models db
  = (db, Raise (AttributeError "'NoneType' object has no attribute 'category'")).
Proof.
  pose proof (group_results_raises db (Db.query_results eval_run_id db) []) as H.
  unfold _generate_performance_metrics.
  destruct (group_results db (Db.query_results eval_run_id db) []) as [d|e].
  - split.
    + intros (r & Hin & Hr). destruct (H r Hin) as [tc Htc]. congruence.
    + destruct (_calculate_rankings _ _) as [db' [[]|e]] eqn:E; [discriminate|].
      unfold _calculate_rankings in E.
      destruct (rank_categories _ _); [discriminate|].
      injection E as _ <-. discriminate.
  - destruct H as (-> & H). split; [done | by intros _].
Qed.

Lemma aggregation_needs_test_cases_witness :
  let row := Sample.passed 1 Sample.model_a Sample.case_qa 0.9 100 50 in
  let db := {| db_runs := []; db_models := [Sample.model_a];
               db_test_cases := [Sample.case_reasoning];
               db_results := [row]; db_metrics := [];
               db_pending_results := []; db_pending_metrics := [] |} in
  _generate_performance_metrics 1 [Sample.model_a] db
  = (db, Raise (AttributeError "'NoneType' object has no attribute 'category'")).
Proof.
  intros row db. apply aggregation_needs_test_cases.
  exists row. split; [by left | reflexivity].
Defined.

(** ** The ranges of the metrics *)

Section Ranges.

Lemma Qsum_foldl l : forall acc, (foldl Qplus acc l == acc + Qsum l)%Q.
Proof.
  unfold Qsum. induction l as [|x l IH]; intros acc; simpl; [ring|].
  rewrite (IH (acc + x)%Q), (IH (0 + x)%Q). ring.
Qed.

Lemma Qsum_cons x l : (Qsum (x :: l) == x + Qsum l)%Q.
Proof. unfold Qsum at 1. simpl. rewrite Qsum_foldl. ring. Qed.

Lemma Qsum_unit l :
  (forall x, In x l -> (0 <= x)%Q /\ (x <= 1)%Q) ->
  (0 <= Qsum l)%Q /\ (Qsum l <= inject_Z (Zlen l))%Q.
Proof.
  unfold Zlen. induction l as [|x l IH]; intros H.
  - split; by vm_compute.
  - destruct IH as [IH1 IH2]; [intros y Hy; apply H; by right|].
    destruct (H x) as [H1 H2]; [by left|].
    rewrite Qsum_cons. cbn [length]. rewrite Nat2Z.inj_succ, <- Z.add_1_l, inject_Z_plus.
    split.
    + apply (Qplus_le_compat 0 x 0 (Qsum l)); done.
    + apply Qplus_le_compat; done.
Qed.

Lemma average_unit l :
  (forall x, In x l -> (0 <= x)%Q /\ (x <= 1)%Q) -> l <> [] ->
  (0 <= Qsum l / inject_Z (Zlen l))%Q /\ (Qsum l / inject_Z (Zlen l) <= 1)%Q.
Proof.
  intros H Hne. destruct (Qsum_unit l H) as [H1 H2].
  apply div_unit_interval; [|done|done].
  unfold Zlen. destruct l; [done|]. cbn [length].
  rewrite <- (Zlt_Qlt 0). lia.
Qed.

Lemma ratio_unit a b :
  0 <= a <= b -> 1 <= b ->
  (0 <= inject_Z a / inject_Z b)%Q /\ (inject_Z a / inject_Z b <= 1)%Q.
Proof.
  intros Ha Hb. apply div_unit_interval.
  - rewrite <- (Zlt_Qlt 0). lia.
  - rewrite <- (Zle_Qle 0). lia.
  - rewrite <- Zle_Qle. lia.
Qed.

Lemma scores_of_in (rs : list EvaluationResult) (p : EvaluationResult -> bool) x :
  (forall r, In r rs -> (0 <= r_accuracy_score r)%Q /\ (r_accuracy_score r <= 1)%Q) ->
  In x (map r_accuracy_score (List.filter p rs)) -> (0 <= x)%Q /\ (x <= 1)%Q.
Proof.
  intros H (r & <- & [Hr _]%filter_In)%in_map_iff. auto.
Qed.

End Ranges.

Lemma aggregated_in_range eval_run_id models db d m :
  group_results db (Db.query_results eval_run_id db) [] = Return d ->
  (forall r, In r (db_results db) ->
             (0 <= r_accuracy_score r)%Q /\ (r_accuracy_score r <= 1)%Q) ->
  In m (aggregated eval_run_id models db d) ->
  (0 <= pm_success_rate m)%Q /\ (pm_success_rate m <= 1)%Q /\
  (0 <= pm_avg_accuracy m)%Q /\ (pm_avg_accuracy m <= 1)%Q.
Proof.
  intros Hd Hrange. unfold aggregated. rewrite in_app_iff, in_map_iff.
  assert (Hq : forall r, In r (Db.query_results eval_run_id db) ->
                 (0 <= r_accuracy_score r)%Q /\ (r_accuracy_score r <= 1)%Q).
  { intros r [Hr _]%filter_In. auto. }
  intros [([k st] & <- & Hin)|Hin].
  - destruct (group_results_entry _ _ _ _ _ Hd Hin) as [-> Hne].
    set (grp := List.filter (in_group db k) (Db.query_results eval_run_id db)) in *.
    destruct (stats_from_fields grp empty_stats) as (Ht & Hs & Hsc & _).
    destruct k as [model_id category]. unfold group_metric.
    rewrite Ht, Hs, Hsc. cbn [empty_stats total_count success_count scores app].
    pose proof (filter_length_le successful grp) as Hle.
    assert (Hr : (0 <= inject_Z (0 + Zlen (List.filter successful grp))
                       / inject_Z (0 + Zlen grp))%Q /\
                 (inject_Z (0 + Zlen (List.filter successful grp))
                  / inject_Z (0 + Zlen grp) <= 1)%Q).
    { apply ratio_unit; unfold Zlen; [lia|]. destruct grp; [done|]. cbn [length]. lia. }
    assert (Ha : forall x, In x (map r_accuracy_score (List.filter successful grp)) ->
                   (0 <= x)%Q /\ (x <= 1)%Q).
    { intros x. apply scores_of_in. intros r [Hr' _]%filter_In. auto. }
    destruct (map r_accuracy_score (List.filter successful grp)) as [|x l] eqn:E.
    + cbn [new_metric pm_success_rate pm_avg_accuracy]. by destruct Hr.
    + cbn [new_metric pm_success_rate pm_avg_accuracy].
      destruct (average_unit (x :: l) Ha) as [? ?]; [done|]. by destruct Hr.
  - apply list_elem_of_In, list_elem_of_omap in Hin as (model & _ & Hm).
    pose proof (overall_metric_fields eval_run_id (Db.query_results eval_run_id db) model)
      as H. cbv zeta in H.
    set (mr := List.filter (fun r => r_model_id r =? m_id model)
                 (Db.query_results eval_run_id db)) in *.
    assert (Hne : mr <> []).
    { intros E. unfold overall_metric in Hm. fold mr in Hm. by rewrite E in Hm. }
    destruct (H Hne) as (m' & Hm' & _ & _ & _ & Hacc & _ & _ & _ & Hrate).
    rewrite Hm' in Hm. injection Hm as <-. rewrite Hacc, Hrate.
    pose proof (filter_length_le successful mr) as Hle.
    assert (Hr : (0 <= inject_Z (Zlen (List.filter successful mr)) / inject_Z (Zlen mr))%Q /\
                 (inject_Z (Zlen (List.filter successful mr)) / inject_Z (Zlen mr) <= 1)%Q).
    { apply ratio_unit; unfold Zlen; [lia|]. destruct mr; [done|]. cbn [length]. lia. }
    assert (Ha : forall x, In x (map r_accuracy_score (List.filter successful mr)) ->
                   (0 <= x)%Q /\ (x <= 1)%Q).
    { intros x. apply scores_of_in. intros r [Hr' _]%filter_In. auto. }
    destruct Hr as [Hr1 Hr2]. split; [done|]. split; [done|].
    destruct (List.filter successful mr) as [|r0 ok] eqn:E; [done|].
    assert (Zlen (r0 :: ok) = Zlen (map r_accuracy_score (r0 :: ok))) as ->.
    { unfold Zlen. by rewrite length_map. }
    apply average_unit; [done|done].
Qed.

(** X20. On well-keyed tables, if every stored accuracy score lies in the
    unit interval and every stored metric has its success rate and its average
    accuracy there, the same holds of the metrics after any run. *)
Theorem run_metrics_in_range providers world evaluation_name model_ids test_case_ids
    categories db :
  well_keyed db ->
  (forall r, In r (db_results db) ->
             (0 <= r_accuracy_score r)%Q /\ (r_accuracy_score r <= 1)%Q) ->
  (forall m, In m (db_metrics db) ->
             (0 <= pm_success_rate m)%Q /\ (pm_success_rate m <= 1)%Q /\
             (0 <= pm_avg_accuracy m)%Q /\ (pm_avg_accuracy m <= 1)%Q) ->
  let out := run providers world evaluation_name model_ids test_case_ids categories db in
  forall m, In m (db_metrics out.1) ->
            (0 <= pm_success_rate m)%Q /\ (pm_success_rate m <= 1)%Q /\
            (0 <= pm_avg_accuracy m)%Q /\ (pm_avg_accuracy m <= 1)%Q.
Proof.
  intros K Hr Hm out m.
  pose proof (run_anatomy providers world evaluation_name model_ids test_case_ids
                categories db K) as H.
  cbv zeta in H. fold out in H.
  destruct (run_models model_ids db), (run_test_cases test_case_ids categories db);
    try (destruct H as [_ ->]; by auto).
  destruct H as (_ & db2 & d & _ & _ & Hd & Hsub & ->). rewrite in_app_iff.
  intros [Hin|Hin]; [auto|].
  eapply (aggregated_in_range _ _ _ _ _ Hd); [|exact Hin].
  intros r [Hold|Hnew]%Hsub%in_app_iff; [auto|].
  apply run_rows_in in Hnew as (model & test_case & _ & _ & ->).
  by destruct (pair_row_sound providers world (Db.next_run_id db) model test_case)
    as (? & ? & _).
Qed.

Lemma run_metrics_in_range_witness :
  let db := Sample.tables [Sample.model_a; Sample.model_b; Sample.model_c]
              [Sample.case_reasoning; Sample.case_qa] in
  let out := run LLMProviderFactory._providers Sample.world "sample" [1; 2; 3]
               None None db in
  well_keyed db /\ length (db_metrics out.1) = 9%nat /\
  forall m, In m (db_metrics out.1) ->
            (0 <= pm_success_rate m)%Q /\ (pm_success_rate m <= 1)%Q /\
            (0 <= pm_avg_accuracy m)%Q /\ (pm_avg_accuracy m <= 1)%Q.
Proof.
  intros db out. split; [exact sample_tables_well_keyed|]. split; [reflexivity|].
  apply (run_metrics_in_range LLMProviderFactory._providers Sample.world "sample"
           [1; 2; 3] None None db sample_tables_well_keyed); simpl; tauto.
Defined.

(** ** The ranking of a run whose metrics are in the table *)

Section RankFrame.
Implicit Types (store : list PerformanceMetrics) (g : list nat).

Lemma decorate_snd {K} (key : PerformanceMetrics -> option K) store g ks :
  decorate key store g = Some ks -> ks.*2 = g.
Proof.
  unfold decorate. intros H%mapM_Some_1.
  induction H as [|j [k i] g ks Hj _ IH]; [done|].
  rewrite fmap_cons, IH. f_equal.
  destruct (store !! j) as [m|]; [|done]. simpl in Hj.
  destruct (key m); [|done]. simpl in Hj. by injection Hj as _ <-.
Qed.

Lemma assign_scores_frame {B} (proj : PerformanceMetrics -> B) n g : forall store store',
  (forall v m, proj (set_overall_rank v m) = proj m) ->
  assign_scores n g store = Some store' ->
  forall j, proj <$> store' !! j = proj <$> store !! j.
Proof.
  induction g as [|i g IH]; intros store store' Hf; cbn [assign_scores].
  - by intros [= <-].
  - destruct (store !! i) as [m|] eqn:Hm; [|done]. cbn [mbind option_bind].
    destruct (overall_score n m) as [v|]; [|done]. cbn [mbind option_bind].
    intros H j. rewrite (IH _ _ Hf H j).
    destruct (decide (i = j)) as [->|Hne].
    + rewrite list_lookup_alter_eq, Hm. simpl. by rewrite Hf.
    + by rewrite list_lookup_alter_ne.
Qed.

Lemma assign_scores_notin n g : forall store store',
  assign_scores n g store = Some store' ->
  forall j, j ∉ g -> store' !! j = store !! j.
Proof.
  induction g as [|i g IH]; intros store store'; cbn [assign_scores].
  - by intros [= <-].
  - destruct (store !! i) as [m|] eqn:Hm; [|done]. cbn [mbind option_bind].
    destruct (overall_score n m) as [v|]; [|done]. cbn [mbind option_bind].
    intros H j [Hne Hj]%not_elem_of_cons.
    by rewrite (IH _ _ H j Hj), list_lookup_alter_ne.
Qed.

(** The passes of [rank_category], one after the other. *)
Lemma rank_category_inv g store store' :
  rank_category g store = Some store' ->
  exists ks1 ks2 ks3 store3 ks4,
    let store1 := assign_ranks set_accuracy_rank 1 (sorted_reverse fst ks1).*2 store in
    let store2 := assign_ranks set_speed_rank 1 (sorted fst ks2).*2 store1 in
    ks1.*2 = g /\ ks2.*2 = g /\ ks3.*2 = g /\ ks4.*2 = g /\
    assign_scores (Zlen g) g
      (assign_ranks set_cost_rank 1 (sorted fst ks3).*2 store2) = Some store3 /\
    store' = assign_ranks (fun rank => set_overall_rank (inject_Z rank)) 1
               (sorted_reverse fst ks4).*2 store3.
Proof.
  unfold rank_category.
  destruct (decorate (fun m => Some (pm_avg_accuracy m)) store g) as [ks1|] eqn:E1;
    [|done]. cbn [mbind option_bind].
  destruct (decorate (fun m => Some (pm_avg_response_time m)) _ g) as [ks2|] eqn:E2;
    [|done]. cbn [mbind option_bind].
  destruct (decorate (fun m => Some (pm_total_cost m)) _ g) as [ks3|] eqn:E3;
    [|done]. cbn [mbind option_bind].
  destruct (assign_scores _ _ _) as [store3|] eqn:E4; [|done]. cbn [mbind option_bind].
  destruct (decorate pm_overall_rank _ g) as [ks4|] eqn:E5; [|done].
  cbn [mbind option_bind].
  intros [= <-]. exists ks1, ks2, ks3, store3, ks4. cbv zeta.
  apply decorate_snd in E1, E2, E3, E5. done.
Qed.

Lemma sorted_snd_in {K} (cmp : K * nat -> K * nat -> bool) (ks : list (K * nat)) g j :
  ks.*2 = g -> j ∉ g -> j ∉ (sort_by cmp ks).*2.
Proof. intros <- Hj. by rewrite sort_by_perm. Qed.

Lemma rank_category_notin g store store' :
  rank_category g store = Some store' ->
  forall j, j ∉ g -> store' !! j = store !! j.
Proof.
  intros (ks1 & ks2 & ks3 & store3 & ks4 & H)%rank_category_inv j Hj. cbv zeta in H.
  destruct H as (E1 & E2 & E3 & E4 & Hs & ->).
  unfold sorted, sorted_reverse in *.
  rewrite assign_ranks_notin by by eapply sorted_snd_in.
  rewrite (assign_scores_notin _ _ _ _ Hs j Hj).
  rewrite !assign_ranks_notin by by eapply sorted_snd_in.
  done.
Qed.

Lemma rank_category_measurements g store store' :
  rank_category g store = Some store' ->
  forall j, measurements <$> store' !! j = measurements <$> store !! j.
Proof.
  intros (ks1 & ks2 & ks3 & store3 & ks4 & H)%rank_category_inv j. cbv zeta in H.
  destruct H as (_ & _ & _ & _ & Hs & ->).
  rewrite (assign_ranks_frame _ measurements) by done.
  rewrite (assign_scores_frame measurements _ _ _ _ ltac:(done) Hs j).
  by rewrite !(assign_ranks_frame _ measurements) by done.
Qed.

End RankFrame.

Section RankRun.
Implicit Types (store : list PerformanceMetrics) (g : list nat).
Implicit Types (cm : list (string * list nat)).

Lemma valid_length store store' (l : list nat) :
  length store' = length store ->
  (forall i, i ∈ l -> is_Some (store !! i)) ->
  forall i, i ∈ l -> is_Some (store' !! i).
Proof.
  intros Hl Hv i Hi. apply lookup_lt_is_Some. rewrite Hl.
  apply lookup_lt_is_Some. auto.
Qed.

(** The categories are ranked one after the other, each on its own rows. *)
Lemma rank_categories_spec cm : forall store,
  NoDup (concat cm.*2) -> (forall i, i ∈ concat cm.*2 -> is_Some (store !! i)) ->
  exists store',
    rank_categories cm store = Some store' /\ length store' = length store /\
    (forall j, j ∉ concat cm.*2 -> store' !! j = store !! j) /\
    (forall j, measurements <$> store' !! j = measurements <$> store !! j) /\
    forall c g, (c, g) ∈ cm ->
      exists s0 s1,
        rank_category g s0 = Some s1 /\ NoDup g /\
        (forall i, i ∈ g -> is_Some (s0 !! i)) /\
        (forall i, i ∈ g -> store' !! i = s1 !! i).
Proof.
  induction cm as [|[c g] cm IH]; intros store Hd Hv.
  - exists store. repeat split; try done. intros c g Hin. by apply elem_of_nil in Hin.
  - rewrite fmap_cons in Hd, Hv. cbn [concat snd] in Hd, Hv.
    apply NoDup_app in Hd as (Hg & Hdis & Hrest).
    destruct (rank_category_permutation g store Hg) as (s1 & Hs1 & Hl1 & _).
    { intros i Hi. apply Hv, elem_of_app. by left. }
    destruct (IH s1 Hrest) as (store' & Hr & Hl & Hf & Hm & He).
    { apply (valid_length store); [done|]. intros i Hi. apply Hv, elem_of_app. by right. }
    exists store'. cbn [rank_categories]. rewrite Hs1. cbn [mbind option_bind].
    split; [done|]. split; [congruence|]. split; [|split].
    + rewrite fmap_cons. cbn [concat snd]. intros j [Hj1 Hj2]%not_elem_of_app.
      rewrite (Hf j Hj2). by apply (rank_category_notin g store).
    + intros j. rewrite Hm. by apply (rank_category_measurements g store).
    + intros c' g' [[= -> ->]|Hin]%elem_of_cons.
      * exists store, s1. split; [done|]. split; [done|]. split.
        -- intros i Hi. apply Hv, elem_of_app. by left.
        -- intros i Hi. apply Hf. by apply Hdis.
      * destruct (He c' g' Hin) as (s0 & s2 & H1 & H2 & H3 & H4).
        exists s0, s2. done.
Qed.

Lemma dict_update_concat k i (d : list (string * list nat)) :
  concat (dict_update String.eqb k [] (fun l => l ++ [i]) d).*2 ≡ₚ concat d.*2 ++ [i].
Proof.
  induction d as [|[k' v] d IH]; cbn [dict_update].
  - done.
  - destruct (String.eqb k k'); rewrite !fmap_cons; cbn [concat snd].
    + rewrite <- !app_assoc. f_equiv. apply Permutation_app_comm.
    + by rewrite IH, app_assoc.
Qed.

Lemma group_metrics_concat store ms : forall cm,
  (forall i, i ∈ ms -> is_Some (store !! i)) ->
  concat (group_metrics store ms cm).*2 ≡ₚ concat cm.*2 ++ ms.
Proof.
  induction ms as [|i ms IH]; intros cm Hv; cbn [group_metrics].
  - by rewrite app_nil_r.
  - destruct (Hv i) as [m ->]; [by left|].
    rewrite IH by (intros j Hj; apply Hv; by right).
    rewrite dict_update_concat, <- app_assoc. done.
Qed.

Lemma group_metrics_get store ms : forall cm c,
  dict_get String.eqb c (group_metrics store ms cm)
  = match List.filter (fun i => match store !! i with
                                | Some m => String.eqb c (pm_category m)
                                | None => false
                                end) ms with
    | [] => dict_get String.eqb c cm
    | grp => Some (default [] (dict_get String.eqb c cm) ++ grp)
    end.
Proof.
  induction ms as [|i ms IH]; intros cm c; cbn [group_metrics List.filter]; [done|].
  destruct (store !! i) as [m|]; [|apply IH].
  rewrite IH, (dict_get_update String.eqb String.eqb_eq).
  destruct (String.eqb c (pm_category m)) eqn:E.
  - apply String.eqb_eq in E as <-.
    destruct (List.filter _ ms); cbn [default from_option id]; [done|].
    by rewrite <- app_assoc.
  - done.
Qed.

Lemma dict_get_Some_in (d : list (string * list nat)) c g :
  dict_get String.eqb c d = Some g -> (c, g) ∈ d.
Proof.
  induction d as [|[c' g'] d IH]; cbn [dict_get]; [done|].
  destruct (String.eqb c c') eqn:E.
  - apply String.eqb_eq in E as <-. intros [= <-]. by left.
  - intros H. right. auto.
Qed.

Lemma query_metrics_valid id db i :
  i ∈ Db.query_metrics id db ->
  exists m, db_metrics db !! i = Some m /\ pm_evaluation_run_id m = id.
Proof.
  unfold Db.query_metrics. intros [_ H]%list_elem_of_In%filter_In.
  destruct (db_metrics db !! i) as [m|]; [|done]. exists m. split; [done|].
  by apply Z.eqb_eq.
Qed.

Lemma query_metrics_NoDup id db : NoDup (Db.query_metrics id db).
Proof.
  unfold Db.query_metrics.
  rewrite <- (map_id (List.filter _ _)). apply NoDup_map_filter.
  rewrite map_id. apply NoDup_ListNoDup, List.seq_NoDup.
Qed.

(** [_calculate_rankings] on the rows that its query returns. *)
Lemma calculate_rankings_spec id db :
  exists store',
    _calculate_rankings id db = (Db.set_metrics store' db, Return tt) /\
    length store' = length (db_metrics db) /\
    (forall j, j ∉ Db.query_metrics id db -> store' !! j = db_metrics db !! j) /\
    (forall j, measurements <$> store' !! j = measurements <$> db_metrics db !! j) /\
    forall category,
      let g := category_positions id category db in
      g <> [] ->
      exists s0 s1,
        rank_category g s0 = Some s1 /\ NoDup g /\
        (forall i, i ∈ g -> is_Some (s0 !! i)) /\
        (forall i, i ∈ g -> store' !! i = s1 !! i).
Proof.
  unfold _calculate_rankings.
  set (ms := Db.query_metrics id db). set (store := db_metrics db).
  assert (Hv : forall i, i ∈ ms -> is_Some (store !! i)).
  { intros i (m & Hm & _)%query_metrics_valid. by eexists. }
  pose proof (group_metrics_concat store ms [] Hv) as Hc. cbn [fmap list_fmap concat app] in Hc.
  destruct (rank_categories_spec (group_metrics store ms []) store)
    as (store' & -> & Hl & Hf & Hm & He).
  { rewrite Hc. apply query_metrics_NoDup. }
  { intros i Hi. apply Hv. by rewrite <- Hc. }
  exists store'. split; [done|]. split; [done|]. split; [|split; [done|]].
  - intros j Hj. apply Hf. by rewrite Hc.
  - intros category Hne. apply (He category).
    apply dict_get_Some_in. rewrite group_metrics_get. subst ms store.
    fold (category_positions id category db).
    by destruct (category_positions id category db).
Qed.

End RankRun.

Lemma ranks_transfer {B} (get : PerformanceMetrics -> option B)
    (store s1 : list PerformanceMetrics) (g : list nat) :
  (forall i, i ∈ g -> store !! i = s1 !! i) ->
  (fun i => store !! i ≫= get) <$> g = (fun i => s1 !! i ≫= get) <$> g.
Proof.
  intros H. apply list_fmap_ext. intros k i Hk.
  rewrite H; [done|]. by eapply list_elem_of_lookup_2.
Qed.

(** X21. [_calculate_rankings] returns on every table, and in the
    table that it leaves, for every category, each of the four rank fields
    takes the values 1 to [n], each once, over the [n] metrics of the run in
    that category that its query returned. *)
Theorem ranking_assigns_permutations eval_run_id db category :
  let out := _calculate_rankings eval_run_id db in
  let g := category_positions eval_run_id category db in
  out.2 = Return tt /\
  (fun i => db_metrics out.1 !! i ≫= pm_accuracy_rank) <$> g
  ≡ₚ Some <$> seqZ 1 (Zlen g) /\
  (fun i => db_metrics out.1 !! i ≫= pm_speed_rank) <$> g
  ≡ₚ Some <$> seqZ 1 (Zlen g) /\
  (fun i => db_metrics out.1 !! i ≫= pm_cost_rank) <$> g
  ≡ₚ Some <$> seqZ 1 (Zlen g) /\
  (fun i => db_metrics out.1 !! i ≫= pm_overall_rank) <$> g
  ≡ₚ Some ∘ inject_Z <$> seqZ 1 (Zlen g).
Proof.
  intros out g. subst out.
  destruct (calculate_rankings_spec eval_run_id db) as (store' & -> & _ & _ & _ & H).
  split; [done|]. cbn [fst Db.set_metrics db_metrics].
  specialize (H category). cbv zeta in H. fold g in H.
  destruct g as [|i0 g0] eqn:Eg; [done|]. rewrite <- Eg in *.
  destruct H as (s0 & s1 & Hr & Hd & Hv & Ht); [by rewrite Eg|].
  destruct (rank_category_permutation g s0 Hd Hv) as (s1' & Hr' & _ & P1 & P2 & P3 & P4).
  rewrite Hr in Hr'. injection Hr' as <-.
  by rewrite !(ranks_transfer _ store' s1 g Ht).
Qed.

(** X22. [_calculate_rankings] changes rank fields only, and only of
    the metrics of its run: the number of metrics and every measurement of
    every metric are kept, a metric of another run is left as it was, and the
    runs, the results and the pending objects are not touched. *)
Theorem ranking_changes_ranks_only eval_run_id db :
  let out := _calculate_rankings eval_run_id db in
  length (db_metrics out.1) = length (db_metrics db) /\
  (forall j, measurements <$> db_metrics out.1 !! j
             = measurements <$> db_metrics db !! j) /\
  (forall j m, db_metrics db !! j = Some m -> pm_evaluation_run_id m <> eval_run_id ->
               db_metrics out.1 !! j = Some m) /\
  db_results out.1 = db_results db /\ db_runs out.1 = db_runs db /\
  db_pending_results out.1 = db_pending_results db /\
  db_pending_metrics out.1 = db_pending_metrics db.
Proof.
  intros out.
  pose proof (calculate_rankings_frame eval_run_id db) as (F1 & _ & _ & F4 & F5 & F6).
  fold out in F1, F4, F5, F6. subst out.
  destruct (calculate_rankings_spec eval_run_id db) as (store' & E & Hl & Hf & Hm & _).
  rewrite E in *. cbn [fst Db.set_metrics db_metrics] in *.
  repeat split; try done.
  intros j m Hj Hid. rewrite Hf; [done|].
  intros (m' & Hm' & Hid')%query_metrics_valid. congruence.
Qed.

Lemma ranking_changes_ranks_only_witness :
  let out := Sample.run [Sample.model_a; Sample.model_e] [Sample.case_qa] in
  let ranked := _calculate_rankings 1 out.1 in
  map measurements (db_metrics ranked.1) = map measurements (db_metrics out.1).
Proof.
  intros out ranked.
  destruct (ranking_changes_ranks_only 1 out.1) as (_ & H & _).
  apply (list_eq_same_length _ _ 4); [reflexivity | reflexivity |].
  intros i x y Hi. rewrite !list_lookup_fmap. fold ranked in H. rewrite (H i).
  congruence.
Defined.

(** X23. After [_calculate_rankings], of two metrics of the run in one
    category, the one with more weighted points has the smaller overall rank,
    and both ranks lie between 1 and the size of the category. *)
Theorem ranking_orders_by_points eval_run_id db category i j mi mj pi pj :
  let out := _calculate_rankings eval_run_id db in
  let g := category_positions eval_run_id category db in
  i ∈ g -> j ∈ g ->
  db_metrics out.1 !! i = Some mi -> db_metrics out.1 !! j = Some mj ->
  overall_score (Zlen g) mi = Some pi -> overall_score (Zlen g) mj = Some pj ->
  (pj < pi)%Q ->
  exists ri rj,
    pm_overall_rank mi = Some (inject_Z ri) /\ pm_overall_rank mj = Some (inject_Z rj) /\
    1 <= ri < rj /\ rj <= Zlen g.
Proof.
  intros out g Hi Hj Hmi Hmj Hpi Hpj Hlt. subst out.
  destruct (calculate_rankings_spec eval_run_id db) as (store' & E & _ & _ & _ & H).
  rewrite E in Hmi, Hmj. cbn [fst Db.set_metrics db_metrics] in Hmi, Hmj.
  specialize (H category). cbv zeta in H. fold g in H.
  destruct H as (s0 & s1 & Hr & Hd & Hv & Ht).
  { intros Eg. rewrite Eg in Hi. by apply elem_of_nil in Hi. }
  rewrite (Ht i Hi) in Hmi. rewrite (Ht j Hj) in Hmj.
  by apply (rank_category_by_points g s0 s1 i j mi mj pi pj).
Qed.

Lemma ranking_orders_by_points_witness :
  let out := Sample.run [Sample.model_a; Sample.model_e] [Sample.case_qa] in
  let ranked := _calculate_rankings 1 out.1 in
  exists mi mj,
    db_metrics ranked.1 !! 0%nat = Some mi /\ db_metrics ranked.1 !! 1%nat = Some mj /\
    pm_overall_rank mi = Some 1%Q /\ pm_overall_rank mj = Some 2%Q.
Proof.
  intros out ranked.
  assert (Eg : category_positions 1 "qa" out.1 = [0; 1]%nat) by reflexivity.
  edestruct (ranking_orders_by_points 1 out.1 "qa" 0%nat 1%nat)
    as (ri & rj & Hi & Hj & Hlt & Hle).
  - rewrite Eg. by left.
  - rewrite Eg. right. by left.
  - vm_compute. reflexivity.
  - vm_compute. reflexivity.
  - vm_compute. reflexivity.
  - vm_compute. reflexivity.
  - vm_compute. reflexivity.
  - rewrite Eg in Hle. change (Zlen [0%nat; 1%nat]) with 2 in Hle.
    assert (ri = 1 /\ rj = 2) as [-> ->] by lia.
    eexists _, _. split; [vm_compute; reflexivity|]. split; [vm_compute; reflexivity|].
    split; [exact Hi | exact Hj].
Defined.

(** ** The report of a run *)

Section Report.
Context (created_at : EvaluationRun -> string).

Lemma find_None {A} (p : A -> bool) l :
  (forall x, In x l -> p x = false) -> List.find p l = None.
Proof.
  induction l as [|x l IH]; intros H; simpl; [done|].
  rewrite (H x) by by left. apply IH. intros y Hy. apply H. by right.
Qed.

Lemma find_app_None {A} (p : A -> bool) l1 l2 :
  List.find p l1 = None -> List.find p (l1 ++ l2) = List.find p l2.
Proof.
  induction l1 as [|x l1 IH]; simpl; [done|]. by destruct (p x).
Qed.

Lemma mapM_outcome_total {A B} (f : A -> outcome B) l :
  (forall x, In x l -> exists y, f x = Return y) ->
  exists ys, mapM f l = Return ys /\ length ys = length l.
Proof.
  induction l as [|x l IH]; intros H.
  - by exists [].
  - destruct (H x) as [y Hy]; [by left|].
    destruct IH as (ys & Hys & Hl); [intros z Hz; apply H; by right|].
    exists (y :: ys). cbn [mapM]. rewrite Hy. cbn [mbind outcome_bind].
    rewrite Hys. cbn [mbind outcome_bind]. split; [done|]. simpl. by rewrite Hl.
Qed.

Lemma query_run_missing id db :
  (forall r, In r (db_runs db) -> run_id r <> id) ->
  get_evaluation_results created_at id db
  = Raise (ValueError ("Evaluation run " +:+ Float.string_of_int id +:+ " not found")).
Proof.
  intros H. unfold get_evaluation_results, Db.query_run. cbn [Db.SessionLocal db_runs].
  rewrite find_None; [done|]. intros r Hr. apply Z.eqb_neq. auto.
Qed.

End Report.

(** X24. On well-keyed tables, before a run [get_evaluation_results] raises
    the not-found [ValueError] for the key that the run will get, and after the
    run, returned or raised, it returns the report of that run: its name, its
    status, one formatted result for each pair of the run, a count of
    successful results between 0 and that total, and metrics without ranks. *)
Theorem report_after_run created_at providers world evaluation_name model_ids
    test_case_ids categories db :
  well_keyed db ->
  let id := Db.next_run_id db in
  let out := run providers world evaluation_name model_ids test_case_ids categories db in
  get_evaluation_results created_at id db
  = Raise (ValueError ("Evaluation run " +:+ Float.string_of_int id +:+ " not found")) /\
  exists report,
    get_evaluation_results created_at id out.1 = Return report /\
    erd_id (rep_evaluation_run report) = id /\
    erd_name (rep_evaluation_run report) = evaluation_name /\
    erd_status (rep_evaluation_run report)
    = match out.2 with Return _ => "completed" | Raise _ => "failed" end /\
    rs_total_results (rep_summary report)
    = Zlen (run_models model_ids db) * Zlen (run_test_cases test_case_ids categories db) /\
    Zlen (rep_results report) = rs_total_results (rep_summary report) /\
    0 <= rs_successful_results (rep_summary report) <= rs_total_results (rep_summary report) /\
    forall fm, In fm (rep_metrics report) ->
      fm_accuracy_rank fm = None /\ fm_speed_rank fm = None /\
      fm_cost_rank fm = None /\ fm_overall_rank fm = None.
Proof.
  intros K id out. split.
  { apply query_run_missing. intros r Hr. apply run_id_fresh, in_map_iff. by exists r. }
  pose proof (run_tables providers world evaluation_name model_ids test_case_ids
                categories db) as (Er & _ & Em & Et & r0 & Eruns & Eid & En & Es).
  pose proof (ranks_never_assigned providers world evaluation_name model_ids
                test_case_ids categories db) as Hunranked.
  cbv zeta in Er, Eruns, Es, Hunranked. fold out id in Er, Em, Et, Eruns, Eid, Es, Hunranked.
  set (rows := run_rows providers world id (run_models model_ids db)
                 (run_test_cases test_case_ids categories db)) in *.
  assert (Hrows : Db.query_results id out.1 = rows).
  { unfold Db.query_results. rewrite Er, List.filter_app.
    rewrite filter_none, filter_all; [done| |].
    - intros r (model & test_case & _ & _ & ->)%run_rows_in.
      destruct (pair_row_keys providers world id model test_case) as (-> & _).
      apply Z.eqb_refl.
    - intros r Hr. apply Z.eqb_neq. destruct K as [_ _ K3 _]. by apply run_id_fresh, K3. }
  unfold get_evaluation_results, Db.query_run.
  change (db_runs (Db.SessionLocal out.1)) with (db_runs out.1).
  change (Db.query_results id (Db.SessionLocal out.1)) with (Db.query_results id out.1).
  change (Db.query_metrics id (Db.SessionLocal out.1)) with (Db.query_metrics id out.1).
  change (db_metrics (Db.SessionLocal out.1)) with (db_metrics out.1).
  rewrite Eruns, find_app_None.
  2:{ apply find_None. intros r Hr. apply Z.eqb_neq, run_id_fresh, in_map_iff. by exists r. }
  cbn [List.find]. rewrite Eid, Z.eqb_refl, Hrows.
  assert (Hmodel : forall r, In r rows ->
            exists model, result_model (Db.SessionLocal out.1) r = Return model).
  { intros r (model & test_case & [Hm _]%run_models_in & _ & ->)%run_rows_in.
    unfold result_model, Db.model_of. cbn [Db.SessionLocal db_models]. rewrite Em.
    destruct (find_is_Some (fun m => m_id m =? r_model_id
                 (pair_row providers world id model test_case)) _ model Hm) as [m' ->].
    - destruct (pair_row_keys providers world id model test_case) as (_ & -> & _).
      apply Z.eqb_refl.
    - by eexists. }
  assert (Hcase : forall attr r, In r rows ->
            exists tc, result_test_case attr (Db.SessionLocal out.1) r = Return tc).
  { intros attr r (model & test_case & _ & Ht%run_test_cases_in & ->)%run_rows_in.
    unfold result_test_case, Db.test_case_of. cbn [Db.SessionLocal db_test_cases].
    rewrite Et.
    destruct (find_is_Some (fun tc => tc_id tc =? r_test_case_id
                 (pair_row providers world id model test_case)) _ test_case Ht) as [tc ->].
    - destruct (pair_row_keys providers world id model test_case) as (_ & _ & ->).
      apply Z.eqb_refl.
    - by eexists. }
  destruct (mapM_outcome_total (format_result (Db.SessionLocal out.1)) rows)
    as (frs & -> & Hlen).
  { intros r Hr. unfold format_result.
    destruct (Hmodel r Hr) as [model ->]. destruct (Hcase "name" r Hr) as [tc ->].
    by eexists. }
  cbn [mbind outcome_bind].
  destruct (mapM_outcome_total
              (fun r => test_case ← result_test_case "category" (Db.SessionLocal out.1) r;
                        Return (tc_category test_case)) rows) as (cs & -> & _).
  { intros r Hr. destruct (Hcase "category" r Hr) as [tc ->]. by eexists. }
  cbn [mbind outcome_bind].
  destruct (mapM_outcome_total
              (fun r => model ← result_model (Db.SessionLocal out.1) r;
                        Return (m_name model)) rows) as (ns & -> & _).
  { intros r Hr. destruct (Hmodel r Hr) as [model ->]. by eexists. }
  cbn [mbind outcome_bind].
  eexists. split; [reflexivity|].
  cbn [rep_evaluation_run rep_summary rep_results rep_metrics erd_id erd_name erd_status
       rs_total_results rs_successful_results].
  split; [done|]. split; [done|]. split; [done|].
  split; [apply run_rows_length|]. split; [unfold Zlen; by rewrite Hlen|]. split.
  { unfold Zlen. pose proof (filter_length_le (fun r => negb (truthy (r_error_message r))) rows).
    lia. }
  intros fm (m & <- & Hin)%in_map_iff.
  apply list_elem_of_In, list_elem_of_omap in Hin as (i & Hi & Hm).
  apply query_metrics_valid in Hi as (m' & Hm' & Hid).
  rewrite Hm in Hm'. injection Hm' as <-.
  apply list_elem_of_lookup_2, list_elem_of_In in Hm.
  by apply (Hunranked m K Hm Hid).
Qed.

Lemma report_after_run_witness :
  let db := Sample.tables [Sample.model_a; Sample.model_b; Sample.model_c]
              [Sample.case_reasoning; Sample.case_qa] in
  let out := run LLMProviderFactory._providers Sample.world "sample" [1; 2; 3]
               None None db in
  let created_at (r : EvaluationRun) := "2024-01-01T00:00:00" in
  well_keyed db /\
  get_evaluation_results created_at 1 db
  = Raise (ValueError "Evaluation run 1 not found") /\
  exists report,
    get_evaluation_results created_at 1 out.1 = Return report /\
    rs_total_results (rep_summary report) = 6.
Proof.
  intros db out created_at. split; [exact sample_tables_well_keyed|].
  destruct (report_after_run created_at LLMProviderFactory._providers Sample.world
              "sample" [1; 2; 3] None None db sample_tables_well_keyed)
    as (H1 & report & H2 & _ & _ & _ & H3 & _).
  split; [exact H1|]. exists report. split; [exact H2 | exact H3].
Defined.

(** ** The request that starts a run *)

Section Requests.

Lemma in__In x l : Db.in_ x l = true <-> In x l.
Proof.
  unfold Db.in_. rewrite existsb_exists. split.
  - intros (y & Hy & ->%Z.eqb_eq). done.
  - intros H. exists x. split; [done | apply Z.eqb_refl].
Qed.

(** A query by keys returns as many rows as keys exactly when the keys are
    distinct and each one is the key of a row that passes the filter. *)
Lemma query_by_keys {A} (key : A -> Z) (p : A -> bool) (rows : list A) (ids : list Z) :
  NoDup (map key rows) ->
  let found := List.filter (fun x => Db.in_ (key x) ids && p x) rows in
  length found = length ids <->
  NoDup ids /\ forall id, In id ids -> exists x, In x rows /\ key x = id /\ p x = true.
Proof.
  intros Hk found.
  assert (Hd : NoDup (map key found)) by by apply NoDup_map_filter.
  assert (Hsub : forall id, id ∈ map key found -> id ∈ ids).
  { intros id (x & <- & [_ [H _]%andb_prop]%filter_In)%list_elem_of_In%in_map_iff.
    by apply list_elem_of_In, in__In. }
  split.
  - intros Hl.
    assert (Hp : map key found ≡ₚ ids).
    { apply submseteq_length_Permutation; [by apply NoDup_submseteq|].
      rewrite length_map. lia. }
    split; [by rewrite <- Hp|]. intros id Hid.
    apply list_elem_of_In in Hid. rewrite <- Hp in Hid.
    apply list_elem_of_In, in_map_iff in Hid as (x & <- & [Hx [_ Hpx]%andb_prop]%filter_In).
    by exists x.
  - intros [Hids Hall]. rewrite <- (length_map key found).
    apply Permutation_length, NoDup_Permutation; [done|done|].
    intros id. split; [apply Hsub|]. intros Hid%list_elem_of_In.
    destruct (Hall id Hid) as (x & Hx & <- & Hpx).
    apply list_elem_of_In, in_map_iff. exists x. split; [done|].
    apply filter_In. split; [done|]. rewrite Hpx, andb_true_r. by apply in__In.
Qed.

End Requests.

(** X25. On well-keyed tables [start_evaluation] accepts a request
    exactly when the model keys of the request are distinct and each one is
    the key of an active model, and, if test case keys are given, these are
    distinct and each one is the key of a test case. *)
Theorem start_evaluation_accepts request db :
  well_keyed db ->
  (exists accepted, Routes.start_evaluation request db = inr accepted) <->
  (NoDup (Routes.req_model_ids request) /\
   forall id, In id (Routes.req_model_ids request) ->
     exists m, In m (db_models db) /\ m_id m = id /\ m_is_active m = true) /\
  (forall ids, given (Routes.req_test_case_ids request) = Some ids ->
     NoDup ids /\
     forall id, In id ids -> exists tc, In tc (db_test_cases db) /\ tc_id tc = id).
Proof.
  intros [Km Kt _ _]. unfold Routes.start_evaluation.
  pose proof (query_by_keys m_id m_is_active (db_models db)
                (Routes.req_model_ids request) Km) as Hm.
  cbv zeta in Hm. fold (Db.query_models (Routes.req_model_ids request) db) in Hm.
  destruct (Nat.eqb_spec (length (Db.query_models (Routes.req_model_ids request) db))
              (length (Routes.req_model_ids request))) as [E|E]; cbn [negb].
  2:{ split; [by intros [? ?]|]. intros [H _]. by apply Hm in H. }
  apply Hm in E.
  destruct (given (Routes.req_test_case_ids request)) as [ids|].
  2:{ split; [|by eexists]. intros _. split; [done|]. by intros ids. }
  pose proof (query_by_keys tc_id (fun _ => true) (db_test_cases db) ids Kt) as Ht.
  cbv zeta beta in Ht.
  assert (Hf : List.filter (fun x => Db.in_ (tc_id x) ids && true) (db_test_cases db)
               = List.filter (fun tc => Db.in_ (tc_id tc) ids) (db_test_cases db)).
  { apply filter_ext. intros tc. apply andb_true_r. }
  rewrite Hf in Ht.
  destruct (Nat.eqb_spec
              (length (List.filter (fun tc => Db.in_ (tc_id tc) ids) (db_test_cases db)))
              (length ids)) as [E'|E']; cbn [negb].
  - split; [|by eexists]. intros _. split; [done|]. intros ids' [= <-].
    apply Ht in E' as [H1 H2]. split; [done|]. intros id Hid.
    destruct (H2 id Hid) as (tc & ? & ? & _). by exists tc.
  - split; [by intros [? ?]|]. intros [_ H]. destruct (H ids eq_refl) as [H1 H2].
    exfalso. apply E', Ht. split; [done|]. intros id Hid.
    destruct (H2 id Hid) as (tc & ? & ?). by exists tc.
Qed.

Lemma start_evaluation_accepts_witness :
  let db := Sample.tables [Sample.model_a; Sample.model_b; Sample.model_c]
              [Sample.case_reasoning; Sample.case_qa] in
  let request := {| Routes.req_name := "twice"; Routes.req_model_ids := [1; 1];
                    Routes.req_test_case_ids := None;
                    Routes.req_categories := None |} in
  well_keyed db /\
  forall accepted, Routes.start_evaluation request db <> inr accepted.
Proof.
  intros db request. split; [exact sample_tables_well_keyed|]. intros accepted E.
  destruct (start_evaluation_accepts request db sample_tables_well_keyed) as [H _].
  destruct H as [[Hd _] _]; [by exists accepted|].
  apply NoDup_cons in Hd as [Hn _]. apply Hn. by left.
Defined.

(** X26. On well-keyed tables, the task scheduled by an accepted request
    fails only when the request lists no model, or when no test case is
    selected; otherwise its run completes, with as many models as the
    immediate response announced and one result for each pair. *)
Theorem accepted_request_runs providers world request db response task :
  well_keyed db ->
  Routes.start_evaluation request db = inr (response, task) ->
  let test_cases :=
    run_test_cases (Routes.req_test_case_ids request) (Routes.req_categories request) db in
  let out := run_evaluation providers world (Routes.task_name task)
               (Routes.task_model_ids task) (Routes.task_test_case_ids task)
               (Routes.task_categories task) db in
  status response = "starting" /\
  Routes.run_evaluation_task providers world task db = out.1 /\
  match Routes.req_model_ids request, test_cases with
  | [], _ => out.2 = Raise (ValueError "No active models found for evaluation")
  | _ :: _, [] => out.2 = Raise (ValueError "No test cases found for evaluation")
  | _ :: _, _ :: _ =>
      out.2 = Return {| evaluation_id := Db.next_run_id db; status := "completed";
                        total_results := models_evaluated response * Zlen test_cases;
                        models_evaluated := models_evaluated response;
                        test_cases_run := Zlen test_cases |}
  end.
Proof.
  intros K Hs test_cases out.
  assert (Hacc : length (Db.query_models (Routes.req_model_ids request) db)
                 = length (Routes.req_model_ids request) /\
                 response = {| evaluation_id := 0; status := "starting";
                               total_results := 0;
                               models_evaluated := Zlen (Routes.req_model_ids request);
                               test_cases_run := 0 |} /\
                 task = {| Routes.task_name := Routes.req_name request;
                           Routes.task_model_ids := Routes.req_model_ids request;
                           Routes.task_test_case_ids := Routes.req_test_case_ids request;
                           Routes.task_categories := Routes.req_categories request |}).
  { unfold Routes.start_evaluation in Hs.
    destruct (Nat.eqb_spec (length (Db.query_models (Routes.req_model_ids request) db))
                (length (Routes.req_model_ids request))) as [E|E]; [|done].
    cbn [negb] in Hs. split; [done|].
    destruct (given (Routes.req_test_case_ids request)) as [ids|].
    - destruct (negb _); [done|]. by injection Hs as <- <-.
    - by injection Hs as <- <-. }
  destruct Hacc as (Hlen & -> & ->). split; [done|]. split; [done|].
  cbn [Routes.task_name Routes.task_model_ids Routes.task_test_case_ids
       Routes.task_categories models_evaluated] in *.
  pose proof (run_anatomy providers world (Routes.req_name request)
                (Routes.req_model_ids request) (Routes.req_test_case_ids request)
                (Routes.req_categories request) db K) as H.
  cbv zeta in H. fold test_cases in H. unfold run in H. fold out in H.
  unfold run_models in H.
  assert (HZ : Zlen (Db.query_models (Routes.req_model_ids request) db)
               = Zlen (Routes.req_model_ids request)).
  { unfold Zlen. by rewrite Hlen. }
  destruct (Db.query_models (Routes.req_model_ids request) db) as [|m ms],
    (Routes.req_model_ids request) as [|id ids]; try done.
  - by destruct H.
  - destruct test_cases; [by destruct H|]. destruct H as [-> _]. by rewrite HZ.
Qed.

Lemma accepted_request_runs_witness :
  let db := Sample.tables [Sample.model_a; Sample.model_b; Sample.model_c]
              [Sample.case_reasoning; Sample.case_qa] in
  let request := {| Routes.req_name := "demo"; Routes.req_model_ids := [1; 2; 3];
                    Routes.req_test_case_ids := None;
                    Routes.req_categories := None |} in
  let response := {| evaluation_id := 0; status := "starting"; total_results := 0;
                     models_evaluated := 3; test_cases_run := 0 |} in
  let task := {| Routes.task_name := "demo"; Routes.task_model_ids := [1; 2; 3];
                 Routes.task_test_case_ids := None; Routes.task_categories := None |} in
  Routes.start_evaluation request db = inr (response, task) /\
  (run_evaluation LLMProviderFactory._providers Sample.world "demo" [1; 2; 3]
     None None db).2
  = Return {| evaluation_id := 1; status := "completed"; total_results := 6;
              models_evaluated := 3; test_cases_run := 2 |}.
Proof.
  intros db request response task. split; [reflexivity|].
  destruct (accepted_request_runs LLMProviderFactory._providers Sample.world request db
              response task sample_tables_well_keyed eq_refl) as (_ & _ & H).
  exact H.
Defined.

Section ReportErrors.
Context (created_at : EvaluationRun -> string).

Lemma mapM_outcome_inv {A B} (f : A -> outcome B) l :
  match mapM f l with
  | Return ys => forall x, In x l -> exists y, f x = Return y
  | Raise e => exists x, In x l /\ f x = Raise e
  end.
Proof.
  induction l as [|x l IH]; cbn [mapM].
  - intros x [].
  - destruct (f x) as [y|e] eqn:E; cbn [mbind outcome_bind].
    + destruct (mapM f l) as [ys|e]; cbn [mbind outcome_bind].
      * intros z [<-|Hz]; [by eexists | auto].
      * destruct IH as (z & Hz & Hf). exists z. split; [by right | done].
    + exists x. split; [by left | done].
Qed.

Lemma format_result_outcome db r :
  match format_result db r with
  | Return _ => is_Some (Db.model_of (r_model_id r) db) /\ is_Some (Db.test_case_of r db)
  | Raise e =>
      e = AttributeError "'NoneType' object has no attribute 'name'" /\
      (Db.model_of (r_model_id r) db = None \/ Db.test_case_of r db = None)
  end.
Proof.
  unfold format_result, result_model, result_test_case.
  destruct (Db.model_of (r_model_id r) db); cbn [mbind outcome_bind].
  - destruct (Db.test_case_of r db); cbn [mbind outcome_bind].
    + split; by eexists.
    + split; [done | by right].
  - split; [done | by left].
Qed.

(** The report of a run that exists raises only for a result whose model
    or test case is gone. *)
Lemma get_evaluation_results_outcome id db :
  match get_evaluation_results created_at id db with
  | Return report =>
      (exists r, In r (db_runs db) /\ run_id r = id) /\
      rs_total_results (rep_summary report) = Zlen (Db.query_results id db) /\
      forall r, In r (Db.query_results id db) ->
        is_Some (Db.model_of (r_model_id r) db) /\ is_Some (Db.test_case_of r db)
  | Raise (ValueError msg) =>
      (forall r, In r (db_runs db) -> run_id r <> id) /\
      msg = "Evaluation run " +:+ Float.string_of_int id +:+ " not found"
  | Raise e =>
      (exists r, In r (db_runs db) /\ run_id r = id) /\
      e = AttributeError "'NoneType' object has no attribute 'name'" /\
      exists r, In r (Db.query_results id db) /\
        (Db.model_of (r_model_id r) db = None \/ Db.test_case_of r db = None)
  end.
Proof.
  unfold get_evaluation_results, Db.query_run.
  change (db_runs (Db.SessionLocal db)) with (db_runs db).
  change (Db.query_results id (Db.SessionLocal db)) with (Db.query_results id db).
  destruct (List.find _ (db_runs db)) as [eval_run|] eqn:Ef.
  2:{ split; [|done]. intros r Hr. apply Z.eqb_neq. by apply (find_none _ _ Ef). }
  apply find_some in Ef as [Hin Hid%Z.eqb_eq].
  assert (Hrun : exists r, In r (db_runs db) /\ run_id r = id) by by exists eval_run.
  pose proof (mapM_outcome_inv (format_result (Db.SessionLocal db))
                (Db.query_results id db)) as H.
  destruct (mapM (format_result (Db.SessionLocal db)) (Db.query_results id db))
    as [frs|e]; cbn [mbind outcome_bind].
  - assert (Hall : forall r, In r (Db.query_results id db) ->
              is_Some (Db.model_of (r_model_id r) db) /\ is_Some (Db.test_case_of r db)).
    { intros r Hr. destruct (H r Hr) as [y Hy].
      pose proof (format_result_outcome (Db.SessionLocal db) r) as Hf.
      by rewrite Hy in Hf. }
    destruct (mapM_outcome_total
                (fun r => test_case ← result_test_case "category" (Db.SessionLocal db) r;
                          Return (tc_category test_case)) (Db.query_results id db))
      as (cs & -> & _).
    { intros r Hr. destruct (Hall r Hr) as [_ [tc Htc]]. unfold result_test_case.
      change (Db.test_case_of r (Db.SessionLocal db)) with (Db.test_case_of r db).
      rewrite Htc. by eexists. }
    cbn [mbind outcome_bind].
    destruct (mapM_outcome_total
                (fun r => model ← result_model (Db.SessionLocal db) r;
                          Return (m_name model)) (Db.query_results id db))
      as (ns & -> & _).
    { intros r Hr. destruct (Hall r Hr) as [[m Hm] _]. unfold result_model.
      change (Db.model_of (r_model_id r) (Db.SessionLocal db))
        with (Db.model_of (r_model_id r) db).
      rewrite Hm. by eexists. }
    cbn [mbind outcome_bind]. done.
  - destruct H as (r & Hr & Hf).
    pose proof (format_result_outcome (Db.SessionLocal db) r) as Hf'.
    rewrite Hf in Hf'. destruct Hf' as [-> Hf']. split; [done|]. split; [done|].
    by exists r.
Qed.

End ReportErrors.

(** X27. The route [get_evaluation_results] answers 404 with the
    not-found text exactly when the table has no run with the key, answers
    500 when the run exists and one of its results refers to a model or a test
    case that is gone, and otherwise returns the report, which counts the
    results of the run. *)
Theorem results_route_status created_at evaluation_id db :
  match Routes.get_evaluation_results created_at evaluation_id db with
  | inr report =>
      (exists r, In r (db_runs db) /\ run_id r = evaluation_id) /\
      rs_total_results (rep_summary report) = Zlen (Db.query_results evaluation_id db)
  | inl exc =>
      (Routes.status_code exc = 404 /\
       (forall r, In r (db_runs db) -> run_id r <> evaluation_id) /\
       Routes.detail exc
       = "Evaluation run " +:+ Float.string_of_int evaluation_id +:+ " not found") \/
      (Routes.status_code exc = 500 /\
       (exists r, In r (db_runs db) /\ run_id r = evaluation_id) /\
       (exists r, In r (Db.query_results evaluation_id db) /\
          (Db.model_of (r_model_id r) db = None \/ Db.test_case_of r db = None)) /\
       Routes.detail exc
       = "Error retrieving results: 'NoneType' object has no attribute 'name'")
  end.
Proof.
  unfold Routes.get_evaluation_results.
  pose proof (get_evaluation_results_outcome created_at evaluation_id db) as H.
  destruct (get_evaluation_results created_at evaluation_id db) as [report|e].
  - by destruct H as (? & ? & _).
  - destruct e as [msg|msg|msg|msg|msg].
    + left. by destruct H as [? ->].
    + by destruct H as (_ & [=] & _).
    + right. destruct H as (? & [= ->] & ?). done.
    + by destruct H as (_ & [=] & _).
    + by destruct H as (_ & [=] & _).
Qed.

Lemma results_route_status_witness :
  let db := Sample.tables [Sample.model_a] [Sample.case_reasoning] in
  let created_at (r : EvaluationRun) := "2024-01-01T00:00:00" in
  Routes.get_evaluation_results created_at 7 db
  = inl {| Routes.status_code := 404;
           Routes.detail := "Evaluation run 7 not found" |}.
Proof.
  intros db created_at.
  pose proof (results_route_status created_at 7 db) as H.
  destruct (Routes.get_evaluation_results created_at 7 db) as [[code detail]|report].
  - destruct H as [(H1 & _ & H3)|(_ & (r & [] & _) & _)].
    simpl in H1, H3. by rewrite H1, H3.
  - by destruct H as ((r & [] & _) & _).
Defined.
